(** * Jogo da Tabuada: the rules engine and turn machine of [src/App.tsx]

    A shallow embedding of the game core of the React component [App]:
    the board layouts, the operand generator, answer validation, the win
    evaluation and the event handlers that drive the turn machine.

    Conventions of the embedding.
    - JavaScript numbers that the game handles are integers; they are [Z].
    - [null] is [None]; a [T | null] field is an [option T].
    - Arrays are lists, read with stdpp's lookup [l !! i] and written with
      [<[i:=x]> l].
    - The React state of [App] (one [useState] cell per field) is the record
      [State].  A handler reads the values of the render it was created in
      and queues writes; it is a function from the state of that render to
      the state after the writes.  Callbacks handed to [setTimeout] are kept
      in the field [timers] together with the values their closure captured.
    - [Math.floor(Math.random() * 10)] is a [Draw], one of the ten values
      0..9, supplied by the event that triggers the handler.
    - Sounds, colours of the scene, camera moves and animations are not
      modelled. *)

From Stdlib Require Import ZArith String Lia.
From stdpp Require Import base option list numbers fin finite.

Local Open Scope Z_scope.

(** ** Data model *)

(** [type Player = "player1" | "player2"] *)
Inductive Player := player1 | player2.

(** [type Operation = "+" | "-" | "×" | "÷"] *)
Inductive Operation := OpTimes | OpPlus | OpMinus | OpDivide.

(** [GameSettings["winCondition"]] *)
Inductive WinCondition := first_to_5 | connect_3 | most_on_full.

(** [type GameState] *)
Inductive GameState :=
| SETUP
| COIN_FLIP
| PLAYER_1_SPIN_1
| PLAYER_1_SPIN_2
| PLAYER_1_ANSWER
| PLAYER_2_SPIN_1
| PLAYER_2_SPIN_2
| PLAYER_2_ANSWER
| GAME_OVER.

#[global] Instance Player_eq_dec : EqDecision Player.
Proof. solve_decision. Defined.
#[global] Instance Operation_eq_dec : EqDecision Operation.
Proof. solve_decision. Defined.
#[global] Instance WinCondition_eq_dec : EqDecision WinCondition.
Proof. solve_decision. Defined.
#[global] Instance GameState_eq_dec : EqDecision GameState.
Proof. solve_decision. Defined.

(** [type Segment = { v: number; c: string }] *)
Record Segment := { v : Z; c : string }.

(** [interface PlayerSettings] *)
Record PlayerSettings := { name : string; value : string; light : string }.

(** [interface GameSettings]; the fields [player1] and [player2] are
    [settings1] and [settings2] here, the constructors of [Player] own the
    source's names. *)
Record GameSettings := {
  settings1 : PlayerSettings;
  settings2 : PlayerSettings;
  winCondition : WinCondition;
  operation : Operation
}.

Definition DEFAULT_GAME_SETTINGS : GameSettings :=
  {| settings1 := {| name := "Azul (Padrão)"; value := "#4682B4"; light := "#00BFFF" |};
     settings2 := {| name := "Rosa (Padrão)"; value := "#DB7093"; light := "#FF1493" |};
     winCondition := first_to_5;
     operation := OpTimes |}.

(** [(Player | null)[][]] *)
Abbreviation Board := (list (list (option Player))).

(** ** Board layouts *)

Definition PREDEFINED_BOARDS (op : Operation) : list (list Z) :=
  match op with
  | OpTimes =>
      [ [30; 18; 63; 64; 28; 7; 8];
        [32; 45; 60; 70; 27; 6; 9];
        [35; 48; 56; 72; 25; 5; 10];
        [36; 1; 54; 80; 24; 4; 12];
        [40; 16; 50; 81; 21; 3; 14];
        [42; 100; 49; 90; 20; 2; 15] ]
  | OpPlus =>
      [ [14; 8; 21; 12; 17; 9; 23];
        [6; 25; 11; 18; 7; 15; 20];
        [24; 10; 19; 5; 22; 13; 16];
        [1; 2; 3; 4; 26; 27; 28];
        [29; 30; 31; 32; 33; 34; 35];
        [36; 37; 38; 39; 40; 41; 42] ]
  | OpMinus =>
      [ [2; 5; 3; 7; 1; 6; 20];
        [8; 4; 9; 0; 10; 15; 13];
        [12; 17; 16; 14; 19; 11; 18];
        [21; 22; 23; 24; 25; 26; 27];
        [28; 29; 30; 31; 32; 33; 34];
        [35; 36; 37; 38; 39; 40; 41] ]
  | OpDivide =>
      [ [9; 2; 8; 6; 10; 14; 18];
        [4; 5; 7; 3; 1; 17; 11];
        [21; 20; 19; 12; 16; 15; 13];
        [22; 23; 24; 25; 26; 27; 28];
        [29; 30; 32; 35; 36; 40; 42];
        [45; 48; 50; 54; 56; 60; 81] ]
  end.

Definition DEFAULT_SPINNER_SEGMENTS : list Segment :=
  [ {| v := 1; c := "#8A2BE2" |};
    {| v := 2; c := "#DC143C" |};
    {| v := 3; c := "#FF4500" |};
    {| v := 4; c := "#483D8B" |};
    {| v := 5; c := "#FF69B4" |};
    {| v := 6; c := "#FFD700" |};
    {| v := 7; c := "#3CB371" |};
    {| v := 8; c := "#00CED1" |};
    {| v := 9; c := "#008B8B" |};
    {| v := 10; c := "#D2B48C" |} ].

(** ** Arithmetic of the rules engine *)

(** [Number.isSafeInteger]: the integers on which the arithmetic of doubles
    is exact. *)
Definition safeInteger (x : Z) : Prop := - (2 ^ 53 - 1) ≤ x ≤ 2 ^ 53 - 1.

(** JavaScript's [a % b] on integers: [NaN] ([None]) for a zero divisor,
    otherwise the remainder that takes the sign of the dividend. *)
Definition js_rem (a b : Z) : option Z :=
  if decide (b = 0) then None else Some (Z.rem a b).

(** [getCorrectAnswer]: [val1 % val2 === 0 ? val1 / val2 : null] for the
    division; the quotient is exact on that branch.  The source's numbers
    are IEEE doubles: the integer arithmetic below is theirs as long as
    operands and result are safe integers (see [safeInteger]), which holds
    for every value of the game (at most 100). *)
Definition getCorrectAnswer (op : Operation) (val1 val2 : Z) : option Z :=
  match op with
  | OpTimes => Some (val1 * val2)
  | OpPlus => Some (val1 + val2)
  | OpMinus => Some (val1 - val2)
  | OpDivide =>
      match js_rem val1 val2 with
      | Some 0 => Some (Z.quot val1 val2)
      | _ => None
      end
  end.

(** ** The operand generator's domain

    The pairs [(operand1, operand2)] the generator hands to the wheels:
    two draws [a], [b] from 1..10, kept as drawn for [×] and [+], ordered
    for [-], and for [÷] the table number [b] with its multiple [b * a]. *)

Definition oneToTen : list Z := [1; 2; 3; 4; 5; 6; 7; 8; 9; 10].

Definition generatorPair (op : Operation) (a b : Z) : Z * Z :=
  match op with
  | OpTimes | OpPlus => (a, b)
  | OpMinus => (Z.max a b, Z.min a b)
  | OpDivide => (b * a, b)
  end.

Definition generatorPairs (op : Operation) : list (Z * Z) :=
  a ← oneToTen; b ← oneToTen; [generatorPair op a b].

(** The results those pairs give. *)
Definition generatorResults (op : Operation) : list Z :=
  omap (λ p, getCorrectAnswer op p.1 p.2) (generatorPairs op).

Definition producible (op : Operation) (x : Z) : Prop := x ∈ generatorResults op.

Definition memZ (x : Z) (l : list Z) : bool := existsb (Z.eqb x) l.

Fixpoint distinctZ (l : list Z) : bool :=
  match l with
  | [] => true
  | x :: l' => negb (memZ x l') && distinctZ l'
  end.


(** ** The state of [App] *)

(** [Math.floor(Math.random() * 10)]: one of 0..9. *)
Abbreviation Draw := (fin 10).

Definition rand10 (d : Draw) : Z := Z.of_nat (fin_to_nat d).

(** The texts handed to [setMessage], by the place that builds them; the
    arguments are the values spliced into the template. *)
Inductive Message :=
| MsgConfigure
| MsgTossing
| MsgCoinResult (startingPlayer : Player)
| MsgTurn (p : Player)
| MsgSpinning
| MsgSpinRight
| MsgQuestion (val1 : option Z) (op : Operation) (val2 : Z)
| MsgCorrect (val1 val2 : Z) (op : Operation) (result : Z)
| MsgIncorrect (result : Z)
| MsgNoInteger (val1 val2 : Z) (op : Operation)
| MsgGameOver.

(** The callbacks given to [setTimeout], with what their closure holds:
    the start of the first turn after the coin flip (1600 ms), the end of the
    rejected-cell highlight (1600 ms) and [changeTurn] (2000 ms), which reads
    [currentPlayer] and [gameSettings] of the render that scheduled it. *)
Inductive Timer :=
| TFirstTurn (startingPlayer : Player)
| TFlashOff
| TChangeTurn (cur : Player) (settings : GameSettings).

Record State := {
  gameState : GameState;
  currentPlayer : Player;
  gameSettings : GameSettings;
  message : Message;
  isSpinning1 : bool;
  isSpinning2 : bool;
  spinner1Value : option Z;
  spinner2Value : option Z;
  winner : option Player;
  spinner1Target : option Z;
  spinner2Target : option Z;
  boardLayout : list (list Z);
  spinner1Segments : list Segment;
  divisionTableNumber : option Z;
  boardState : Board;
  flashingCell : option (nat * nat);
  timers : list Timer
}.

(** The setters of the [useState] cells: each replaces one field. *)
Definition setGameState (x : GameState) (s : State) : State :=
  {| gameState := x;
     currentPlayer := currentPlayer s;
     gameSettings := gameSettings s;
     message := message s;
     isSpinning1 := isSpinning1 s;
     isSpinning2 := isSpinning2 s;
     spinner1Value := spinner1Value s;
     spinner2Value := spinner2Value s;
     winner := winner s;
     spinner1Target := spinner1Target s;
     spinner2Target := spinner2Target s;
     boardLayout := boardLayout s;
     spinner1Segments := spinner1Segments s;
     divisionTableNumber := divisionTableNumber s;
     boardState := boardState s;
     flashingCell := flashingCell s;
     timers := timers s |}.

Definition setCurrentPlayer (x : Player) (s : State) : State :=
  {| gameState := gameState s;
     currentPlayer := x;
     gameSettings := gameSettings s;
     message := message s;
     isSpinning1 := isSpinning1 s;
     isSpinning2 := isSpinning2 s;
     spinner1Value := spinner1Value s;
     spinner2Value := spinner2Value s;
     winner := winner s;
     spinner1Target := spinner1Target s;
     spinner2Target := spinner2Target s;
     boardLayout := boardLayout s;
     spinner1Segments := spinner1Segments s;
     divisionTableNumber := divisionTableNumber s;
     boardState := boardState s;
     flashingCell := flashingCell s;
     timers := timers s |}.

Definition setGameSettings (x : GameSettings) (s : State) : State :=
  {| gameState := gameState s;
     currentPlayer := currentPlayer s;
     gameSettings := x;
     message := message s;
     isSpinning1 := isSpinning1 s;
     isSpinning2 := isSpinning2 s;
     spinner1Value := spinner1Value s;
     spinner2Value := spinner2Value s;
     winner := winner s;
     spinner1Target := spinner1Target s;
     spinner2Target := spinner2Target s;
     boardLayout := boardLayout s;
     spinner1Segments := spinner1Segments s;
     divisionTableNumber := divisionTableNumber s;
     boardState := boardState s;
     flashingCell := flashingCell s;
     timers := timers s |}.

Definition setMessage (x : Message) (s : State) : State :=
  {| gameState := gameState s;
     currentPlayer := currentPlayer s;
     gameSettings := gameSettings s;
     message := x;
     isSpinning1 := isSpinning1 s;
     isSpinning2 := isSpinning2 s;
     spinner1Value := spinner1Value s;
     spinner2Value := spinner2Value s;
     winner := winner s;
     spinner1Target := spinner1Target s;
     spinner2Target := spinner2Target s;
     boardLayout := boardLayout s;
     spinner1Segments := spinner1Segments s;
     divisionTableNumber := divisionTableNumber s;
     boardState := boardState s;
     flashingCell := flashingCell s;
     timers := timers s |}.

Definition setIsSpinning1 (x : bool) (s : State) : State :=
  {| gameState := gameState s;
     currentPlayer := currentPlayer s;
     gameSettings := gameSettings s;
     message := message s;
     isSpinning1 := x;
     isSpinning2 := isSpinning2 s;
     spinner1Value := spinner1Value s;
     spinner2Value := spinner2Value s;
     winner := winner s;
     spinner1Target := spinner1Target s;
     spinner2Target := spinner2Target s;
     boardLayout := boardLayout s;
     spinner1Segments := spinner1Segments s;
     divisionTableNumber := divisionTableNumber s;
     boardState := boardState s;
     flashingCell := flashingCell s;
     timers := timers s |}.

Definition setIsSpinning2 (x : bool) (s : State) : State :=
  {| gameState := gameState s;
     currentPlayer := currentPlayer s;
     gameSettings := gameSettings s;
     message := message s;
     isSpinning1 := isSpinning1 s;
     isSpinning2 := x;
     spinner1Value := spinner1Value s;
     spinner2Value := spinner2Value s;
     winner := winner s;
     spinner1Target := spinner1Target s;
     spinner2Target := spinner2Target s;
     boardLayout := boardLayout s;
     spinner1Segments := spinner1Segments s;
     divisionTableNumber := divisionTableNumber s;
     boardState := boardState s;
     flashingCell := flashingCell s;
     timers := timers s |}.

Definition setSpinner1Value (x : option Z) (s : State) : State :=
  {| gameState := gameState s;
     currentPlayer := currentPlayer s;
     gameSettings := gameSettings s;
     message := message s;
     isSpinning1 := isSpinning1 s;
     isSpinning2 := isSpinning2 s;
     spinner1Value := x;
     spinner2Value := spinner2Value s;
     winner := winner s;
     spinner1Target := spinner1Target s;
     spinner2Target := spinner2Target s;
     boardLayout := boardLayout s;
     spinner1Segments := spinner1Segments s;
     divisionTableNumber := divisionTableNumber s;
     boardState := boardState s;
     flashingCell := flashingCell s;
     timers := timers s |}.

Definition setSpinner2Value (x : option Z) (s : State) : State :=
  {| gameState := gameState s;
     currentPlayer := currentPlayer s;
     gameSettings := gameSettings s;
     message := message s;
     isSpinning1 := isSpinning1 s;
     isSpinning2 := isSpinning2 s;
     spinner1Value := spinner1Value s;
     spinner2Value := x;
     winner := winner s;
     spinner1Target := spinner1Target s;
     spinner2Target := spinner2Target s;
     boardLayout := boardLayout s;
     spinner1Segments := spinner1Segments s;
     divisionTableNumber := divisionTableNumber s;
     boardState := boardState s;
     flashingCell := flashingCell s;
     timers := timers s |}.

Definition setWinner (x : option Player) (s : State) : State :=
  {| gameState := gameState s;
     currentPlayer := currentPlayer s;
     gameSettings := gameSettings s;
     message := message s;
     isSpinning1 := isSpinning1 s;
     isSpinning2 := isSpinning2 s;
     spinner1Value := spinner1Value s;
     spinner2Value := spinner2Value s;
     winner := x;
     spinner1Target := spinner1Target s;
     spinner2Target := spinner2Target s;
     boardLayout := boardLayout s;
     spinner1Segments := spinner1Segments s;
     divisionTableNumber := divisionTableNumber s;
     boardState := boardState s;
     flashingCell := flashingCell s;
     timers := timers s |}.

Definition setSpinner1Target (x : option Z) (s : State) : State :=
  {| gameState := gameState s;
     currentPlayer := currentPlayer s;
     gameSettings := gameSettings s;
     message := message s;
     isSpinning1 := isSpinning1 s;
     isSpinning2 := isSpinning2 s;
     spinner1Value := spinner1Value s;
     spinner2Value := spinner2Value s;
     winner := winner s;
     spinner1Target := x;
     spinner2Target := spinner2Target s;
     boardLayout := boardLayout s;
     spinner1Segments := spinner1Segments s;
     divisionTableNumber := divisionTableNumber s;
     boardState := boardState s;
     flashingCell := flashingCell s;
     timers := timers s |}.

Definition setSpinner2Target (x : option Z) (s : State) : State :=
  {| gameState := gameState s;
     currentPlayer := currentPlayer s;
     gameSettings := gameSettings s;
     message := message s;
     isSpinning1 := isSpinning1 s;
     isSpinning2 := isSpinning2 s;
     spinner1Value := spinner1Value s;
     spinner2Value := spinner2Value s;
     winner := winner s;
     spinner1Target := spinner1Target s;
     spinner2Target := x;
     boardLayout := boardLayout s;
     spinner1Segments := spinner1Segments s;
     divisionTableNumber := divisionTableNumber s;
     boardState := boardState s;
     flashingCell := flashingCell s;
     timers := timers s |}.

Definition setBoardLayout (x : list (list Z)) (s : State) : State :=
  {| gameState := gameState s;
     currentPlayer := currentPlayer s;
     gameSettings := gameSettings s;
     message := message s;
     isSpinning1 := isSpinning1 s;
     isSpinning2 := isSpinning2 s;
     spinner1Value := spinner1Value s;
     spinner2Value := spinner2Value s;
     winner := winner s;
     spinner1Target := spinner1Target s;
     spinner2Target := spinner2Target s;
     boardLayout := x;
     spinner1Segments := spinner1Segments s;
     divisionTableNumber := divisionTableNumber s;
     boardState := boardState s;
     flashingCell := flashingCell s;
     timers := timers s |}.

Definition setSpinner1Segments (x : list Segment) (s : State) : State :=
  {| gameState := gameState s;
     currentPlayer := currentPlayer s;
     gameSettings := gameSettings s;
     message := message s;
     isSpinning1 := isSpinning1 s;
     isSpinning2 := isSpinning2 s;
     spinner1Value := spinner1Value s;
     spinner2Value := spinner2Value s;
     winner := winner s;
     spinner1Target := spinner1Target s;
     spinner2Target := spinner2Target s;
     boardLayout := boardLayout s;
     spinner1Segments := x;
     divisionTableNumber := divisionTableNumber s;
     boardState := boardState s;
     flashingCell := flashingCell s;
     timers := timers s |}.

Definition setDivisionTableNumber (x : option Z) (s : State) : State :=
  {| gameState := gameState s;
     currentPlayer := currentPlayer s;
     gameSettings := gameSettings s;
     message := message s;
     isSpinning1 := isSpinning1 s;
     isSpinning2 := isSpinning2 s;
     spinner1Value := spinner1Value s;
     spinner2Value := spinner2Value s;
     winner := winner s;
     spinner1Target := spinner1Target s;
     spinner2Target := spinner2Target s;
     boardLayout := boardLayout s;
     spinner1Segments := spinner1Segments s;
     divisionTableNumber := x;
     boardState := boardState s;
     flashingCell := flashingCell s;
     timers := timers s |}.

Definition setBoardState (x : Board) (s : State) : State :=
  {| gameState := gameState s;
     currentPlayer := currentPlayer s;
     gameSettings := gameSettings s;
     message := message s;
     isSpinning1 := isSpinning1 s;
     isSpinning2 := isSpinning2 s;
     spinner1Value := spinner1Value s;
     spinner2Value := spinner2Value s;
     winner := winner s;
     spinner1Target := spinner1Target s;
     spinner2Target := spinner2Target s;
     boardLayout := boardLayout s;
     spinner1Segments := spinner1Segments s;
     divisionTableNumber := divisionTableNumber s;
     boardState := x;
     flashingCell := flashingCell s;
     timers := timers s |}.

Definition setFlashingCell (x : option (nat * nat)) (s : State) : State :=
  {| gameState := gameState s;
     currentPlayer := currentPlayer s;
     gameSettings := gameSettings s;
     message := message s;
     isSpinning1 := isSpinning1 s;
     isSpinning2 := isSpinning2 s;
     spinner1Value := spinner1Value s;
     spinner2Value := spinner2Value s;
     winner := winner s;
     spinner1Target := spinner1Target s;
     spinner2Target := spinner2Target s;
     boardLayout := boardLayout s;
     spinner1Segments := spinner1Segments s;
     divisionTableNumber := divisionTableNumber s;
     boardState := boardState s;
     flashingCell := x;
     timers := timers s |}.

Definition setTimers (x : list Timer) (s : State) : State :=
  {| gameState := gameState s;
     currentPlayer := currentPlayer s;
     gameSettings := gameSettings s;
     message := message s;
     isSpinning1 := isSpinning1 s;
     isSpinning2 := isSpinning2 s;
     spinner1Value := spinner1Value s;
     spinner2Value := spinner2Value s;
     winner := winner s;
     spinner1Target := spinner1Target s;
     spinner2Target := spinner2Target s;
     boardLayout := boardLayout s;
     spinner1Segments := spinner1Segments s;
     divisionTableNumber := divisionTableNumber s;
     boardState := boardState s;
     flashingCell := flashingCell s;
     timers := x |}.

(** [setTimeout(callback, delay)]: the callback joins the pending ones. *)
Definition setTimeout (t : Timer) (s : State) : State :=
  setTimers (timers s ++ [t]) s.

(** Writes are queued one after the other: [s |> f |> g]. *)
Notation "s |> f" := (f s) (at level 45, left associativity, only parsing).

(** [Array(6).fill(null).map(() => Array(7).fill(null))] *)
Definition initialBoardState : Board := replicate 6 (replicate 7 None).

(** The [useState] initial values of [App]. *)
Definition initialState : State :=
  {| gameState := SETUP;
     currentPlayer := player1;
     gameSettings := DEFAULT_GAME_SETTINGS;
     message := MsgConfigure;
     isSpinning1 := false;
     isSpinning2 := false;
     spinner1Value := None;
     spinner2Value := None;
     winner := None;
     spinner1Target := None;
     spinner2Target := None;
     boardLayout := PREDEFINED_BOARDS OpTimes;
     spinner1Segments := DEFAULT_SPINNER_SEGMENTS;
     divisionTableNumber := None;
     boardState := initialBoardState;
     flashingCell := None;
     timers := [] |}.

(** ** Phases and players *)

Definition otherPlayer (p : Player) : Player :=
  match p with player1 => player2 | player2 => player1 end.

(** [`PLAYER_${p === "player1" ? 1 : 2}_SPIN_1`] and its two siblings. *)
Definition SPIN_1 (p : Player) : GameState :=
  match p with player1 => PLAYER_1_SPIN_1 | player2 => PLAYER_2_SPIN_1 end.

Definition SPIN_2 (p : Player) : GameState :=
  match p with player1 => PLAYER_1_SPIN_2 | player2 => PLAYER_2_SPIN_2 end.

Definition ANSWER (p : Player) : GameState :=
  match p with player1 => PLAYER_1_ANSWER | player2 => PLAYER_2_ANSWER end.

(** [gameState.endsWith("ANSWER")], [gameState.endsWith("SPIN_1")],
    [gameState.endsWith("SPIN_2")] *)
Definition endsWithANSWER (g : GameState) : bool :=
  match g with PLAYER_1_ANSWER | PLAYER_2_ANSWER => true | _ => false end.

Definition endsWithSPIN_1 (g : GameState) : bool :=
  match g with PLAYER_1_SPIN_1 | PLAYER_2_SPIN_1 => true | _ => false end.

Definition endsWithSPIN_2 (g : GameState) : bool :=
  match g with PLAYER_1_SPIN_2 | PLAYER_2_SPIN_2 => true | _ => false end.

(** [gameState.startsWith(`PLAYER_${p === "player1" ? 1 : 2}`)] *)
Definition startsWithPLAYER (p : Player) (g : GameState) : bool :=
  match p, g with
  | player1, (PLAYER_1_SPIN_1 | PLAYER_1_SPIN_2 | PLAYER_1_ANSWER) => true
  | player2, (PLAYER_2_SPIN_1 | PLAYER_2_SPIN_2 | PLAYER_2_ANSWER) => true
  | _, _ => false
  end.

(** ** Reading and writing the board *)

(** [line[i]] compared with a player: a missing entry ([undefined]) and
    [null] both differ from every player, so both read as [None]. *)
Definition readCell (line : list (option Player)) (i : nat) : option Player :=
  line !! i ≫= id.

(** [currentBoard[r][c]], where the row [r] exists. *)
Definition cellAt (b : Board) (r c : nat) : option Player :=
  b !! r ≫= (λ line, readCell line c).

Definition owns (player : Player) (x : option Player) : bool :=
  bool_decide (x = Some player).

(** [boardState.map((r) => [...r])] followed by
    [newBoardState[row][col] = currentPlayer].  [None] when the call leaves
    the board: JavaScript throws on a missing row, and would grow the row on
    a missing column; [Board3D] raises clicks for cells of the layout only. *)
Definition setCell (row col : nat) (p : Player) (b : Board) : option Board :=
  line ← b !! row;
  if decide (col < length line)%nat
  then Some (<[row := <[col := Some p]> line]> b)
  else None.

(** [board.flat().filter((cell) => cell === player).length] *)
Definition countCells (player : Player) (b : Board) : nat :=
  length (filter (λ cell, cell = Some player) (concat b)).

(** [!board.flat().includes(null)] *)
Definition boardIsFull (b : Board) : bool :=
  negb (existsb (λ cell, bool_decide (cell = None)) (concat b)).

(** ** Win evaluation *)

(** [checkLine]: three consecutive entries of [line] owned by [player]. *)
Definition checkLine (player : Player) (line : list (option Player)) : bool :=
  existsb
    (λ i, owns player (readCell line i)
          && owns player (readCell line (i + 1))
          && owns player (readCell line (i + 2)))
    (seq 0 (length line - 2)).

(** The four scans of the [connect_3] case; each returns through
    [declareWinner] at its first hit, so the case wins when one scan hits. *)
Definition scanRows (player : Player) (b : Board) : bool :=
  existsb (checkLine player) b.

Definition scanColumns (player : Player) (b : Board) (numCols : nat) : bool :=
  existsb (λ c, checkLine player ((λ line, readCell line c) <$> b)) (seq 0 numCols).

Definition scanDownRight (player : Player) (b : Board) (numRows numCols : nat) : bool :=
  existsb
    (λ r, existsb
            (λ c, owns player (cellAt b r c)
                  && owns player (cellAt b (r + 1) (c + 1))
                  && owns player (cellAt b (r + 2) (c + 2)))
            (seq 0 (numCols - 2)))
    (seq 0 (numRows - 2)).

Definition scanUpRight (player : Player) (b : Board) (numRows numCols : nat) : bool :=
  existsb
    (λ r, existsb
            (λ c, owns player (cellAt b r c)
                  && owns player (cellAt b (r - 1) (c + 1))
                  && owns player (cellAt b (r - 2) (c + 2)))
            (seq 0 (numCols - 2)))
    (seq 2 (numRows - 2)).

Definition connect3 (player : Player) (b : Board) (numRows numCols : nat) : bool :=
  scanRows player b
  || scanColumns player b numCols
  || scanDownRight player b numRows numCols
  || scanUpRight player b numRows numCols.

(** [declareWinner] of [checkWinCondition] (its result [true] is returned
    by the caller below). *)
Definition declareWinner (player : Player) (acc : State) : State :=
  acc |> setWinner (Some player) |> setGameState GAME_OVER |> setMessage MsgGameOver.

(** The winner recorded by the [most_on_full] case. *)
Definition majority (b : Board) : option Player :=
  let p1Count := countCells player1 b in
  let p2Count := countCells player2 b in
  if decide (p2Count < p1Count)%nat then Some player1
  else if decide (p1Count < p2Count)%nat then Some player2
  else None.

(** [checkWinCondition(currentBoard, player)]: the returned boolean and the
    state after the queued writes.  [settings] is the [gameSettings] of the
    calling render.  [None]: [currentBoard[0].length] throws on a board
    without rows. *)
Definition checkWinCondition (settings : GameSettings) (currentBoard : Board)
    (player : Player) (acc : State) : option (bool * State) :=
  match currentBoard with
  | [] => None
  | row0 :: _ =>
      let numRows := length currentBoard in
      let numCols := length row0 in
      match winCondition settings with
      | first_to_5 =>
          if decide (5 ≤ countCells player currentBoard)%nat
          then Some (true, declareWinner player acc)
          else Some (false, acc)
      | connect_3 =>
          if connect3 player currentBoard numRows numCols
          then Some (true, declareWinner player acc)
          else Some (false, acc)
      | most_on_full =>
          if boardIsFull currentBoard
          then Some (true, acc |> setWinner (majority currentBoard)
                               |> setGameState GAME_OVER)
          else Some (false, acc)
      end
  end.

(** ** The operand generator *)

(** [prepareTurn(settings)]; [d] is the draw of the table number, read in
    the division case only.  [DEFAULT_SPINNER_SEGMENTS[i % 10]] exists for
    every [i], the default colour below is never taken. *)
Definition prepareTurn (settings : GameSettings) (d : Draw) (acc : State) : State :=
  if decide (operation settings = OpDivide) then
    let tableNumber := rand10 d + 1 in
    let newSegments :=
      (λ i : nat,
         {| v := tableNumber * (Z.of_nat i + 1);
            c := default EmptyString (c <$> DEFAULT_SPINNER_SEGMENTS !! (i `mod` 10)%nat) |})
      <$> seq 0 10 in
    acc |> setDivisionTableNumber (Some tableNumber)
        |> setSpinner1Segments newSegments
  else
    acc |> setSpinner1Segments DEFAULT_SPINNER_SEGMENTS
        |> setDivisionTableNumber None.

(** Truthiness of a [number | null]: [null] and [0] are falsy. *)
Definition truthy (x : option Z) : bool :=
  match x with
  | Some n => negb (n =? 0)
  | None => false
  end.

(** [handleSpin1Start]: the updater given to [setIsSpinning1].  [d1], [d2]
    are the draws; the division case reads [d1] only.  [None]: the read
    [spinner1Segments[randomMultiplierIndex].v] throws on a missing entry. *)
Definition handleSpin1Start (d1 d2 : Draw) (s : State) : option State :=
  if isSpinning1 s then Some s
  else
    acc ←
      (if bool_decide (operation (gameSettings s) = OpDivide)
          && truthy (divisionTableNumber s)
       then
         let randomMultiplierIndex := fin_to_nat d1 in
         seg ← spinner1Segments s !! randomMultiplierIndex;
         let dividend := v seg in
         Some (s |> setSpinner1Target (Some dividend)
                 |> setSpinner2Target (divisionTableNumber s))
       else
         let num1 := rand10 d1 + 1 in
         let num2 := rand10 d2 + 1 in
         if decide (operation (gameSettings s) = OpMinus)
         then Some (s |> setSpinner1Target (Some (Z.max num1 num2))
                      |> setSpinner2Target (Some (Z.min num1 num2)))
         else Some (s |> setSpinner1Target (Some num1)
                      |> setSpinner2Target (Some num2)));
    Some (acc |> setMessage MsgSpinning |> setIsSpinning1 true).

Definition handleSpin1End (value : Z) (s : State) : State :=
  s |> setIsSpinning1 false
    |> setSpinner1Value (Some value)
    |> setGameState (SPIN_2 (currentPlayer s))
    |> setMessage MsgSpinRight.

Definition handleSpin2Start (s : State) : State :=
  if isSpinning2 s then s
  else s |> setMessage MsgSpinning |> setIsSpinning2 true.

Definition handleSpin2End (value : Z) (s : State) : State :=
  s |> setIsSpinning2 false
    |> setSpinner2Value (Some value)
    |> setGameState (ANSWER (currentPlayer s))
    |> setMessage (MsgQuestion (spinner1Value s) (operation (gameSettings s)) value).

(** ** Game flow *)

Definition handleGameStart (settings : GameSettings) (d : Draw) (s : State) : State :=
  s |> setBoardLayout (PREDEFINED_BOARDS (operation settings))
    |> setGameSettings settings
    |> prepareTurn settings d
    |> setGameState COIN_FLIP
    |> setMessage MsgTossing.

Definition handleRestart (s : State) : State :=
  s |> setGameState SETUP
    |> setCurrentPlayer player1
    |> setGameSettings DEFAULT_GAME_SETTINGS
    |> setMessage MsgConfigure
    |> setSpinner1Value None
    |> setSpinner2Value None
    |> setSpinner1Target None
    |> setSpinner2Target None
    |> setBoardState initialBoardState
    |> setSpinner1Segments DEFAULT_SPINNER_SEGMENTS
    |> setDivisionTableNumber None
    |> setIsSpinning1 false
    |> setIsSpinning2 false
    |> setWinner None.

(** The faces of the coin: ["cara" | "coroa"]. *)
Inductive CoinFace := cara | coroa.

Definition handleCoinFlipComplete (result : CoinFace) (d : Draw) (s : State) : State :=
  let startingPlayer := match result with cara => player1 | coroa => player2 end in
  s |> setCurrentPlayer startingPlayer
    |> prepareTurn (gameSettings s) d
    |> setMessage (MsgCoinResult startingPlayer)
    |> setTimeout (TFirstTurn startingPlayer).

(** [changeTurn], as closed over [cur] = [currentPlayer] and [settings] =
    [gameSettings] of the render that scheduled it. *)
Definition changeTurn (cur : Player) (settings : GameSettings) (d : Draw)
    (acc : State) : State :=
  let nextPlayer := otherPlayer cur in
  acc |> setCurrentPlayer nextPlayer
      |> setGameState (SPIN_1 nextPlayer)
      |> prepareTurn settings d
      |> setSpinner1Value None
      |> setSpinner2Value None
      |> setSpinner1Target None
      |> setSpinner2Target None
      |> setMessage (MsgTurn nextPlayer).

(** [handleCellClick(cellValue, row, col)].  [None] when a board access
    throws (see [setCell] and [checkWinCondition]). *)
Definition handleCellClick (cellValue : Z) (row col : nat) (s : State) : option State :=
  if negb (endsWithANSWER (gameState s)) || bool_decide (gameState s = GAME_OVER)
  then Some s
  else
    match spinner1Value s, spinner2Value s with
    | Some val1, Some val2 =>
        let op := operation (gameSettings s) in
        let correctResult := getCorrectAnswer op val1 val2 in
        '(isGameOver, acc) ←
          (if decide (correctResult = Some cellValue) then
             newBoardState ← setCell row col (currentPlayer s) (boardState s);
             checkWinCondition (gameSettings s) newBoardState (currentPlayer s)
               (s |> setBoardState newBoardState
                  |> setMessage (MsgCorrect val1 val2 op cellValue))
           else
             let incorrectMessage :=
               match correctResult with
               | Some r => MsgIncorrect r
               | None => MsgNoInteger val1 val2 op
               end in
             Some (false, s |> setFlashingCell (Some (row, col))
                            |> setMessage incorrectMessage
                            |> setTimeout TFlashOff));
        if isGameOver : bool then Some acc
        else
          let boardIsNowFull := boardIsFull (boardState s) in
          if bool_decide (winCondition (gameSettings s) = most_on_full) && boardIsNowFull
          then snd <$> checkWinCondition (gameSettings s) (boardState s) (currentPlayer s) acc
          else Some (acc |> setTimeout (TChangeTurn (currentPlayer s) (gameSettings s)))
    | _, _ => Some s
    end.

(** A pending callback runs.  [d] is the draw [changeTurn] passes on to
    [prepareTurn]. *)
Definition runTimer (t : Timer) (d : Draw) (acc : State) : State :=
  match t with
  | TFirstTurn startingPlayer =>
      acc |> setGameState (SPIN_1 startingPlayer)
          |> setMessage (MsgTurn startingPlayer)
  | TFlashOff => acc |> setFlashingCell None
  | TChangeTurn cur settings => changeTurn cur settings d acc
  end.

(** ** Events of the scene *)

(** [import.meta.env.MODE] *)
Inductive Mode := development | production.

#[global] Instance Mode_eq_dec : EqDecision Mode.
Proof. solve_decision. Defined.

(** What the presentation raises: the start button of the setup dialog, the
    end of the coin animation, a click on either wheel, the end of either
    wheel's animation, a click on the cell at a row and column of the layout,
    the expiry of the [i]-th pending timer, the restart button and the
    development-only "Debug Win" button. *)
Inductive Event :=
| EGameStart (settings : GameSettings) (d : Draw)
| ECoinFlipComplete (result : CoinFace) (d : Draw)
| ESpin1Click (d1 d2 : Draw)
| ESpin1Settled
| ESpin2Click
| ESpin2Settled
| ECellClick (row col : nat)
| ETimer (i : nat) (d : Draw)
| ERestart
| EDebugWin.

(** [Scene]: [canSpin1] and [canSpin2] gate the wheels' [onSpinStart]. *)
Definition isPlayerTurn (s : State) : bool :=
  startsWithPLAYER (currentPlayer s) (gameState s).

Definition canSpin1 (s : State) : bool :=
  isPlayerTurn s && endsWithSPIN_1 (gameState s).

Definition canSpin2 (s : State) : bool :=
  isPlayerTurn s && endsWithSPIN_2 (gameState s).

(** [Spinner3D]: a spinning wheel whose target is one of its segments ends
    its animation with [onSpinEnd(targetValue)]; without target, or with a
    target that [findIndex] does not find, no animation starts.  The end of
    the animation is taken on the state it occurs in: target and handler are
    those of the render that started the animation, which are the current
    ones unless a timer has fired while the wheel was spinning. *)
Definition spinnerSettles (isSpinning : bool) (targetValue : option Z)
    (segments : list Segment) : option Z :=
  if isSpinning then
    tv ← targetValue;
    if memZ tv (v <$> segments) then Some tv else None
  else None.

(** One event.  An event that the scene does not offer in [s] leaves [s] as
    it is.  [None]: the handler throws. *)
Definition step (mode : Mode) (s : State) (e : Event) : option State :=
  match e with
  | EGameStart settings d =>
      if bool_decide (gameState s = SETUP)
         && negb (String.eqb (value (settings1 settings)) (value (settings2 settings)))
      then Some (handleGameStart settings d s)
      else Some s
  | ECoinFlipComplete result d =>
      if bool_decide (gameState s = COIN_FLIP)
      then Some (handleCoinFlipComplete result d s)
      else Some s
  | ESpin1Click d1 d2 =>
      if bool_decide (gameState s ≠ GAME_OVER) && canSpin1 s
      then handleSpin1Start d1 d2 s
      else Some s
  | ESpin1Settled =>
      match spinnerSettles (isSpinning1 s) (spinner1Target s) (spinner1Segments s) with
      | Some tv => Some (handleSpin1End tv s)
      | None => Some s
      end
  | ESpin2Click =>
      if bool_decide (gameState s ≠ GAME_OVER) && canSpin2 s
      then Some (handleSpin2Start s)
      else Some s
  | ESpin2Settled =>
      match spinnerSettles (isSpinning2 s) (spinner2Target s) DEFAULT_SPINNER_SEGMENTS with
      | Some tv => Some (handleSpin2End tv s)
      | None => Some s
      end
  | ECellClick row col =>
      match boardLayout s !! row ≫= (λ line, line !! col) with
      | Some cellValue => handleCellClick cellValue row col s
      | None => Some s
      end
  | ETimer i d =>
      match timers s !! i with
      | Some t => Some (runTimer t d (setTimers (delete i (timers s)) s))
      | None => Some s
      end
  | ERestart =>
      if bool_decide (gameState s = GAME_OVER) && bool_decide (winner s ≠ None)
      then Some (handleRestart s)
      else Some s
  | EDebugWin =>
      if bool_decide (mode = development)
         && bool_decide (gameState s ≠ SETUP)
         && bool_decide (gameState s ≠ GAME_OVER)
      then Some (s |> setWinner (Some player1) |> setGameState GAME_OVER)
      else Some s
  end.

(** A sequence of events, from the left. *)
Fixpoint run (mode : Mode) (s : State) (es : list Event) : option State :=
  match es with
  | [] => Some s
  | e :: es' => step mode s e ≫= (λ s', run mode s' es')
  end.

(** The four events of a turn's wheels, one after the other: click and
    settle, left then right. *)
Definition spinEvents (d1 d2 : Draw) : list Event :=
  [ESpin1Click d1 d2; ESpin1Settled; ESpin2Click; ESpin2Settled].

(** The states a game can be in. *)
Definition reachable (mode : Mode) (s : State) : Prop :=
  ∃ es, run mode initialState es = Some s.

(** ** What the generator produces

    A round is generated by [prepareTurn] at the start of the turn followed
    by [handleSpin1Start] on the click on the left wheel: [generated op a b]
    when that leaves [a] and [b] as the targets of the two wheels. *)
Definition generated (op : Operation) (a b : Z) : Prop :=
  ∃ (s : State) (d0 d1 d2 : Draw) (s' : State),
    operation (gameSettings s) = op
    ∧ isSpinning1 s = false
    ∧ handleSpin1Start d1 d2 (prepareTurn (gameSettings s) d0 s) = Some s'
    ∧ spinner1Target s' = Some a
    ∧ spinner2Target s' = Some b.

(** The segments [prepareTurn] gives the left wheel for the table [t]. *)
Definition tableSegments (t : Z) : list Segment :=
  (λ i : nat,
     {| v := t * (Z.of_nat i + 1);
        c := default EmptyString (c <$> DEFAULT_SPINNER_SEGMENTS !! (i `mod` 10)%nat) |})
  <$> seq 0 10.

(** ** The start of a turn

    A turn starts when the timer of [handleCoinFlipComplete] fires (first
    turn of the game) or when [changeTurn] runs.  Both take the table number
    from [prepareTurn]: the coin flip with the [gameSettings] of its render,
    [changeTurn] with those of the render that scheduled it. *)
Definition startingPlayer (result : CoinFace) : Player :=
  match result with cara => player1 | coroa => player2 end.

(** What [prepareTurn] maintains, and [handleRestart] too: the left wheel
    carries the multiples of the table number when there is one, and the
    default labels otherwise. *)
Definition wheelOfTable (s : State) : Prop :=
  match divisionTableNumber s with
  | Some t => 1 ≤ t ≤ 10 ∧ spinner1Segments s = tableSegments t
  | None => spinner1Segments s = DEFAULT_SPINNER_SEGMENTS
  end.

(** ** Example games

    Sequences of events used to exhibit states of the game.  All are games
    of multiplications; the coin shows [cara], so [player1] starts. *)

(** The [n]-th draw, for [n] in 0..9. *)
Definition drawOf (n : nat) : Draw := default 0%fin (fin_enum 10 !! n).

(** Both wheels are spun and settle; the left wheel's click draws
    [a - 1] and [b - 1], which a game of multiplications turns into the
    operands [a] and [b]. *)
Definition spinBoth (a b : nat) : list Event :=
  [ESpin1Click (drawOf (a - 1)) (drawOf (b - 1)); ESpin1Settled; ESpin2Click; ESpin2Settled].

(** Two numbers of 1..10 whose product is [x]. *)
Definition factorsOf (x : Z) : nat * nat :=
  default (1, 1)%nat
    (head (filter (λ ab : nat * nat, Z.of_nat ab.1 * Z.of_nat ab.2 = x)
             (a ← seq 1 10; b ← seq 1 10; [(a, b)]))).

(** A turn that claims the cell at [row], [col] of the [×] layout: the
    wheels show two factors of its value, the cell is selected, and the
    scheduled [changeTurn] (the only pending timer) fires. *)
Definition claimTurn (row col : nat) : list Event :=
  let x := default 0 (PREDEFINED_BOARDS OpTimes !! row ≫= (λ line, line !! col)) in
  spinBoth (factorsOf x).1 (factorsOf x).2 ++ [ECellClick row col; ETimer 0 0%fin].

(** A turn that is given away: the wheels show 1 × 1, the cell 30 at row 0,
    column 0 is selected, the highlight ends and [changeTurn] fires. *)
Definition passTurn : list Event :=
  spinBoth 1 1 ++ [ECellClick 0 0; ETimer 0 0%fin; ETimer 0 0%fin].

(** The cells listed are claimed in order, each by the player listed with
    it; [turn] is the player to move, who gives the turn away when the next
    cell is for the other player. *)
Fixpoint fillBoard (turn : Player) (cells : list (nat * nat * Player)) : list Event :=
  match cells with
  | [] => []
  | (row, col, q) :: rest =>
      (if decide (turn = q) then [] else passTurn)
      ++ claimTurn row col
      ++ fillBoard (otherPlayer q) rest
  end.

(** The settings of the example games. *)
Definition exampleSettings (w : WinCondition) : GameSettings :=
  {| settings1 := settings1 DEFAULT_GAME_SETTINGS;
     settings2 := settings2 DEFAULT_GAME_SETTINGS;
     winCondition := w;
     operation := OpTimes |}.

(** Setup, coin flip and the hand-over to [player1]. *)
Definition opening (w : WinCondition) : list Event :=
  [EGameStart (exampleSettings w) 0%fin; ECoinFlipComplete cara 0%fin; ETimer 0 0%fin].

(** The cells of the board, row by row. *)
Definition allCells : list (nat * nat) :=
  r ← seq 0 6; c ← seq 0 7; [(r, c)].

(** An owner for every cell such that no three consecutive cells in any
    line have the same owner: rows read 1 1 2 2 1 1 2 and 2 2 1 1 2 2 1 in
    turn. *)
Definition patternOwner (rc : nat * nat) : Player :=
  if decide ((rc.2 + 2 * rc.1) `mod` 4 < 2)%nat then player1 else player2.

(** A game of [connect_3] that fills the whole board in that pattern;
    nobody has three in a line. *)
Definition patternGame : list Event :=
  opening connect_3 ++ fillBoard player1 ((λ rc, (rc, patternOwner rc)) <$> allCells).

(** A game of [most_on_full] in which the players claim the first 41 cells
    in turn.  Then [player2] spins 3 × 5 for the last free cell (15, at row
    5, column 6), selects the cell 30 first and the cell 15 right after it,
    before the hand-over scheduled by the first selection has fired.  The
    second selection fills the board and ends the game; then the highlight
    ends, the pending [changeTurn] fires, and [player1] spins 1 × 1. *)
Definition doubleClickGame : list Event :=
  opening most_on_full
  ++ fillBoard player1
       ((λ i, (default (0, 0)%nat (allCells !! i),
               if Nat.even i then player1 else player2)) <$> seq 0 41)
  ++ spinBoth 3 5
  ++ [ECellClick 0 0; ECellClick 5 6; ETimer 0 0%fin; ETimer 0 0%fin]
  ++ spinBoth 1 1.

(** A game of [first_to_5]: [player1] spins 3 × 4 and claims the cell 12 at
    row 3, column 6; then [player2] spins 2 × 6. *)
Definition twelveTwiceGame : list Event :=
  opening first_to_5 ++ claimTurn 3 6 ++ spinBoth 2 6.

(** The state a game ends in ([initialState] if a handler throws on
    the way, which none of the example games does). *)
Definition afterGame (es : list Event) : State :=
  default initialState (run production initialState es).

(** A game of divisions. *)
Definition divisionSettings : GameSettings :=
  {| settings1 := settings1 DEFAULT_GAME_SETTINGS;
     settings2 := settings2 DEFAULT_GAME_SETTINGS;
     winCondition := first_to_5;
     operation := OpDivide |}.


(** A full board on which each player holds 21 cells. *)
Definition tieBoard : Board :=
  (λ r : nat, (λ c : nat, Some (if Nat.even (r + c) then player1 else player2))
              <$> seq 0 7)
  <$> seq 0 6.

(** Full boards with 22 cells for one player and 20 for the other:
    [tieBoard] with one cell of the top row given to the other player (the
    second cell to [player1], the first cell to [player2]). *)
Definition leadBoard (leader : Player) : Board :=
  match leader with
  | player1 => alter (<[1%nat := Some player1]>) 0%nat tieBoard
  | player2 => alter (<[0%nat := Some player2]>) 0%nat tieBoard
  end.

(** A board on which [player1] holds three cells down-right from the top
    left corner. *)
Definition diagonalBoard : Board :=
  [ [Some player1; None; None; None; None; None; None];
    [None; Some player1; None; None; None; None; None];
    [None; None; Some player1; None; None; None; None];
    [None; None; None; Some player2; None; None; None];
    [None; None; None; None; Some player2; None; None];
    [None; None; None; None; None; None; None] ].

(** ** Claim statements that follow the specification's words *)

(** C9 in the specification's words: a selection with a wrong value
    changes nothing but the highlighted cell, the message and the pending
    timers; in particular the board and the winner stay. *)
Definition incorrect_selection_frame : Prop :=
  ∀ (s s' : State) (row col : nat) (cellValue val1 val2 : Z),
    reachable production s →
    endsWithANSWER (gameState s) = true →
    spinner1Value s = Some val1 →
    spinner2Value s = Some val2 →
    boardLayout s !! row ≫= (λ line, line !! col) = Some cellValue →
    getCorrectAnswer (operation (gameSettings s)) val1 val2 ≠ Some cellValue →
    step production s (ECellClick row col) = Some s' →
    boardState s' = boardState s
    ∧ winner s' = winner s
    ∧ s' = s |> setFlashingCell (flashingCell s')
             |> setMessage (message s')
             |> setTimers (timers s').

(** C1 in the specification's words: whatever happens short of a restart,
    a cell that holds a player keeps holding that player. *)
Definition claimed_cells_stable : Prop :=
  ∀ (s s' : State) (e : Event) (r c : nat) (p : Player),
    reachable production s →
    e ≠ ERestart →
    step production s e = Some s' →
    cellAt (boardState s) r c = Some p →
    cellAt (boardState s') r c = Some p.

(** A board whose rows all have [numCols] cells. *)
Definition rectangular (b : Board) (numCols : nat) : Prop :=
  Forall (λ line, length line = numCols) b.

(** The boards of the game: 6 rows of 7 cells. *)
Definition wfBoard (b : Board) : Prop :=
  length b = 6%nat ∧ rectangular b 7.

(** C5 in the specification's words: three consecutive cells owned by
    [player] in a row, in a column, down-right or up-right.  [cellAt] is
    [None] off the board, so the three cells lie on it. *)
Definition threeInLine (player : Player) (b : Board) : Prop :=
  ∃ r c : nat,
    (cellAt b r c = Some player
     ∧ cellAt b r (c + 1) = Some player
     ∧ cellAt b r (c + 2) = Some player)
    ∨ (cellAt b r c = Some player
       ∧ cellAt b (r + 1) c = Some player
       ∧ cellAt b (r + 2) c = Some player)
    ∨ (cellAt b r c = Some player
       ∧ cellAt b (r + 1) (c + 1) = Some player
       ∧ cellAt b (r + 2) (c + 2) = Some player)
    ∨ (cellAt b (r + 2) c = Some player
       ∧ cellAt b (r + 1) (c + 1) = Some player
       ∧ cellAt b r (c + 2) = Some player).


(** C2 as the specification states it: a 6 by 7 matrix of 42 pairwise
    distinct positive integers, each producible by the generator. *)
Definition layout_as_specified (op : Operation) : Prop :=
  length (PREDEFINED_BOARDS op) = 6%nat
  ∧ Forall (λ line, length line = 7%nat) (PREDEFINED_BOARDS op)
  ∧ NoDup (concat (PREDEFINED_BOARDS op))
  ∧ Forall (λ x, 0 < x ∧ producible op x) (concat (PREDEFINED_BOARDS op)).


(** C6 in the specification's words: the total count of the cells claimed
    by [player], taken cell by cell, row after row. *)
Fixpoint claimedInRow (player : Player) (line : list (option Player)) : nat :=
  match line with
  | [] => 0
  | Some q :: rest =>
      if decide (q = player) then S (claimedInRow player rest)
      else claimedInRow player rest
  | None :: rest => claimedInRow player rest
  end.

Fixpoint claimedCells (player : Player) (b : Board) : nat :=
  match b with
  | [] => 0
  | line :: rest => (claimedInRow player line + claimedCells player rest)%nat
  end.

(** C4 as the specification states it: whenever a game of divisions shows
    a round, operand2 is the turn's table number, operand1 is a multiple of
    it, and the expected quotient lies in 1..10. *)
Definition division_rounds_exact : Prop :=
  ∀ (s : State) (val1 val2 : Z),
    reachable production s →
    operation (gameSettings s) = OpDivide →
    endsWithANSWER (gameState s) = true →
    spinner1Value s = Some val1 →
    spinner2Value s = Some val2 →
    divisionTableNumber s = Some val2
    ∧ js_rem val1 val2 = Some 0
    ∧ ∃ q, 1 ≤ q ≤ 10 ∧ getCorrectAnswer OpDivide val1 val2 = Some q.

(** C7 as the specification states it: every selection with a wrong value
    in the Answer phase of [p] is followed by a hand-over, that is, the
    selection schedules a timer whose expiry leaves the machine in the Spin1
    phase of the other player with operands and wheel targets cleared. *)
Definition incorrect_selection_hands_over : Prop :=
  ∀ (s s' : State) (p : Player) (row col : nat) (cellValue val1 val2 : Z),
    reachable production s →
    gameState s = ANSWER p →
    currentPlayer s = p →
    spinner1Value s = Some val1 →
    spinner2Value s = Some val2 →
    boardLayout s !! row ≫= (λ line, line !! col) = Some cellValue →
    getCorrectAnswer (operation (gameSettings s)) val1 val2 ≠ Some cellValue →
    step production s (ECellClick row col) = Some s' →
    ∃ (i : nat) (d : Draw) (s'' : State),
      (length (timers s) ≤ i < length (timers s'))%nat
      ∧ step production s' (ETimer i d) = Some s''
      ∧ gameState s'' = SPIN_1 (otherPlayer p)
      ∧ spinner1Value s'' = None ∧ spinner2Value s'' = None
      ∧ spinner1Target s'' = None ∧ spinner2Target s'' = None.

(** The win condition [w] holds for [player] on the board [b]. *)
Definition satisfiesWinCondition (w : WinCondition) (player : Player) (b : Board) : Prop :=
  match w with
  | first_to_5 => (5 ≤ countCells player b)%nat
  | connect_3 => threeInLine player b
  | most_on_full => None ∉ concat b
  end.

(** C10, second half, in the specification's words: under [first_to_5] and
    [connect_3], on a full board on which the win condition holds for
    nobody, a selection in the Answer phase does not end the game and
    schedules the hand-over. *)
Definition full_board_hands_turn : Prop :=
  ∀ (s s' : State) (row col : nat) (cellValue val1 val2 : Z),
    reachable production s →
    winCondition (gameSettings s) = first_to_5
    ∨ winCondition (gameSettings s) = connect_3 →
    endsWithANSWER (gameState s) = true →
    spinner1Value s = Some val1 →
    spinner2Value s = Some val2 →
    boardLayout s !! row ≫= (λ line, line !! col) = Some cellValue →
    boardIsFull (boardState s) = true →
    (∀ q, ¬ satisfiesWinCondition (winCondition (gameSettings s)) q (boardState s)) →
    step production s (ECellClick row col) = Some s' →
    gameState s' ≠ GAME_OVER
    ∧ ∃ pending, timers s' = pending ++ [TChangeTurn (currentPlayer s) (gameSettings s)].

(** ** Further definitions *)

(** What every state of a game satisfies: the board has 6 rows of 7 cells,
    the layout is one of the four predefined ones, the left wheel has ten
    segments. *)
Definition wfState (s : State) : Prop :=
  wfBoard (boardState s)
  ∧ (∃ op, boardLayout s = PREDEFINED_BOARDS op)
  ∧ length (spinner1Segments s) = 10%nat.

(** A board on which [player1] holds the five cells listed first and
    [player2] four. *)
Definition fiveCellsBoard : Board :=
  [ [Some player1; Some player2; Some player1; None; None; None; None];
    [None; Some player1; None; None; Some player2; None; None];
    [None; None; None; Some player1; None; None; None];
    [Some player2; None; None; None; None; None; Some player1];
    [None; None; None; None; None; None; None];
    [None; None; Some player2; None; None; None; None] ].

(** The value of the layout at a row and column. *)
Definition layoutAt (layout : list (list Z)) (row col : nat) : option Z :=
  layout !! row ≫= (λ line, line !! col).

(** [Spinner3D]: [segments.findIndex((s) => s.v === targetValue)]; [None]
    is the source's -1. *)
Definition targetSegmentIndex (segments : list Segment) (targetValue : Z) : option nat :=
  fst <$> list_find (λ seg, v seg = targetValue) segments.

(** A game of subtractions. *)
Definition subtractionSettings : GameSettings :=
  {| settings1 := settings1 DEFAULT_GAME_SETTINGS;
     settings2 := settings2 DEFAULT_GAME_SETTINGS;
     winCondition := first_to_5;
     operation := OpMinus |}.

(** A game of [most_on_full] in which the players claim all 42 cells in
    turn, 21 each. *)
Definition drawnGame : list Event :=
  opening most_on_full
  ++ fillBoard player1
       ((λ i, (default (0, 0)%nat (allCells !! i),
               if Nat.even i then player1 else player2)) <$> seq 0 42).

(** A game of [first_to_5] in which [player1] claims the first four cells
    of the top row while [player2] gives every turn away; then [player1]
    spins 4 × 7, selects the cell 32 and right after it the cell 28, the
    fifth of the top row, which ends the game while the hand-over scheduled
    by the first selection is still pending. *)
Definition hastyWinGame : list Event :=
  opening first_to_5
  ++ fillBoard player1 [(0, 0, player1); (0, 1, player1); (0, 2, player1); (0, 3, player1)]%nat
  ++ passTurn
  ++ spinBoth 4 7
  ++ [ECellClick 1 0; ECellClick 0 4].

(** [hastyWinGame] followed by the restart and the start of a game of
    divisions.  During the coin flip the hand-over left pending by the game
    of multiplications fires: it was scheduled by [player1] under the
    settings of that game, so [player2] is to spin on a wheel prepared for
    the multiplication.  The draws 6 and 1 then put 7 ÷ 2 on the wheels. *)
Definition staleHandOverGame : list Event :=
  hastyWinGame
  ++ [ERestart; EGameStart divisionSettings 0%fin; ETimer 1 0%fin]
  ++ spinEvents (drawOf 6) (drawOf 1).

(** The opening of a game of divisions: the coin shows [coroa], so
    [player2] starts, and the draw 6 makes 7 the table number. *)
Definition divisionOpening : list Event :=
  [EGameStart divisionSettings 0%fin; ECoinFlipComplete coroa (drawOf 6); ETimer 0 0%fin].

(** A turn of a game of divisions on the table of 1: the wheels show
    [m] ÷ 1, then the cells listed are selected. *)
Definition divisionTurn (m : nat) (cells : list (nat * nat)) : list Event :=
  spinEvents (drawOf (m - 1)) 0%fin ++ ((λ rc, ECellClick rc.1 rc.2) <$> cells).

(** A game of divisions under [first_to_5], every turn on the table of 1.
    [player1] claims the cells 9, 2, 8 and 6 of the top row, while [player2]
    answers 1 ÷ 1 with the cell 9 each time; then [player1] spins 10 ÷ 1,
    selects the cell 4 and right after it the cell 10, the fifth of the top
    row, which ends the game while the hand-over scheduled by the first
    selection is still pending. *)
Definition hastyDivisionGame : list Event :=
  [EGameStart divisionSettings 0%fin; ECoinFlipComplete cara 0%fin; ETimer 0 0%fin]
  ++ concat
       ((λ mc : nat * (nat * nat),
           divisionTurn mc.1 [mc.2] ++ [ETimer 0 0%fin]
           ++ divisionTurn 1 [(0, 0)%nat] ++ [ETimer 0 0%fin; ETimer 0 0%fin])
        <$> [(9, (0, 0)); (2, (0, 1)); (8, (0, 2)); (6, (0, 3))]%nat)
  ++ divisionTurn 10 [(1, 0); (0, 4)]%nat.

(** [hastyDivisionGame] followed by the restart and the start of a game of
    multiplications, during whose coin flip the hand-over left pending by
    the game of divisions fires with the draw 6: [player2] is to spin, in a
    game of multiplications, on a left wheel labelled with the table of 7. *)
Definition staleTableGame : list Event :=
  hastyDivisionGame
  ++ [ERestart; EGameStart (exampleSettings first_to_5) 0%fin; ETimer 1 (drawOf 6)].

(** What [prepareTurn] leaves on the left wheel and as table number. *)
Definition preparedSegments (settings : GameSettings) (d : Draw) : list Segment :=
  if decide (operation settings = OpDivide)
  then tableSegments (rand10 d + 1)
  else DEFAULT_SPINNER_SEGMENTS.

Definition preparedTable (settings : GameSettings) (d : Draw) : option Z :=
  if decide (operation settings = OpDivide) then Some (rand10 d + 1) else None.

(** ** The setup dialog ([components/game-setup-modal.tsx]) *)

Definition PREDEFINED_COLORS : list PlayerSettings :=
  [ {| name := "Azul"; value := "#4682B4"; light := "#00BFFF" |};
    {| name := "Rosa"; value := "#DB7093"; light := "#FF1493" |};
    {| name := "Verde"; value := "#2ecc71"; light := "#58D68D" |};
    {| name := "Laranja"; value := "#e67e22"; light := "#F5B041" |};
    {| name := "Roxo"; value := "#9b59b6"; light := "#C39BD3" |};
    {| name := "Amarelo"; value := "#f1c40f"; light := "#F7DC6F" |} ].

(** The four [useState] cells of [GameSetupModal]; the cells [winCondition]
    and [operation] are [chosenWinCondition] and [chosenOperation] here. *)
Record ModalState := {
  player1Color : string;
  player2Color : string;
  chosenWinCondition : WinCondition;
  chosenOperation : Operation
}.

(** The initial values: the colours and the operation of [defaultSettings],
    and [WIN_CONDITIONS[0].id]. *)
Definition modalInitial (defaultSettings : GameSettings) : ModalState :=
  {| player1Color := value (settings1 defaultSettings);
     player2Color := value (settings2 defaultSettings);
     chosenWinCondition := first_to_5;
     chosenOperation := operation defaultSettings |}.

(** What the dialog's controls raise: the [i]-th item of either colour
    list, an operation, a win condition. *)
Inductive ModalEvent :=
| SelectPlayer1Color (i : nat)
| SelectPlayer2Color (i : nat)
| SelectOperation (op : Operation)
| SelectWinCondition (w : WinCondition).

(** An item of a colour list is disabled when the other player has its
    colour; an enabled item sets the player's colour to its value. *)
Definition modalStep (m : ModalState) (e : ModalEvent) : ModalState :=
  match e with
  | SelectPlayer1Color i =>
      match PREDEFINED_COLORS !! i with
      | Some color =>
          if String.eqb (value color) (player2Color m) then m
          else {| player1Color := value color;
                  player2Color := player2Color m;
                  chosenWinCondition := chosenWinCondition m;
                  chosenOperation := chosenOperation m |}
      | None => m
      end
  | SelectPlayer2Color i =>
      match PREDEFINED_COLORS !! i with
      | Some color =>
          if String.eqb (value color) (player1Color m) then m
          else {| player1Color := player1Color m;
                  player2Color := value color;
                  chosenWinCondition := chosenWinCondition m;
                  chosenOperation := chosenOperation m |}
      | None => m
      end
  | SelectOperation op =>
      {| player1Color := player1Color m;
         player2Color := player2Color m;
         chosenWinCondition := chosenWinCondition m;
         chosenOperation := op |}
  | SelectWinCondition w =>
      {| player1Color := player1Color m;
         player2Color := player2Color m;
         chosenWinCondition := w;
         chosenOperation := chosenOperation m |}
  end.

(** [isButtonDisabled] *)
Definition isButtonDisabled (m : ModalState) : bool :=
  String.eqb (player1Color m) (player2Color m).

(** [handleStartClick]: the settings handed to [onGameStart].  [None]
    stands for settings with an [undefined] player entry, which
    [PREDEFINED_COLORS.find] gives for a colour that is not in the list. *)
Definition handleStartClick (m : ModalState) : option GameSettings :=
  p1ColorData ← List.find (λ c, String.eqb (value c) (player1Color m)) PREDEFINED_COLORS;
  p2ColorData ← List.find (λ c, String.eqb (value c) (player2Color m)) PREDEFINED_COLORS;
  Some {| settings1 := p1ColorData;
          settings2 := p2ColorData;
          winCondition := chosenWinCondition m;
          operation := chosenOperation m |}.

(** The dialog after a sequence of selections, from its initial state. *)
Definition modalAfter (es : list ModalEvent) : ModalState :=
  fold_left modalStep es (modalInitial DEFAULT_GAME_SETTINGS).
(** * Proofs *)

(** Closed facts are settled by evaluation. *)
Ltac by_run := vm_compute; reflexivity.
Ltac by_run_ne := vm_compute; let H := fresh in intro H; discriminate H.

(** ** Lists of numbers *)

Lemma memZ_spec x l : memZ x l = true ↔ x ∈ l.
Proof.
  unfold memZ. rewrite existsb_exists. split.
  - intros (y & Hy & Heq). apply Z.eqb_eq in Heq. subst. by apply list_elem_of_In.
  - intros H. exists x. split; [by apply list_elem_of_In | apply Z.eqb_refl].
Qed.

Lemma distinctZ_spec l : distinctZ l = true → NoDup l.
Proof.
  induction l as [|x l IH]; simpl; [constructor|].
  intros [Hx Hl]%andb_prop. constructor; [|by apply IH].
  intros Hin%memZ_spec. by rewrite Hin in Hx.
Qed.

Lemma forallb_Forall {A} (f : A → bool) (P : A → Prop) l :
  (∀ x, f x = true → P x) → forallb f l = true → Forall P l.
Proof.
  intros Hf. induction l as [|x l IH]; simpl; [constructor|].
  intros [Hx Hl]%andb_prop. constructor; auto.
Qed.

(** ** C2: the board layouts *)

Lemma layout_shape op :
  length (PREDEFINED_BOARDS op) = 6%nat
  ∧ Forall (λ line, length line = 7%nat) (PREDEFINED_BOARDS op).
Proof. destruct op; (split; [reflexivity | repeat constructor]). Qed.

Lemma layout_distinct op : NoDup (concat (PREDEFINED_BOARDS op)).
Proof. apply distinctZ_spec. by destruct op; vm_compute. Qed.

Lemma producible_memZ op x : producible op x ↔ memZ x (generatorResults op) = true.
Proof. unfold producible. by rewrite memZ_spec. Qed.

(** C2, counterexample: the boards of [+], [-] and [÷] are not as specified,
    and the [-] board fails on both counts.  The [+] board holds 1, which no
    sum of two numbers of 1..10 gives; the [-] board holds 0, which is not
    positive, and 20, which no difference gives; the [÷] board holds 81,
    which no quotient of the tables gives. *)
Lemma layout_as_specified_fails :
  ¬ layout_as_specified OpPlus
  ∧ ¬ layout_as_specified OpMinus
  ∧ ¬ layout_as_specified OpDivide
  ∧ ¬ Forall (λ x, 0 < x) (concat (PREDEFINED_BOARDS OpMinus))
  ∧ ¬ Forall (producible OpMinus) (concat (PREDEFINED_BOARDS OpMinus)).
Proof.
  assert (Hplus : 1 ∈ concat (PREDEFINED_BOARDS OpPlus))
    by by apply memZ_spec; vm_compute.
  assert (Hzero : 0 ∈ concat (PREDEFINED_BOARDS OpMinus))
    by by apply memZ_spec; vm_compute.
  assert (Hminus : 20 ∈ concat (PREDEFINED_BOARDS OpMinus))
    by by apply memZ_spec; vm_compute.
  assert (Hdiv : 81 ∈ concat (PREDEFINED_BOARDS OpDivide))
    by by apply memZ_spec; vm_compute.
  split; [|split; [|split; [|split]]].
  - intros (_ & _ & _ & Hall). rewrite Forall_forall in Hall.
    destruct (Hall 1 Hplus) as [_ Hp]. apply producible_memZ in Hp.
    by vm_compute in Hp.
  - intros (_ & _ & _ & Hall). rewrite Forall_forall in Hall.
    destruct (Hall 0 Hzero) as [Hpos _]. lia.
  - intros (_ & _ & _ & Hall). rewrite Forall_forall in Hall.
    destruct (Hall 81 Hdiv) as [_ Hp]. apply producible_memZ in Hp.
    by vm_compute in Hp.
  - intros Hall. rewrite Forall_forall in Hall. specialize (Hall 0 Hzero). lia.
  - intros Hall. rewrite Forall_forall in Hall. specialize (Hall 20 Hminus).
    apply producible_memZ in Hall. by vm_compute in Hall.
Qed.

(** C2, amended: for each of the four operations the layout is a 6 by 7
    matrix of 42 pairwise distinct non-negative integers that holds every
    result the operation's generator can produce.  Only the [×] layout
    consists of producible values alone: on the [+] layout the producible
    values are those of 2..20, on the [-] layout those of 0..9, on the [÷]
    layout those of 1..10, and each of the three holds a value outside
    (1, 20 and 81).  The [×], [+] and [÷] layouts are positive throughout,
    the [-] layout holds 0. *)
Theorem layout_covers_generator (op : Operation) :
  length (PREDEFINED_BOARDS op) = 6%nat
  ∧ Forall (λ line, length line = 7%nat) (PREDEFINED_BOARDS op)
  ∧ NoDup (concat (PREDEFINED_BOARDS op))
  ∧ Forall (λ x, 0 ≤ x) (concat (PREDEFINED_BOARDS op))
  ∧ Forall (λ x, x ∈ concat (PREDEFINED_BOARDS op)) (generatorResults op)
  ∧ Forall (λ x, 0 < x ∧ producible OpTimes x) (concat (PREDEFINED_BOARDS OpTimes))
  ∧ Forall (λ x, 0 < x) (concat (PREDEFINED_BOARDS OpPlus))
  ∧ Forall (λ x, 0 < x) (concat (PREDEFINED_BOARDS OpDivide))
  ∧ Forall (λ x, producible OpPlus x ↔ 2 ≤ x ≤ 20) (concat (PREDEFINED_BOARDS OpPlus))
  ∧ Forall (λ x, producible OpMinus x ↔ 0 ≤ x ≤ 9) (concat (PREDEFINED_BOARDS OpMinus))
  ∧ Forall (λ x, producible OpDivide x ↔ 1 ≤ x ≤ 10)
      (concat (PREDEFINED_BOARDS OpDivide))
  ∧ (1 ∈ concat (PREDEFINED_BOARDS OpPlus) ∧ ¬ producible OpPlus 1)
  ∧ (20 ∈ concat (PREDEFINED_BOARDS OpMinus) ∧ ¬ producible OpMinus 20)
  ∧ (81 ∈ concat (PREDEFINED_BOARDS OpDivide) ∧ ¬ producible OpDivide 81)
  ∧ 0 ∈ concat (PREDEFINED_BOARDS OpMinus).
Proof.
  split; [apply layout_shape|]. split; [apply layout_shape|].
  split; [apply layout_distinct|].
  split; [|split; [|split; [|split; [|]]]].
  - apply (forallb_Forall (λ x, 0 <=? x)); [intros x; lia|].
    by destruct op; vm_compute.
  - apply (forallb_Forall (λ x, memZ x (concat (PREDEFINED_BOARDS op)))).
    + intros x. apply memZ_spec.
    + by destruct op; vm_compute.
  - apply (forallb_Forall (λ x, (0 <? x) && memZ x (generatorResults OpTimes))).
    + intros x [H1 H2]%andb_prop. split; [lia | by apply producible_memZ].
    + by vm_compute.
  - apply (forallb_Forall (λ x, 0 <? x)); [intros x; lia | by vm_compute].
  - split; [apply (forallb_Forall (λ x, 0 <? x)); [intros x; lia | by vm_compute]|].
    split; [|split; [|split; [|split; [|split; [|split]]]]].
    + apply (forallb_Forall
               (λ x, Bool.eqb (memZ x (generatorResults OpPlus))
                       ((2 <=? x) && (x <=? 20)))); [|by vm_compute].
      intros x Hx%Bool.eqb_prop. rewrite producible_memZ, Hx. rewrite andb_true_iff. lia.
    + apply (forallb_Forall
               (λ x, Bool.eqb (memZ x (generatorResults OpMinus))
                       ((0 <=? x) && (x <=? 9)))); [|by vm_compute].
      intros x Hx%Bool.eqb_prop. rewrite producible_memZ, Hx. rewrite andb_true_iff. lia.
    + apply (forallb_Forall
               (λ x, Bool.eqb (memZ x (generatorResults OpDivide))
                       ((1 <=? x) && (x <=? 10)))); [|by vm_compute].
      intros x Hx%Bool.eqb_prop. rewrite producible_memZ, Hx. rewrite andb_true_iff. lia.
    + split; [by apply memZ_spec; vm_compute|].
      intros Hp%producible_memZ. by vm_compute in Hp.
    + split; [by apply memZ_spec; vm_compute|].
      intros Hp%producible_memZ. by vm_compute in Hp.
    + split; [by apply memZ_spec; vm_compute|].
      intros Hp%producible_memZ. by vm_compute in Hp.
    + by apply memZ_spec; vm_compute.
Qed.

(** ** The generator *)

Lemma rand10_range (d : Draw) : 0 ≤ rand10 d < 10.
Proof. unfold rand10. pose proof (fin_to_nat_lt d). lia. Qed.

Lemma draw_of (x : Z) : 1 ≤ x ≤ 10 → ∃ d : Draw, rand10 d + 1 = x.
Proof.
  intros Hx. assert (Hlt : (Z.to_nat (x - 1) < 10)%nat) by lia.
  exists (nat_to_fin Hlt). unfold rand10. rewrite fin_to_nat_to_fin. lia.
Qed.

Lemma oneToTen_spec x : x ∈ oneToTen ↔ 1 ≤ x ≤ 10.
Proof.
  rewrite <- memZ_spec. split.
  - unfold oneToTen, memZ. simpl. rewrite !orb_true_iff. lia.
  - intros Hx.
    assert (x = 1 ∨ x = 2 ∨ x = 3 ∨ x = 4 ∨ x = 5 ∨ x = 6 ∨ x = 7 ∨ x = 8
            ∨ x = 9 ∨ x = 10) as Hc by lia.
    repeat destruct Hc as [->|Hc]; try reflexivity. by subst.
Qed.

Lemma generatorPairs_spec op a b :
  (a, b) ∈ generatorPairs op
  ↔ ∃ x y, 1 ≤ x ≤ 10 ∧ 1 ≤ y ≤ 10 ∧ (a, b) = generatorPair op x y.
Proof.
  unfold generatorPairs. rewrite list_elem_of_bind. split.
  - intros (x & Hin & Hx). apply list_elem_of_bind in Hin as (y & Hin & Hy).
    apply list_elem_of_singleton in Hin.
    exists x, y. by rewrite <- !oneToTen_spec.
  - intros (x & y & Hx & Hy & Heq). exists x. rewrite oneToTen_spec. split; [|done].
    apply list_elem_of_bind. exists y. rewrite oneToTen_spec. split; [|done].
    by apply list_elem_of_singleton.
Qed.

Lemma prepareTurn_divide settings d acc :
  operation settings = OpDivide →
  prepareTurn settings d acc
  = acc |> setDivisionTableNumber (Some (rand10 d + 1))
        |> setSpinner1Segments (tableSegments (rand10 d + 1)).
Proof. intros Hop. unfold prepareTurn. by rewrite decide_True. Qed.

Lemma prepareTurn_other settings d acc :
  operation settings ≠ OpDivide →
  prepareTurn settings d acc
  = acc |> setSpinner1Segments DEFAULT_SPINNER_SEGMENTS
        |> setDivisionTableNumber None.
Proof. intros Hop. unfold prepareTurn. by rewrite decide_False. Qed.

Lemma tableSegments_lookup t (d : Draw) :
  v <$> (tableSegments t !! fin_to_nat d) = Some (t * (rand10 d + 1)).
Proof.
  unfold tableSegments. rewrite list_lookup_fmap.
  rewrite lookup_seq_lt by apply fin_to_nat_lt. reflexivity.
Qed.

Lemma tableSegments_values t :
  v <$> tableSegments t = (λ m, t * m) <$> oneToTen.
Proof. reflexivity. Qed.

(** The left wheel's click on a state prepared for the division with the
    table [t]: the dividend is the drawn multiple of [t], the divisor [t]. *)
Lemma handleSpin1Start_divide s d1 d2 t :
  isSpinning1 s = false →
  operation (gameSettings s) = OpDivide →
  divisionTableNumber s = Some t → t ≠ 0 →
  spinner1Segments s = tableSegments t →
  handleSpin1Start d1 d2 s
  = Some (s |> setSpinner1Target (Some (t * (rand10 d1 + 1)))
            |> setSpinner2Target (Some t)
            |> setMessage MsgSpinning
            |> setIsSpinning1 true).
Proof.
  intros Hs Hop Ht Hnz Hseg. unfold handleSpin1Start.
  rewrite Hs, Hop, Ht, Hseg. simpl.
  assert ((t =? 0) = false) as -> by lia. simpl.
  pose proof (tableSegments_lookup t d1) as Hl.
  destruct (tableSegments t !! fin_to_nat d1) as [seg|]; simpl in *; [|done].
  by injection Hl as ->.
Qed.

Lemma handleSpin1Start_other s d1 d2 :
  isSpinning1 s = false →
  operation (gameSettings s) ≠ OpDivide →
  handleSpin1Start d1 d2 s
  = Some (s |> setSpinner1Target (Some (generatorPair (operation (gameSettings s))
                                          (rand10 d1 + 1) (rand10 d2 + 1)).1)
            |> setSpinner2Target (Some (generatorPair (operation (gameSettings s))
                                          (rand10 d1 + 1) (rand10 d2 + 1)).2)
            |> setMessage MsgSpinning
            |> setIsSpinning1 true).
Proof.
  intros Hs Hop. unfold handleSpin1Start. rewrite Hs.
  rewrite bool_decide_eq_false_2 by done. simpl.
  destruct (operation (gameSettings s)); try done; by simpl.
Qed.

(** The pairs the generator leaves on the wheels are those of
    [generatorPairs]. *)
Lemma generated_pairs op a b : generated op a b ↔ (a, b) ∈ generatorPairs op.
Proof.
  rewrite generatorPairs_spec. split.
  - intros (s & d0 & d1 & d2 & s' & Hop & Hsp & Hrun & Ha & Hb).
    pose proof (rand10_range d0). pose proof (rand10_range d1).
    pose proof (rand10_range d2).
    destruct (decide (op = OpDivide)) as [->|Hne].
    + rewrite prepareTurn_divide in Hrun by done.
      erewrite handleSpin1Start_divide in Hrun; [|done|done|reflexivity|lia|reflexivity].
      injection Hrun as <-. simpl in Ha, Hb.
      exists (rand10 d1 + 1), (rand10 d0 + 1). simpl. split; [lia|]. split; [lia|].
      congruence.
    + rewrite prepareTurn_other in Hrun by congruence.
      rewrite handleSpin1Start_other in Hrun; [|done|by simpl; congruence].
      injection Hrun as <-. simpl in Ha, Hb. rewrite Hop in Ha, Hb.
      exists (rand10 d1 + 1), (rand10 d2 + 1). split; [lia|]. split; [lia|].
      destruct (generatorPair op _ _). simpl in *. congruence.
  - intros (x & y & Hx & Hy & Heq).
    destruct (draw_of x Hx) as [dx Hdx]. destruct (draw_of y Hy) as [dy Hdy].
    set (s := setGameSettings
                {| settings1 := settings1 DEFAULT_GAME_SETTINGS;
                   settings2 := settings2 DEFAULT_GAME_SETTINGS;
                   winCondition := first_to_5;
                   operation := op |} initialState).
    destruct (decide (op = OpDivide)) as [->|Hne].
    + exists s, dy, dx, dx. eexists. split; [done|]. split; [done|].
      rewrite prepareTurn_divide by done.
      erewrite handleSpin1Start_divide; [|done|done|reflexivity|lia|reflexivity].
      split; [done|]. simpl. rewrite Hdx, Hdy. simpl in Heq. by injection Heq as -> ->.
    + exists s, dx, dx, dy. eexists. split; [done|]. split; [done|].
      rewrite prepareTurn_other by done.
      rewrite handleSpin1Start_other; [|done|done].
      split; [done|]. simpl. rewrite Hdx, Hdy, <- Heq. done.
Qed.

Lemma generatorPair_answer op x y :
  1 ≤ x ≤ 10 → 1 ≤ y ≤ 10 →
  ∃ r, getCorrectAnswer op (generatorPair op x y).1 (generatorPair op x y).2 = Some r
       ∧ 0 ≤ r.
Proof.
  intros Hx Hy. destruct op; simpl.
  - eexists; split; [done|nia].
  - eexists; split; [done|lia].
  - eexists; split; [done|lia].
  - exists x. unfold js_rem. rewrite decide_False by lia.
    rewrite (Z.mul_comm y x), Z.rem_mul by lia. rewrite Z.quot_mul by lia.
    split; [done|lia].
Qed.

(** ** Answers *)

Lemma endsWithANSWER_not_over g : endsWithANSWER g = true → g ≠ GAME_OVER.
Proof. by destruct g. Qed.

(** A selection whose value is not the expected result: the board is not
    touched; the cell is highlighted, the message set and the highlight's end
    scheduled; then either the game ends on the full board of
    [most_on_full], or [changeTurn] is scheduled. *)
Lemma handleCellClick_incorrect s cellValue row col val1 val2 :
  endsWithANSWER (gameState s) = true →
  spinner1Value s = Some val1 →
  spinner2Value s = Some val2 →
  getCorrectAnswer (operation (gameSettings s)) val1 val2 ≠ Some cellValue →
  handleCellClick cellValue row col s
  = let acc :=
      s |> setFlashingCell (Some (row, col))
        |> setMessage
             match getCorrectAnswer (operation (gameSettings s)) val1 val2 with
             | Some r => MsgIncorrect r
             | None => MsgNoInteger val1 val2 (operation (gameSettings s))
             end
        |> setTimeout TFlashOff in
    if bool_decide (winCondition (gameSettings s) = most_on_full)
       && boardIsFull (boardState s)
    then snd <$> checkWinCondition (gameSettings s) (boardState s) (currentPlayer s) acc
    else Some (acc |> setTimeout (TChangeTurn (currentPlayer s) (gameSettings s))).
Proof.
  intros Hans H1 H2 Hne. unfold handleCellClick.
  rewrite Hans, H1, H2. simpl.
  rewrite bool_decide_eq_false_2 by by apply endsWithANSWER_not_over.
  by rewrite decide_False.
Qed.



(** ** C6: [most_on_full] *)

Lemma boardIsFull_spec (b : Board) : boardIsFull b = true ↔ None ∉ concat b.
Proof.
  unfold boardIsFull. rewrite negb_true_iff. split.
  - intros Hex Hin. apply not_true_iff_false in Hex. apply Hex.
    apply existsb_exists. exists None. split; [by apply list_elem_of_In|].
    by apply bool_decide_eq_true.
  - intros Hnin. apply not_true_iff_false. intros (x & Hin & Hx)%existsb_exists.
    apply bool_decide_eq_true in Hx. subst. by apply Hnin, list_elem_of_In.
Qed.

(** The code's count, [board.flat().filter(...).length], is the number of
    cells claimed by the player. *)
Lemma claimedInRow_filter player (line : list (option Player)) :
  length (filter (λ cell, cell = Some player) line) = claimedInRow player line.
Proof.
  induction line as [|[q|] line IH]; simpl; [done| |].
  - destruct (decide (q = player)) as [->|Hne].
    + rewrite filter_cons_True by done. simpl. by rewrite IH.
    + rewrite filter_cons_False by congruence. done.
  - by rewrite filter_cons_False.
Qed.

Lemma countCells_claimedCells player (b : Board) :
  countCells player b = claimedCells player b.
Proof.
  unfold countCells. induction b as [|line b IH]; simpl; [done|].
  by rewrite filter_app, length_app, claimedInRow_filter, IH.
Qed.

(** C6: under [most_on_full] the evaluation fires exactly on a board with no
    unclaimed cell.  There it returns [true] and ends the game with the
    player who has claimed strictly more cells as winner, and with
    [winner = null] when both have claimed the same number; on a board with
    an unclaimed cell it returns [false] and writes nothing. *)
Theorem most_on_full_evaluation (settings : GameSettings) (b : Board)
    (player : Player) (acc : State) :
  winCondition settings = most_on_full →
  b ≠ [] →
  (None ∉ concat b →
     ∃ w, checkWinCondition settings b player acc
          = Some (true, acc |> setWinner w |> setGameState GAME_OVER)
        ∧ ((claimedCells player2 b < claimedCells player1 b)%nat → w = Some player1)
        ∧ ((claimedCells player1 b < claimedCells player2 b)%nat → w = Some player2)
        ∧ (claimedCells player1 b = claimedCells player2 b → w = None))
  ∧ (None ∈ concat b → checkWinCondition settings b player acc = Some (false, acc)).
Proof.
  intros Hw Hb. unfold checkWinCondition. destruct b as [|row0 rest] eqn:Eb; [done|].
  rewrite Hw, <- Eb. split.
  - intros Hfull%boardIsFull_spec. rewrite Hfull. exists (majority b). split; [done|].
    unfold majority. rewrite !countCells_claimedCells.
    repeat case_decide; repeat split; intros; try done; lia.
  - intros Hin. destruct (boardIsFull b) eqn:Hfull; [|done].
    by apply boardIsFull_spec in Hfull.
Qed.

(** C6 on four boards, evaluated after an answer of [player2]: on
    [leadBoard player1], 22 cells against 20, [player1] wins; on
    [leadBoard player2], 20 against 22, [player2] wins; on [tieBoard], 21
    each, the game ends without a winner; on the empty board nothing
    happens. *)
Lemma most_on_full_evaluation_witness :
  (claimedCells player1 (leadBoard player1) = 22%nat
   ∧ claimedCells player2 (leadBoard player1) = 20%nat
   ∧ checkWinCondition (exampleSettings most_on_full) (leadBoard player1) player2
       initialState
     = Some (true, initialState |> setWinner (Some player1) |> setGameState GAME_OVER))
  ∧ (claimedCells player1 (leadBoard player2) = 20%nat
     ∧ claimedCells player2 (leadBoard player2) = 22%nat
     ∧ checkWinCondition (exampleSettings most_on_full) (leadBoard player2) player1
         initialState
       = Some (true, initialState |> setWinner (Some player2) |> setGameState GAME_OVER))
  ∧ (claimedCells player1 tieBoard = 21%nat
     ∧ claimedCells player2 tieBoard = 21%nat
     ∧ checkWinCondition (exampleSettings most_on_full) tieBoard player2 initialState
       = Some (true, initialState |> setWinner None |> setGameState GAME_OVER))
  ∧ checkWinCondition (exampleSettings most_on_full) initialBoardState player2
      initialState
    = Some (false, initialState).
Proof.
  assert (Hfull : ∀ b : Board, boardIsFull b = true → None ∉ concat b)
    by (intros b; apply boardIsFull_spec).
  split; [|split; [|split]].
  - assert (H1 : claimedCells player1 (leadBoard player1) = 22%nat) by reflexivity.
    assert (H2 : claimedCells player2 (leadBoard player1) = 20%nat) by reflexivity.
    assert (Hne : leadBoard player1 ≠ []) by discriminate.
    destruct (most_on_full_evaluation (exampleSettings most_on_full)
                (leadBoard player1) player2 initialState eq_refl Hne) as [Hends _].
    destruct (Hends (Hfull (leadBoard player1) eq_refl)) as (w & Hcheck & Hw & _ & _).
    rewrite Hw in Hcheck by (rewrite H1, H2; lia). done.
  - assert (H1 : claimedCells player1 (leadBoard player2) = 20%nat) by reflexivity.
    assert (H2 : claimedCells player2 (leadBoard player2) = 22%nat) by reflexivity.
    assert (Hne : leadBoard player2 ≠ []) by discriminate.
    destruct (most_on_full_evaluation (exampleSettings most_on_full)
                (leadBoard player2) player1 initialState eq_refl Hne) as [Hends _].
    destruct (Hends (Hfull (leadBoard player2) eq_refl)) as (w & Hcheck & _ & Hw & _).
    rewrite Hw in Hcheck by (rewrite H1, H2; lia). done.
  - assert (H1 : claimedCells player1 tieBoard = 21%nat) by reflexivity.
    assert (H2 : claimedCells player2 tieBoard = 21%nat) by reflexivity.
    assert (Hne : tieBoard ≠ []) by discriminate.
    destruct (most_on_full_evaluation (exampleSettings most_on_full)
                tieBoard player2 initialState eq_refl Hne) as [Hends _].
    destruct (Hends (Hfull tieBoard eq_refl)) as (w & Hcheck & _ & _ & Hw).
    rewrite Hw in Hcheck by (by rewrite H1, H2). done.
  - assert (Hne : initialBoardState ≠ []) by discriminate.
    destruct (most_on_full_evaluation (exampleSettings most_on_full) initialBoardState
                player2 initialState eq_refl Hne) as [_ Hgoes].
    apply Hgoes. simpl. apply list_elem_of_here.
Defined.

(** ** C8: the spin latch *)

(** C8: a click on a wheel that is already spinning changes nothing, the
    targets chosen by the first click stay; clicking twice is clicking once,
    for the handlers and for the events of the scene. *)
Theorem spin_start_idempotent (mode : Mode) (s : State) (d1 d2 d1' d2' : Draw) :
  (isSpinning1 s = true → handleSpin1Start d1 d2 s = Some s)
  ∧ (isSpinning2 s = true → handleSpin2Start s = s)
  ∧ (∀ s', handleSpin1Start d1 d2 s = Some s' →
           handleSpin1Start d1' d2' s' = Some s')
  ∧ handleSpin2Start (handleSpin2Start s) = handleSpin2Start s
  ∧ (isSpinning1 s = true → step mode s (ESpin1Click d1 d2) = Some s)
  ∧ (isSpinning2 s = true → step mode s ESpin2Click = Some s).
Proof.
  assert (H1 : ∀ s e1 e2, isSpinning1 s = true → handleSpin1Start e1 e2 s = Some s).
  { intros s0 e1 e2 Hs. unfold handleSpin1Start. by rewrite Hs. }
  assert (H2 : ∀ s, isSpinning2 s = true → handleSpin2Start s = s).
  { intros s0 Hs. unfold handleSpin2Start. by rewrite Hs. }
  repeat split.
  - apply H1.
  - apply H2.
  - intros s' Hs'. apply H1. unfold handleSpin1Start in Hs'.
    destruct (isSpinning1 s) eqn:Hs; [by injection Hs' as <-|].
    match type of Hs' with (?m ≫= _) = _ => destruct m as [acc|] end; [|done].
    by injection Hs' as <-.
  - apply H2. unfold handleSpin2Start. by destruct (isSpinning2 s) eqn:Hs.
  - intros Hs. simpl. rewrite (H1 s d1 d2 Hs). by destruct (_ && _).
  - intros Hs. simpl. rewrite (H2 s Hs). by destruct (_ && _).
Qed.

(** ** C5: [connect_3] *)

Lemma owns_spec player x : owns player x = true ↔ x = Some player.
Proof. unfold owns. apply bool_decide_eq_true. Qed.

Lemma owns3_spec player x y z :
  owns player x && owns player y && owns player z = true
  ↔ x = Some player ∧ y = Some player ∧ z = Some player.
Proof. rewrite !andb_true_iff, !owns_spec. tauto. Qed.

Lemma existsb_seq (f : nat → bool) (a n : nat) :
  existsb f (seq a n) = true ↔ ∃ i, (a ≤ i < a + n)%nat ∧ f i = true.
Proof.
  rewrite existsb_exists. split; intros (i & Hi & Hf); exists i; split; try done;
    by apply in_seq.
Qed.

Lemma readCell_lt line i player :
  readCell line i = Some player → (i < length line)%nat.
Proof.
  unfold readCell. destruct (line !! i) eqn:E; [|done].
  intros _. by apply lookup_lt_Some in E.
Qed.

Lemma cellAt_inv (b : Board) r c player :
  cellAt b r c = Some player →
  ∃ line, b !! r = Some line ∧ readCell line c = Some player.
Proof. unfold cellAt. destruct (b !! r) as [line|]; [eauto|done]. Qed.

Lemma cellAt_lookup (b : Board) r c line :
  b !! r = Some line → cellAt b r c = readCell line c.
Proof. unfold cellAt. by intros ->. Qed.

Lemma cellAt_bounds (b : Board) numCols r c player :
  rectangular b numCols →
  cellAt b r c = Some player → (r < length b)%nat ∧ (c < numCols)%nat.
Proof.
  intros Hrect (line & Hl & Hc)%cellAt_inv. split; [by apply lookup_lt_Some in Hl|].
  apply readCell_lt in Hc. unfold rectangular in Hrect.
  rewrite Forall_lookup in Hrect. by rewrite <- (Hrect r line Hl).
Qed.

Lemma checkLine_spec player line :
  checkLine player line = true
  ↔ ∃ i, readCell line i = Some player
         ∧ readCell line (i + 1) = Some player
         ∧ readCell line (i + 2) = Some player.
Proof.
  unfold checkLine. rewrite existsb_seq. split.
  - intros (i & _ & H%owns3_spec). eauto.
  - intros (i & H0 & H1 & H2). exists i. split; [|by apply owns3_spec].
    apply readCell_lt in H2. lia.
Qed.

Lemma scanRows_spec player (b : Board) :
  scanRows player b = true
  ↔ ∃ r c, cellAt b r c = Some player
           ∧ cellAt b r (c + 1) = Some player
           ∧ cellAt b r (c + 2) = Some player.
Proof.
  unfold scanRows. rewrite existsb_exists. split.
  - intros (line & Hin & (c & Hc)%checkLine_spec).
    apply list_elem_of_In, list_elem_of_lookup in Hin as [r Hr].
    exists r, c. by rewrite !(cellAt_lookup b r _ line Hr).
  - intros (r & c & H0 & H1 & H2).
    destruct (cellAt_inv _ _ _ _ H0) as (line & Hl & _).
    rewrite !(cellAt_lookup b r _ line Hl) in *.
    exists line. split; [by eapply list_elem_of_In, list_elem_of_lookup_2|].
    apply checkLine_spec. eauto.
Qed.

Lemma readCell_column (b : Board) c i :
  readCell ((λ line, readCell line c) <$> b) i = cellAt b i c.
Proof.
  unfold readCell at 1, cellAt. rewrite list_lookup_fmap.
  by destruct (b !! i).
Qed.

Lemma scanColumns_spec player (b : Board) numCols :
  rectangular b numCols →
  scanColumns player b numCols = true
  ↔ ∃ r c, cellAt b r c = Some player
           ∧ cellAt b (r + 1) c = Some player
           ∧ cellAt b (r + 2) c = Some player.
Proof.
  intros Hrect. unfold scanColumns. rewrite existsb_seq. split.
  - intros (c & _ & (r & Hr)%checkLine_spec).
    rewrite !readCell_column in Hr. eauto.
  - intros (r & c & H0 & H1 & H2). exists c. split.
    + destruct (cellAt_bounds _ _ _ _ _ Hrect H0). lia.
    + apply checkLine_spec. exists r. by rewrite !readCell_column.
Qed.

Lemma scanDownRight_spec player (b : Board) numCols :
  rectangular b numCols →
  scanDownRight player b (length b) numCols = true
  ↔ ∃ r c, cellAt b r c = Some player
           ∧ cellAt b (r + 1) (c + 1) = Some player
           ∧ cellAt b (r + 2) (c + 2) = Some player.
Proof.
  intros Hrect. unfold scanDownRight. rewrite existsb_seq. split.
  - intros (r & _ & (c & _ & H%owns3_spec)%existsb_seq). eauto.
  - intros (r & c & H0 & H1 & H2).
    destruct (cellAt_bounds _ _ _ _ _ Hrect H2).
    exists r. split; [lia|]. apply existsb_seq. exists c. split; [lia|].
    by apply owns3_spec.
Qed.

Lemma scanUpRight_spec player (b : Board) numCols :
  rectangular b numCols →
  scanUpRight player b (length b) numCols = true
  ↔ ∃ r c, cellAt b (r + 2) c = Some player
           ∧ cellAt b (r + 1) (c + 1) = Some player
           ∧ cellAt b r (c + 2) = Some player.
Proof.
  intros Hrect. unfold scanUpRight. rewrite existsb_seq. split.
  - intros (r & Hr & (c & _ & H%owns3_spec)%existsb_seq).
    exists (r - 2)%nat, c.
    replace (r - 2 + 2)%nat with r by lia.
    replace (r - 2 + 1)%nat with (r - 1)%nat by lia. done.
  - intros (r & c & H0 & H1 & H2).
    destruct (cellAt_bounds _ _ _ _ _ Hrect H0).
    destruct (cellAt_bounds _ _ _ _ _ Hrect H2).
    exists (r + 2)%nat. split; [lia|]. apply existsb_seq. exists c. split; [lia|].
    replace (r + 2 - 1)%nat with (r + 1)%nat by lia.
    replace (r + 2 - 2)%nat with r by lia.
    by apply owns3_spec.
Qed.

Lemma connect3_spec player (b : Board) numCols :
  rectangular b numCols →
  connect3 player b (length b) numCols = true ↔ threeInLine player b.
Proof.
  intros Hrect. unfold connect3, threeInLine.
  rewrite !orb_true_iff, scanRows_spec, (scanColumns_spec _ _ _ Hrect),
    (scanDownRight_spec _ _ _ Hrect), (scanUpRight_spec _ _ _ Hrect).
  split.
  - intros [[[(r & c & H)|(r & c & H)]|(r & c & H)]|(r & c & H)];
      exists r, c; tauto.
  - intros (r & c & [H|[H|[H|H]]]); eauto 10.
Qed.

(** C5: under [connect_3], on a board of equally long rows, the win
    evaluation declares [player] the winner (returns [true], records the
    winner, ends the game) if and only if three consecutive cells in a row,
    in a column, down-right or up-right are owned by [player]; otherwise it
    returns [false] and writes nothing. *)
Theorem connect_3_evaluation (settings : GameSettings) (b : Board)
    (numCols : nat) (player : Player) (acc : State) :
  winCondition settings = connect_3 →
  b ≠ [] →
  rectangular b numCols →
  (threeInLine player b ↔
     checkWinCondition settings b player acc = Some (true, declareWinner player acc))
  ∧ (¬ threeInLine player b ↔
       checkWinCondition settings b player acc = Some (false, acc))
  ∧ winner (declareWinner player acc) = Some player
  ∧ gameState (declareWinner player acc) = GAME_OVER.
Proof.
  intros Hw Hb Hrect. unfold checkWinCondition.
  destruct b as [|row0 rest] eqn:Eb; [done|]. rewrite Hw, <- Eb.
  assert (length row0 = numCols) as ->.
  { unfold rectangular in Hrect. by inversion Hrect. }
  rewrite <- Eb in Hrect. pose proof (connect3_spec player b numCols Hrect) as Hc.
  destruct (connect3 player b (length b) numCols).
  - assert (threeInLine player b) by by apply Hc.
    repeat split; try done.
  - assert (¬ threeInLine player b) by (intros H; by apply Hc in H).
    repeat split; try done.
Qed.

(** C5 on [diagonalBoard]: [player1] wins, [player2] does not. *)
Lemma connect_3_evaluation_witness :
  rectangular diagonalBoard 7
  ∧ threeInLine player1 diagonalBoard
  ∧ checkWinCondition (exampleSettings connect_3) diagonalBoard player1 initialState
    = Some (true, declareWinner player1 initialState)
  ∧ ¬ threeInLine player2 diagonalBoard.
Proof.
  assert (Hrect : rectangular diagonalBoard 7) by by repeat constructor.
  assert (Hne : diagonalBoard ≠ []) by done.
  assert (Hline : threeInLine player1 diagonalBoard).
  { exists 0%nat, 0%nat. right. right. left. by vm_compute. }
  split; [done|]. split; [done|]. split.
  - by apply (connect_3_evaluation (exampleSettings connect_3) diagonalBoard 7 player1
                initialState eq_refl Hne Hrect).
  - by apply (connect_3_evaluation (exampleSettings connect_3) diagonalBoard 7 player2
                initialState eq_refl Hne Hrect).
Defined.

(** ** The wheels' events *)

Lemma canSpin1_SPIN_1 s p :
  currentPlayer s = p → gameState s = SPIN_1 p → canSpin1 s = true.
Proof. unfold canSpin1, isPlayerTurn. intros -> ->. by destruct p. Qed.

Lemma canSpin2_SPIN_2 s p :
  currentPlayer s = p → gameState s = SPIN_2 p → canSpin2 s = true.
Proof. unfold canSpin2, isPlayerTurn. intros -> ->. by destruct p. Qed.

Lemma SPIN_1_not_over p : SPIN_1 p ≠ GAME_OVER.
Proof. by destruct p. Qed.

Lemma SPIN_2_not_over p : SPIN_2 p ≠ GAME_OVER.
Proof. by destruct p. Qed.

Lemma table_multiple_on_wheel t m :
  1 ≤ m ≤ 10 → memZ (t * m) (v <$> tableSegments t) = true.
Proof.
  intros Hm. rewrite tableSegments_values. apply memZ_spec, list_elem_of_fmap.
  exists m. by rewrite oneToTen_spec.
Qed.

Lemma table_on_right_wheel t :
  1 ≤ t ≤ 10 → memZ t (v <$> DEFAULT_SPINNER_SEGMENTS) = true.
Proof. intros Ht. apply memZ_spec. by apply oneToTen_spec. Qed.

Lemma step_spin1_click mode s d1 d2 p :
  currentPlayer s = p → gameState s = SPIN_1 p →
  step mode s (ESpin1Click d1 d2) = handleSpin1Start d1 d2 s.
Proof.
  intros Hc Hg. simpl. rewrite (canSpin1_SPIN_1 s p Hc Hg).
  by rewrite bool_decide_eq_true_2 by (rewrite Hg; apply SPIN_1_not_over).
Qed.

Lemma step_spin1_settled mode s tv :
  isSpinning1 s = true → spinner1Target s = Some tv →
  memZ tv (v <$> spinner1Segments s) = true →
  step mode s ESpin1Settled = Some (handleSpin1End tv s).
Proof. intros Hs Ht Hm. simpl. unfold spinnerSettles. rewrite Hs, Ht. simpl. by rewrite Hm. Qed.

Lemma step_spin2_click mode s p :
  currentPlayer s = p → gameState s = SPIN_2 p →
  step mode s ESpin2Click = Some (handleSpin2Start s).
Proof.
  intros Hc Hg. simpl. rewrite (canSpin2_SPIN_2 s p Hc Hg).
  by rewrite bool_decide_eq_true_2 by (rewrite Hg; apply SPIN_2_not_over).
Qed.

Lemma step_spin2_settled mode s tv :
  isSpinning2 s = true → spinner2Target s = Some tv →
  memZ tv (v <$> DEFAULT_SPINNER_SEGMENTS) = true →
  step mode s ESpin2Settled = Some (handleSpin2End tv s).
Proof.
  intros Hs Ht Hm. cbn [step]. unfold spinnerSettles. rewrite Hs, Ht.
  cbn [mbind option_bind]. by rewrite Hm.
Qed.

(** ** Cell selections *)

Lemma ANSWER_endsWith p : endsWithANSWER (ANSWER p) = true.
Proof. by destruct p. Qed.

Lemma step_cell_click mode s row col cellValue :
  boardLayout s !! row ≫= (λ line, line !! col) = Some cellValue →
  step mode s (ECellClick row col) = handleCellClick cellValue row col s.
Proof. intros H. cbn [step]. by rewrite H. Qed.

(** What the win evaluation writes. *)
Lemma checkWinCondition_cases settings b player acc r acc' :
  checkWinCondition settings b player acc = Some (r, acc') →
  (r = false ∧ acc' = acc)
  ∨ (r = true ∧ winCondition settings = first_to_5
     ∧ (5 ≤ countCells player b)%nat ∧ acc' = declareWinner player acc)
  ∨ (r = true ∧ winCondition settings = connect_3
     ∧ (∃ row0 rest, b = row0 :: rest
                     ∧ connect3 player b (length b) (length row0) = true)
     ∧ acc' = declareWinner player acc)
  ∨ (r = true ∧ winCondition settings = most_on_full
     ∧ boardIsFull b = true
     ∧ acc' = acc |> setWinner (majority b) |> setGameState GAME_OVER).
Proof.
  unfold checkWinCondition. destruct b as [|row0 rest] eqn:Eb; [done|].
  rewrite <- Eb. destruct (winCondition settings).
  - case_decide; intros [= <- <-]; [|by left].
    right. left. by repeat split.
  - destruct (connect3 _ _ _ _) eqn:Hc; intros [= <- <-]; [|by left].
    right. right. left. repeat split; try done. exists row0, rest. by rewrite <- Eb.
  - destruct (boardIsFull b) eqn:Hf; intros [= <- <-]; [|by left].
    right. right. right. by repeat split.
Qed.

(** A selection with the expected value. *)
Lemma handleCellClick_correct s cellValue row col val1 val2 :
  endsWithANSWER (gameState s) = true →
  spinner1Value s = Some val1 →
  spinner2Value s = Some val2 →
  getCorrectAnswer (operation (gameSettings s)) val1 val2 = Some cellValue →
  handleCellClick cellValue row col s
  = newBoardState ← setCell row col (currentPlayer s) (boardState s);
    '(isGameOver, acc) ←
       checkWinCondition (gameSettings s) newBoardState (currentPlayer s)
         (s |> setBoardState newBoardState
            |> setMessage (MsgCorrect val1 val2 (operation (gameSettings s)) cellValue));
    if isGameOver : bool then Some acc
    else if bool_decide (winCondition (gameSettings s) = most_on_full)
            && boardIsFull (boardState s)
         then snd <$> checkWinCondition (gameSettings s) (boardState s)
                        (currentPlayer s) acc
         else Some (acc |> setTimeout (TChangeTurn (currentPlayer s) (gameSettings s))).
Proof.
  intros Hans H1 H2 Heq. unfold handleCellClick.
  rewrite Hans, H1, H2. simpl.
  rewrite bool_decide_eq_false_2 by by apply endsWithANSWER_not_over.
  rewrite decide_True by done.
  destruct (setCell row col (currentPlayer s) (boardState s)); [|done]. simpl.
  by destruct (checkWinCondition _ _ _ _) as [[[] ?]|].
Qed.

(** A selection outside an Answer phase, or before both wheels have
    settled, is ignored. *)
Lemma handleCellClick_ignored s cellValue row col :
  endsWithANSWER (gameState s) = false
  ∨ spinner1Value s = None ∨ spinner2Value s = None →
  handleCellClick cellValue row col s = Some s.
Proof.
  intros H. unfold handleCellClick.
  destruct (endsWithANSWER (gameState s)); simpl; [|done].
  case_bool_decide; simpl; [done|].
  destruct (spinner1Value s), (spinner2Value s); try done.
  by destruct H as [?|[?|?]].
Qed.

(** ** The hand-over *)

Lemma changeTurn_result cur settings d acc :
  gameState (changeTurn cur settings d acc) = SPIN_1 (otherPlayer cur)
  ∧ currentPlayer (changeTurn cur settings d acc) = otherPlayer cur
  ∧ spinner1Value (changeTurn cur settings d acc) = None
  ∧ spinner2Value (changeTurn cur settings d acc) = None
  ∧ spinner1Target (changeTurn cur settings d acc) = None
  ∧ spinner2Target (changeTurn cur settings d acc) = None
  ∧ boardState (changeTurn cur settings d acc) = boardState acc
  ∧ winner (changeTurn cur settings d acc) = winner acc.
Proof. unfold changeTurn, prepareTurn. by case_decide. Qed.

(** ** The board under the events *)

Lemma prepareTurn_boardState settings d acc :
  boardState (prepareTurn settings d acc) = boardState acc.
Proof. unfold prepareTurn. by case_decide. Qed.

Lemma handleSpin1Start_boardState d1 d2 s s' :
  handleSpin1Start d1 d2 s = Some s' → boardState s' = boardState s.
Proof.
  unfold handleSpin1Start. destruct (isSpinning1 s); [by intros [= <-]|].
  destruct (_ && _).
  - destruct (spinner1Segments s !! _); [|done]. by intros [= <-].
  - case_decide; by intros [= <-].
Qed.

Lemma checkWinCondition_boardState settings b player acc r acc' :
  checkWinCondition settings b player acc = Some (r, acc') →
  boardState acc' = boardState acc.
Proof.
  intros H. apply checkWinCondition_cases in H
    as [(_ & ->)|[(_ & _ & _ & ->)|[(_ & _ & _ & ->)|(_ & _ & _ & ->)]]]; done.
Qed.

(** A correct answer writes the selected cell. *)
Lemma handleCellClick_correct_board s cellValue row col val1 val2 s' :
  endsWithANSWER (gameState s) = true →
  spinner1Value s = Some val1 →
  spinner2Value s = Some val2 →
  getCorrectAnswer (operation (gameSettings s)) val1 val2 = Some cellValue →
  handleCellClick cellValue row col s = Some s' →
  setCell row col (currentPlayer s) (boardState s) = Some (boardState s').
Proof.
  intros Hans H1 H2 Heq Hclick.
  rewrite (handleCellClick_correct s cellValue row col val1 val2) in Hclick by done.
  destruct (setCell row col (currentPlayer s) (boardState s)) as [nb|]; [|done].
  simpl in Hclick.
  destruct (checkWinCondition _ nb _ _) as [[over acc]|] eqn:Hcheck; [|done].
  apply checkWinCondition_boardState in Hcheck. simpl in Hcheck, Hclick.
  destruct over; [by injection Hclick as <-; rewrite Hcheck|].
  destruct (_ && _).
  - destruct (checkWinCondition _ (boardState s) _ acc) as [[over2 acc2]|] eqn:Hc2;
      [|done].
    apply checkWinCondition_boardState in Hc2. injection Hclick as <-. simpl.
    by rewrite Hc2, Hcheck.
  - injection Hclick as <-. simpl. by rewrite Hcheck.
Qed.

(** An answer that is not correct leaves the board. *)
Lemma handleCellClick_incorrect_board s cellValue row col val1 val2 s' :
  endsWithANSWER (gameState s) = true →
  spinner1Value s = Some val1 →
  spinner2Value s = Some val2 →
  getCorrectAnswer (operation (gameSettings s)) val1 val2 ≠ Some cellValue →
  handleCellClick cellValue row col s = Some s' →
  boardState s' = boardState s.
Proof.
  intros Hans H1 H2 Hne Hclick.
  rewrite (handleCellClick_incorrect s cellValue row col val1 val2) in Hclick by done.
  cbv zeta in Hclick. destruct (_ && _).
  - destruct (checkWinCondition _ _ _ _) as [[over acc]|] eqn:Hcheck; [|done].
    apply checkWinCondition_boardState in Hcheck. injection Hclick as <-. simpl.
    by rewrite Hcheck.
  - by injection Hclick as <-.
Qed.

(** The board after a selection: as before, or with the selected cell
    given to the current player by a correct answer. *)
Lemma handleCellClick_board s cellValue row col s' :
  handleCellClick cellValue row col s = Some s' →
  boardState s' = boardState s
  ∨ ∃ val1 val2,
      endsWithANSWER (gameState s) = true
      ∧ spinner1Value s = Some val1
      ∧ spinner2Value s = Some val2
      ∧ getCorrectAnswer (operation (gameSettings s)) val1 val2 = Some cellValue
      ∧ setCell row col (currentPlayer s) (boardState s) = Some (boardState s').
Proof.
  intros Hclick.
  destruct (endsWithANSWER (gameState s)) eqn:Hans;
    [|rewrite handleCellClick_ignored in Hclick by auto; left; congruence].
  destruct (spinner1Value s) as [val1|] eqn:H1;
    [|rewrite handleCellClick_ignored in Hclick by auto; left; congruence].
  destruct (spinner2Value s) as [val2|] eqn:H2;
    [|rewrite handleCellClick_ignored in Hclick by auto; left; congruence].
  destruct (decide (getCorrectAnswer (operation (gameSettings s)) val1 val2
                    = Some cellValue)) as [Heq|Hne].
  - right. exists val1, val2. repeat (split; [done|]).
    by eapply handleCellClick_correct_board.
  - left. by eapply handleCellClick_incorrect_board.
Qed.

Lemma runTimer_boardState t d acc : boardState (runTimer t d acc) = boardState acc.
Proof. destruct t; simpl; try done. apply changeTurn_result. Qed.

(** Every event leaves the board as it is, except the restart, which empties
    it, and a correct answer, which writes the selected cell. *)
Lemma step_board mode s e s' :
  step mode s e = Some s' →
  boardState s' = boardState s
  ∨ (e = ERestart ∧ boardState s' = initialBoardState)
  ∨ ∃ row col cellValue val1 val2,
      e = ECellClick row col
      ∧ boardLayout s !! row ≫= (λ line, line !! col) = Some cellValue
      ∧ endsWithANSWER (gameState s) = true
      ∧ spinner1Value s = Some val1
      ∧ spinner2Value s = Some val2
      ∧ getCorrectAnswer (operation (gameSettings s)) val1 val2 = Some cellValue
      ∧ setCell row col (currentPlayer s) (boardState s) = Some (boardState s').
Proof.
  destruct e; cbn [step].
  - destruct (_ && _); intros [= <-]; [|by left].
    left. unfold handleGameStart. simpl. by rewrite prepareTurn_boardState.
  - destruct (bool_decide _); intros [= <-]; [|by left].
    left. unfold handleCoinFlipComplete. simpl. by rewrite prepareTurn_boardState.
  - destruct (_ && _); [|by intros [= <-]; left].
    intros H. left. by eapply handleSpin1Start_boardState.
  - destruct (spinnerSettles _ _ _); intros [= <-]; by left.
  - destruct (_ && _); intros [= <-]; left; [|done].
    unfold handleSpin2Start. by destruct (isSpinning2 s).
  - destruct (spinnerSettles _ _ _); intros [= <-]; by left.
  - destruct (boardLayout s !! row ≫= _) as [cellValue|] eqn:Hl;
      [|by intros [= <-]; left].
    intros [Hsame|(val1 & val2 & H)]%handleCellClick_board; [by left|].
    right. right. exists row, col, cellValue, val1, val2. by repeat split; try apply H.
  - destruct (timers s !! i); intros [= <-]; [|by left].
    left. by rewrite runTimer_boardState.
  - destruct (_ && _); intros [= <-]; [|by left]. right. left. done.
  - destruct (_ && _); intros [= <-]; by left.
Qed.

Lemma cellAt_setCell (b b' : Board) row col p r c :
  setCell row col p b = Some b' →
  cellAt b' r c = if decide (r = row ∧ c = col) then Some p else cellAt b r c.
Proof.
  unfold setCell. destruct (b !! row) as [line|] eqn:Hl; [|done]. simpl.
  case_decide as Hcol; [|done]. intros [= <-].
  unfold cellAt. destruct (decide (r = row)) as [->|Hr].
  - rewrite list_lookup_insert_eq by by eapply lookup_lt_Some.
    rewrite Hl. simpl. unfold readCell.
    destruct (decide (c = col)) as [->|Hc].
    + rewrite list_lookup_insert_eq by done. by rewrite decide_True.
    + rewrite list_lookup_insert_ne by done. rewrite decide_False by tauto. done.
  - rewrite list_lookup_insert_ne by done. rewrite decide_False by tauto. done.
Qed.

Lemma setCell_rectangular (b b' : Board) row col p n :
  setCell row col p b = Some b' → rectangular b n → rectangular b' n.
Proof.
  unfold setCell. destruct (b !! row) as [line|] eqn:Hl; [|done]. simpl.
  case_decide; [|done]. intros [= <-] Hrect. unfold rectangular in *.
  apply Forall_insert; [done|]. rewrite length_insert.
  rewrite Forall_lookup in Hrect. by eapply Hrect.
Qed.

Lemma setCell_length (b b' : Board) row col p :
  setCell row col p b = Some b' → length b' = length b.
Proof.
  unfold setCell. destruct (b !! row) as [line|]; [|done]. simpl.
  case_decide; [|done]. intros [= <-]. apply length_insert.
Qed.

Lemma initialBoardState_wf : wfBoard initialBoardState.
Proof. split; [done|]. unfold rectangular. by repeat constructor. Qed.

(** The board of a game always has 6 rows of 7 cells. *)
Lemma run_wfBoard mode es s s' :
  wfBoard (boardState s) → run mode s es = Some s' → wfBoard (boardState s').
Proof.
  revert s. induction es as [|e es IH]; intros s Hwf; simpl.
  - by intros [= <-].
  - destruct (step mode s e) as [s1|] eqn:Hstep; [|done]. simpl.
    apply IH. apply step_board in Hstep
      as [->|[(_ & ->)|(row & col & cv & v1 & v2 & _ & _ & _ & _ & _ & _ & Hset)]].
    + done.
    + apply initialBoardState_wf.
    + destruct Hwf as [Hlen Hrect]. split.
      * by rewrite (setCell_length _ _ _ _ _ Hset).
      * by eapply setCell_rectangular.
Qed.

Lemma reachable_wfBoard mode s : reachable mode s → wfBoard (boardState s).
Proof. intros [es Hrun]. eapply run_wfBoard; [|done]. apply initialBoardState_wf. Qed.

(** ** Evaluating the example games *)

Lemma run_snoc mode s es e s1 s2 :
  run mode s es = Some s1 → step mode s1 e = Some s2 → run mode s (es ++ [e]) = Some s2.
Proof.
  revert s. induction es as [|e0 es IH]; intros s; simpl.
  - intros [= ->] ->. done.
  - destruct (step mode s e0) as [s0|]; simpl; [apply IH|done].
Qed.

(** ** C1: claimed cells *)

Lemma reachable_run mode es s :
  run mode initialState es = Some s → reachable mode s.
Proof. intros H. by exists es. Qed.

(** C1, counterexample: in [twelveTwiceGame], [player1] holds the cell 12
    and [player2] has spun 2 × 6; the selection of that cell by [player2] is
    a correct answer and hands the cell over. *)
Lemma claimed_cell_overwritten : ¬ claimed_cells_stable.
Proof.
  intros Hclaim.
  assert (Hrun : run production initialState twelveTwiceGame
                 = Some (afterGame twelveTwiceGame)) by by_run.
  assert (Hstep : step production (afterGame twelveTwiceGame) (ECellClick 3 6)
                  = Some (afterGame (twelveTwiceGame ++ [ECellClick 3 6]))) by by_run.
  assert (Hbefore : cellAt (boardState (afterGame twelveTwiceGame)) 3 6 = Some player1)
    by by_run.
  assert (Hafter : cellAt (boardState (afterGame (twelveTwiceGame ++ [ECellClick 3 6])))
                     3 6 = Some player2) by by_run.
  assert (ECellClick 3 6 ≠ ERestart) as Hne by discriminate.
  pose proof (Hclaim _ _ _ 3%nat 6%nat player1 (reachable_run _ _ _ Hrun) Hne Hstep
                Hbefore) as Hkept.
  rewrite Hafter in Hkept. discriminate Hkept.
Qed.

(** C1, amended: short of a restart, no event clears a claimed cell, and
    the only event that changes its owner is a correct answer that selects
    this very cell, which gives it to the player who answered.  A correct
    answer on a claimed cell is not ignored: the cell then belongs to the
    current player, whoever held it. *)
Theorem claimed_cell_kept_or_retaken :
  (∀ (mode : Mode) (s s' : State) (e : Event) (r c : nat) (p : Player),
     e ≠ ERestart →
     step mode s e = Some s' →
     cellAt (boardState s) r c = Some p →
     cellAt (boardState s') r c = Some p
     ∨ (cellAt (boardState s') r c = Some (currentPlayer s)
        ∧ e = ECellClick r c
        ∧ ∃ cellValue val1 val2,
            boardLayout s !! r ≫= (λ line, line !! c) = Some cellValue
            ∧ endsWithANSWER (gameState s) = true
            ∧ spinner1Value s = Some val1
            ∧ spinner2Value s = Some val2
            ∧ getCorrectAnswer (operation (gameSettings s)) val1 val2
              = Some cellValue))
  ∧ (∀ (s s' : State) (cellValue : Z) (row col : nat) (val1 val2 : Z),
       endsWithANSWER (gameState s) = true →
       spinner1Value s = Some val1 →
       spinner2Value s = Some val2 →
       getCorrectAnswer (operation (gameSettings s)) val1 val2 = Some cellValue →
       handleCellClick cellValue row col s = Some s' →
       cellAt (boardState s') row col = Some (currentPlayer s)).
Proof.
  split.
  - intros mode s s' e r c p Hne Hstep Hcell.
    apply step_board in Hstep
      as [->|[(-> & _)|(row & col & cv & v1 & v2 & -> & Hl & Hans & H1 & H2 & Hok & Hset)]];
      [by left|done|].
    rewrite (cellAt_setCell _ _ _ _ _ r c Hset).
    case_decide as Hrc; [|by left].
    destruct Hrc as [-> ->]. right. split; [done|]. split; [done|]. eauto 10.
  - intros s s' cellValue row col val1 val2 Hans H1 H2 Hok Hclick.
    pose proof (handleCellClick_correct_board _ _ _ _ _ _ _ Hans H1 H2 Hok Hclick)
      as Hset.
    rewrite (cellAt_setCell _ _ _ _ _ row col Hset). by rewrite decide_True.
Qed.

(** C1 in [twelveTwiceGame]: the selection of the cell 12 by [player2] is
    the one event by which the cell leaves [player1]. *)
Lemma claimed_cell_kept_or_retaken_witness :
  ∃ s',
    step production (afterGame twelveTwiceGame) (ECellClick 3 6) = Some s'
    ∧ cellAt (boardState (afterGame twelveTwiceGame)) 3 6 = Some player1
    ∧ cellAt (boardState s') 3 6 = Some player2
    ∧ cellAt (boardState s') 3 6 = Some (currentPlayer (afterGame twelveTwiceGame)).
Proof.
  set (s := afterGame twelveTwiceGame).
  set (s' := afterGame (twelveTwiceGame ++ [ECellClick 3 6])).
  assert (Hstep : step production s (ECellClick 3 6) = Some s') by by_run.
  assert (Hbefore : cellAt (boardState s) 3 6 = Some player1) by by_run.
  assert (Hafter : cellAt (boardState s') 3 6 = Some player2) by by_run.
  assert (Hne : ECellClick 3 6 ≠ ERestart) by discriminate.
  destruct claimed_cell_kept_or_retaken as [Hkeep _].
  exists s'. split; [exact Hstep|]. split; [exact Hbefore|]. split; [exact Hafter|].
  destruct (Hkeep production s s' _ 3%nat 6%nat player1 Hne Hstep Hbefore)
    as [Hsame|(Hnew & _)]; [|exact Hnew].
  rewrite Hafter in Hsame. discriminate Hsame.
Defined.

(** ** C9: what a wrong answer changes *)

(** C9, counterexample: [doubleClickGame] ends in the Answer phase of
    [player1] on a full board of [most_on_full], with 1 × 1 on the wheels.
    The selection of the cell 30 is a wrong answer, and it ends the game. *)
Lemma incorrect_selection_ends_full_game : ¬ incorrect_selection_frame.
Proof.
  intros Hclaim.
  set (s := afterGame doubleClickGame).
  set (s' := afterGame (doubleClickGame ++ [ECellClick 0 0])).
  assert (Hrun : run production initialState doubleClickGame = Some s) by by_run.
  assert (Hstep : step production s (ECellClick 0 0) = Some s') by by_run.
  assert (Hans : endsWithANSWER (gameState s) = true) by by_run.
  assert (H1 : spinner1Value s = Some 1) by by_run.
  assert (H2 : spinner2Value s = Some 1) by by_run.
  assert (Hl : boardLayout s !! 0%nat ≫= (λ line, line !! 0%nat) = Some 30) by by_run.
  assert (Hne : getCorrectAnswer (operation (gameSettings s)) 1 1 ≠ Some 30)
    by by_run_ne.
  assert (Hg : gameState s = PLAYER_1_ANSWER) by by_run.
  assert (Hover : gameState s' = GAME_OVER) by by_run.
  destruct (Hclaim s s' _ _ _ _ _ (reachable_run _ _ _ Hrun) Hans H1 H2 Hl Hne Hstep)
    as (_ & _ & Heq).
  apply (f_equal gameState) in Heq. cbn [gameState setTimers setMessage setFlashingCell]
    in Heq. rewrite Hg, Hover in Heq. discriminate Heq.
Qed.

(** C9, amended: a selection in an Answer phase whose value differs from the
    expected result (or for which there is no integer result) never changes
    the board.  Unless the win condition is [most_on_full] and the board is
    already full, it sets no winner: the state changes in the highlighted
    cell, the message and the two scheduled timers only (end of highlight,
    [changeTurn]).  On the full board of [most_on_full] the selection instead
    records the majority winner and ends the game, and schedules no
    hand-over. *)
Theorem incorrect_selection_effect (s : State) (cellValue : Z) (row col : nat)
    (val1 val2 : Z) :
  endsWithANSWER (gameState s) = true →
  spinner1Value s = Some val1 →
  spinner2Value s = Some val2 →
  getCorrectAnswer (operation (gameSettings s)) val1 val2 ≠ Some cellValue →
  let incorrectMessage :=
    match getCorrectAnswer (operation (gameSettings s)) val1 val2 with
    | Some r => MsgIncorrect r
    | None => MsgNoInteger val1 val2 (operation (gameSettings s))
    end in
  (∀ s', handleCellClick cellValue row col s = Some s' →
         boardState s' = boardState s)
  ∧ (bool_decide (winCondition (gameSettings s) = most_on_full)
       && boardIsFull (boardState s) = false →
     handleCellClick cellValue row col s
     = Some (s |> setFlashingCell (Some (row, col))
               |> setMessage incorrectMessage
               |> setTimers (timers s ++ [TFlashOff;
                               TChangeTurn (currentPlayer s) (gameSettings s)])))
  ∧ (bool_decide (winCondition (gameSettings s) = most_on_full)
       && boardIsFull (boardState s) = true →
     boardState s ≠ [] →
     handleCellClick cellValue row col s
     = Some (s |> setFlashingCell (Some (row, col))
               |> setMessage incorrectMessage
               |> setTimers (timers s ++ [TFlashOff])
               |> setWinner (majority (boardState s))
               |> setGameState GAME_OVER)).
Proof.
  intros Hans H1 H2 Hne msg.
  split; [intros s'; by apply (handleCellClick_incorrect_board s _ _ _ val1 val2)|].
  rewrite (handleCellClick_incorrect s cellValue row col val1 val2) by done.
  cbv zeta. fold msg. split.
  - intros ->. unfold setTimeout. simpl. by rewrite <- app_assoc.
  - intros Hfull Hb. rewrite Hfull.
    apply andb_prop in Hfull as [Hw%bool_decide_eq_true Hf].
    unfold checkWinCondition. destruct (boardState s) as [|row0 rest] eqn:Eb; [done|].
    rewrite Hw, Hf. by simpl.
Qed.

(** C9 in [twelveTwiceGame]: [player2], with 2 × 6 on the wheels, selects the
    cell 30.  The cell 12 stays with [player1] and nobody has won. *)
Lemma incorrect_selection_effect_witness :
  ∃ s',
    handleCellClick 30 0 0 (afterGame twelveTwiceGame) = Some s'
    ∧ boardState s' = boardState (afterGame twelveTwiceGame)
    ∧ winner s' = None
    ∧ gameState s' = PLAYER_2_ANSWER
    ∧ flashingCell s' = Some (0, 0)%nat
    ∧ message s' = MsgIncorrect 12.
Proof.
  set (s := afterGame twelveTwiceGame).
  assert (Hans : endsWithANSWER (gameState s) = true) by by_run.
  assert (H1 : spinner1Value s = Some 2) by by_run.
  assert (H2 : spinner2Value s = Some 6) by by_run.
  assert (Hne : getCorrectAnswer (operation (gameSettings s)) 2 6 ≠ Some 30)
    by by_run_ne.
  assert (Hnf : bool_decide (winCondition (gameSettings s) = most_on_full)
                && boardIsFull (boardState s) = false) by by_run.
  destruct (incorrect_selection_effect s 30 0%nat 0%nat 2 6 Hans H1 H2 Hne)
    as (_ & Hclick & _).
  eexists. split; [exact (Hclick Hnf)|].
  split; [reflexivity|]. split; [by_run|]. split; [by_run|]. split; [reflexivity|].
  by_run.
Defined.

(** ** C7: the hand-over after a wrong answer *)

Lemma delete_last_appended {A} (l : list A) (x : A) : delete (length l) (l ++ [x]) = l.
Proof. induction l as [|y l IH]; [done|]. simpl. by rewrite IH. Qed.

(** The end of a highlight changes the highlighted cell only. *)
Lemma step_flash_off mode s i d s' :
  timers s !! i = Some TFlashOff →
  step mode s (ETimer i d) = Some s' →
  gameState s' = gameState s.
Proof. intros Ht. cbn [step]. rewrite Ht. by intros [= <-]. Qed.

(** C7, counterexample: [doubleClickGame] ends in the Answer phase of
    [player1] on a full board of [most_on_full], with 1 × 1 on the wheels.
    The selection of the cell 30 is a wrong answer; the only timer it
    schedules is the end of the highlight, and the game is over: no
    hand-over follows. *)
Lemma incorrect_selection_without_handover : ¬ incorrect_selection_hands_over.
Proof.
  intros Hclaim.
  set (s := afterGame doubleClickGame).
  set (s' := afterGame (doubleClickGame ++ [ECellClick 0 0])).
  assert (Hrun : run production initialState doubleClickGame = Some s) by by_run.
  assert (Hstep : step production s (ECellClick 0 0) = Some s') by by_run.
  assert (Hg : gameState s = ANSWER player1) by by_run.
  assert (Hc : currentPlayer s = player1) by by_run.
  assert (H1 : spinner1Value s = Some 1) by by_run.
  assert (H2 : spinner2Value s = Some 1) by by_run.
  assert (Hl : boardLayout s !! 0%nat ≫= (λ line, line !! 0%nat) = Some 30) by by_run.
  assert (Hne : getCorrectAnswer (operation (gameSettings s)) 1 1 ≠ Some 30)
    by by_run_ne.
  assert (Hlen : length (timers s) = 0%nat) by by_run.
  assert (Hlen' : length (timers s') = 1%nat) by by_run.
  assert (Ht : timers s' !! 0%nat = Some TFlashOff) by by_run.
  assert (Hover : gameState s' = GAME_OVER) by by_run.
  destruct (Hclaim s s' player1 _ _ _ _ _ (reachable_run _ _ _ Hrun) Hg Hc H1 H2 Hl
              Hne Hstep) as (i & d & s'' & Hi & Hfire & Hg'' & _).
  assert (i = 0%nat) as -> by lia.
  rewrite (step_flash_off production s' 0 d s'' Ht Hfire), Hover in Hg''.
  discriminate Hg''.
Qed.

(** C7, amended: in the Answer phase of [p], a selection with a wrong
    value, unless the board is the full board of [most_on_full], leaves [p]
    in the Answer phase and schedules [changeTurn] behind the end of the
    highlight.  When that timer fires, right away or on whatever state [acc]
    the game is in by then, the machine is in the Spin1 phase of the other
    player and both operands and both wheel targets are [null].  On the
    full board of [most_on_full] the selection ends the game instead: the
    only timer it schedules is the end of the highlight, whose expiry leaves
    the game over, so no hand-over follows. *)
Theorem incorrect_answer_hands_turn (mode : Mode) (s : State) (p : Player)
    (cellValue : Z) (row col : nat) (val1 val2 : Z) (d : Draw) :
  gameState s = ANSWER p →
  currentPlayer s = p →
  spinner1Value s = Some val1 →
  spinner2Value s = Some val2 →
  getCorrectAnswer (operation (gameSettings s)) val1 val2 ≠ Some cellValue →
  (bool_decide (winCondition (gameSettings s) = most_on_full)
     && boardIsFull (boardState s) = false →
   ∃ s' s'',
     handleCellClick cellValue row col s = Some s'
     ∧ gameState s' = ANSWER p
     ∧ timers s' = timers s ++ [TFlashOff; TChangeTurn p (gameSettings s)]
     ∧ step mode s' (ETimer (S (length (timers s))) d) = Some s''
     ∧ gameState s'' = SPIN_1 (otherPlayer p)
     ∧ currentPlayer s'' = otherPlayer p
     ∧ spinner1Value s'' = None ∧ spinner2Value s'' = None
     ∧ spinner1Target s'' = None ∧ spinner2Target s'' = None
     ∧ boardState s'' = boardState s
     ∧ ∀ acc : State,
         let s3 := runTimer (TChangeTurn p (gameSettings s)) d acc in
         gameState s3 = SPIN_1 (otherPlayer p)
         ∧ currentPlayer s3 = otherPlayer p
         ∧ spinner1Value s3 = None ∧ spinner2Value s3 = None
         ∧ spinner1Target s3 = None ∧ spinner2Target s3 = None)
  ∧ (bool_decide (winCondition (gameSettings s) = most_on_full)
       && boardIsFull (boardState s) = true →
     boardState s ≠ [] →
     ∃ s' s'',
       handleCellClick cellValue row col s = Some s'
       ∧ gameState s' = GAME_OVER
       ∧ currentPlayer s' = p
       ∧ timers s' = timers s ++ [TFlashOff]
       ∧ step mode s' (ETimer (length (timers s)) d) = Some s''
       ∧ gameState s'' = GAME_OVER
       ∧ currentPlayer s'' = p
       ∧ timers s'' = timers s).
Proof.
  intros Hg Hc H1 H2 Hne.
  pose proof (handleCellClick_incorrect s cellValue row col val1 val2) as Hclick.
  rewrite Hg, ANSWER_endsWith in Hclick. specialize (Hclick eq_refl H1 H2 Hne).
  cbv zeta in Hclick. split.
  - intros Hfull. rewrite Hfull, Hc in Hclick.
    eexists _, _. split; [exact Hclick|].
    split; [done|].
    split; [by simpl; rewrite <- app_assoc|].
    split.
    { cbn [step]. simpl timers. rewrite <- app_assoc. simpl.
      rewrite lookup_app_r by (simpl; lia).
      replace (S (length (timers s)) - length (timers s))%nat with 1%nat by lia.
      simpl. reflexivity. }
    pose proof (changeTurn_result p (gameSettings s) d) as Hres.
    simpl runTimer.
    match goal with |- context [changeTurn p (gameSettings s) d ?a] =>
      destruct (Hres a) as (-> & -> & -> & -> & -> & -> & -> & _)
    end.
    repeat split; try done; apply Hres.
  - intros Hfull Hb. rewrite Hfull in Hclick.
    apply andb_prop in Hfull as [Hw%bool_decide_eq_true Hf].
    unfold checkWinCondition in Hclick.
    destruct (boardState s) as [|row0 rest] eqn:Eb; [done|].
    rewrite Hw, Hf in Hclick. cbn [fmap option_fmap option_map snd] in Hclick.
    eexists _, _. split; [exact Hclick|].
    split; [reflexivity|]. split; [exact Hc|]. split; [reflexivity|].
    split.
    { cbn [step]. simpl timers. rewrite lookup_app_r by lia.
      rewrite Nat.sub_diag. simpl. reflexivity. }
    split; [reflexivity|]. split; [exact Hc|].
    simpl. apply delete_last_appended.
Qed.

(** C7 in [twelveTwiceGame], in the Answer phase of [player2] with 2 × 6 on
    the wheels: [player2] selects the cell 30; when the hand-over fires,
    [player1] is to spin. *)
Lemma incorrect_answer_hands_turn_witness :
  gameState (afterGame twelveTwiceGame) = PLAYER_2_ANSWER
  ∧ currentPlayer (afterGame twelveTwiceGame) = player2
  ∧ spinner1Value (afterGame twelveTwiceGame) = Some 2
  ∧ spinner2Value (afterGame twelveTwiceGame) = Some 6
  ∧ ∃ s' s'',
      handleCellClick 30 0 0 (afterGame twelveTwiceGame) = Some s'
      ∧ gameState s' = PLAYER_2_ANSWER
      ∧ step production s' (ETimer 1 0%fin) = Some s''
      ∧ gameState s'' = PLAYER_1_SPIN_1
      ∧ currentPlayer s'' = player1
      ∧ spinner1Value s'' = None ∧ spinner2Value s'' = None
      ∧ spinner1Target s'' = None ∧ spinner2Target s'' = None.
Proof.
  set (s := afterGame twelveTwiceGame).
  assert (Hg : gameState s = ANSWER player2) by by_run.
  assert (Hc : currentPlayer s = player2) by by_run.
  assert (H1 : spinner1Value s = Some 2) by by_run.
  assert (H2 : spinner2Value s = Some 6) by by_run.
  assert (Hne : getCorrectAnswer (operation (gameSettings s)) 2 6 ≠ Some 30)
    by by_run_ne.
  assert (Hnf : bool_decide (winCondition (gameSettings s) = most_on_full)
                && boardIsFull (boardState s) = false) by by_run.
  assert (Hlen : length (timers s) = 0%nat) by by_run.
  destruct (incorrect_answer_hands_turn production s player2
              30 0%nat 0%nat 2 6 0%fin Hg Hc H1 H2 Hne) as [Hpass _].
  destruct (Hpass Hnf)
    as (s' & s'' & Hclick & Hg' & _ & Hstep & Hg'' & Hc'' & Hv1 & Hv2 & Ht1 & Ht2 & _).
  rewrite Hlen in Hstep.
  split; [exact Hg|]. split; [exact Hc|]. split; [exact H1|]. split; [exact H2|].
  exists s', s''. split; [exact Hclick|]. split; [exact Hg'|]. split; [exact Hstep|].
  split; [exact Hg''|]. split; [exact Hc''|]. split; [exact Hv1|].
  split; [exact Hv2|]. split; [exact Ht1|exact Ht2].
Defined.

(** ** C10: how a game of [first_to_5] or [connect_3] ends *)

Lemma patternBoard_no_line (b : Board) :
  rectangular b 7 →
  connect3 player1 b (length b) 7 = false →
  connect3 player2 b (length b) 7 = false →
  ∀ q, ¬ threeInLine q b.
Proof.
  intros Hrect Hc1 Hc2 q Hline. apply (connect3_spec q b 7 Hrect) in Hline.
  destruct q; congruence.
Qed.

(** C10, counterexample: [patternGame] fills the board without a line of
    three for anybody.  [player2], to move, spins 4 × 7 and selects the cell
    28 at row 0, column 4, held by [player1]: the answer is correct, the cell
    changes hands, [player2] has three in the top row and the game is over;
    no hand-over is scheduled. *)
Lemma full_board_answer_can_win : ¬ full_board_hands_turn.
Proof.
  intros Hclaim.
  set (s := afterGame (patternGame ++ spinBoth 4 7)).
  set (s' := afterGame ((patternGame ++ spinBoth 4 7) ++ [ECellClick 0 4])).
  assert (Hrun : run production initialState (patternGame ++ spinBoth 4 7) = Some s)
    by by_run.
  assert (Hstep : step production s (ECellClick 0 4) = Some s') by by_run.
  assert (Hw : winCondition (gameSettings s) = connect_3) by by_run.
  assert (Hans : endsWithANSWER (gameState s) = true) by by_run.
  assert (H1 : spinner1Value s = Some 4) by by_run.
  assert (H2 : spinner2Value s = Some 7) by by_run.
  assert (Hl : boardLayout s !! 0%nat ≫= (λ line, line !! 4%nat) = Some 28) by by_run.
  assert (Hfull : boardIsFull (boardState s) = true) by by_run.
  assert (Hc1 : connect3 player1 (boardState s) (length (boardState s)) 7 = false)
    by by_run.
  assert (Hc2 : connect3 player2 (boardState s) (length (boardState s)) 7 = false)
    by by_run.
  assert (Hover : gameState s' = GAME_OVER) by by_run.
  pose proof (reachable_run _ _ _ Hrun) as Hreach.
  destruct (reachable_wfBoard _ _ Hreach) as [_ Hrect].
  assert (Hno : ∀ q, ¬ satisfiesWinCondition (winCondition (gameSettings s)) q
                       (boardState s)).
  { rewrite Hw. exact (patternBoard_no_line _ Hrect Hc1 Hc2). }
  destruct (Hclaim s s' _ _ _ _ _ Hreach (or_intror Hw) Hans H1 H2 Hl Hfull Hno Hstep)
    as [Hnot _].
  exact (Hnot Hover).
Qed.

Lemma prepareTurn_gameState settings d acc :
  gameState (prepareTurn settings d acc) = gameState acc.
Proof. unfold prepareTurn. by case_decide. Qed.

Lemma handleSpin1Start_gameState d1 d2 s s' :
  handleSpin1Start d1 d2 s = Some s' → gameState s' = gameState s.
Proof.
  unfold handleSpin1Start. destruct (isSpinning1 s); [by intros [= <-]|].
  destruct (_ && _).
  - destruct (spinner1Segments s !! _); [|done]. by intros [= <-].
  - case_decide; by intros [= <-].
Qed.

Lemma ANSWER_not_over p : ANSWER p ≠ GAME_OVER.
Proof. by destruct p. Qed.

(** A selection in an Answer phase of a game that is not [most_on_full]:
    a correct answer that completes the win condition ends the game with the
    current player as winner; every other selection leaves the phase and
    schedules [changeTurn] last. *)
Lemma handleCellClick_outcome s cellValue row col val1 val2 s' :
  winCondition (gameSettings s) ≠ most_on_full →
  endsWithANSWER (gameState s) = true →
  spinner1Value s = Some val1 →
  spinner2Value s = Some val2 →
  handleCellClick cellValue row col s = Some s' →
  (getCorrectAnswer (operation (gameSettings s)) val1 val2 = Some cellValue
   ∧ gameState s' = GAME_OVER
   ∧ winner s' = Some (currentPlayer s)
   ∧ checkWinCondition (gameSettings s) (boardState s') (currentPlayer s) s'
     = Some (true, declareWinner (currentPlayer s) s'))
  ∨ (gameState s' = gameState s
     ∧ winner s' = winner s
     ∧ ∃ pending,
         timers s' = pending ++ [TChangeTurn (currentPlayer s) (gameSettings s)]).
Proof.
  intros Hw Hans H1 H2 Hclick.
  destruct (decide (getCorrectAnswer (operation (gameSettings s)) val1 val2
                    = Some cellValue)) as [Heq|Hne].
  - rewrite (handleCellClick_correct s cellValue row col val1 val2) in Hclick by done.
    destruct (setCell row col (currentPlayer s) (boardState s)) as [nb|]; [|done].
    simpl in Hclick. rewrite (bool_decide_eq_false_2 _ Hw) in Hclick. simpl in Hclick.
    destruct (checkWinCondition _ nb _ _) as [[over acc]|] eqn:Hcheck; [|done].
    simpl in Hclick. pose proof Hcheck as Hcases.
    apply checkWinCondition_cases in Hcases
      as [(-> & ->)|[(-> & Hf & Hn & ->)|[(-> & Hc & Hn & ->)|(_ & Hm & _)]]];
      [| | |done].
    + right. injection Hclick as <-. simpl. eauto.
    + left. injection Hclick as <-. simpl. repeat split; try done.
      unfold checkWinCondition in *. destruct nb; [done|]. rewrite Hf in *.
      by rewrite decide_True by done.
    + left. injection Hclick as <-. simpl. repeat split; try done.
      unfold checkWinCondition in *. destruct Hn as (row0 & rest & -> & Hn).
      rewrite Hc in *. by rewrite Hn.
  - rewrite (handleCellClick_incorrect s cellValue row col val1 val2) in Hclick by done.
    cbv zeta in Hclick. rewrite (bool_decide_eq_false_2 _ Hw) in Hclick.
    simpl in Hclick. injection Hclick as <-. right. simpl. eauto.
Qed.

Lemma checkWinCondition_satisfied settings (b : Board) player acc acc' :
  rectangular b 7 →
  winCondition settings ≠ most_on_full →
  checkWinCondition settings b player acc = Some (true, acc') →
  satisfiesWinCondition (winCondition settings) player b.
Proof.
  intros Hrect Hw Hcheck. apply checkWinCondition_cases in Hcheck
    as [(? & _)|[(_ & -> & Hn & _)|[(_ & -> & (row0 & rest & Hb & Hn) & _)|(_ & ? & _)]]];
    try done.
  simpl. apply (connect3_spec player b 7 Hrect).
  assert (length row0 = 7%nat) as <-; [|done].
  unfold rectangular in Hrect. rewrite Hb in Hrect. by inversion Hrect.
Qed.

(** C10, amended: under [first_to_5] and [connect_3] (outside development
    mode) the machine enters GameOver only through a correct answer whose
    claim leaves the win condition satisfied for the player who answered,
    who is recorded as winner.  Every selection in an Answer phase, whatever
    the board, either is such an answer or leaves the phase as it is and
    schedules the hand-over to the other player's Spin1: the game never ends
    in a draw, also on a full board. *)
Theorem game_over_only_by_winning_claim :
  (∀ (s s' : State) (e : Event),
     reachable production s →
     winCondition (gameSettings s) = first_to_5
     ∨ winCondition (gameSettings s) = connect_3 →
     gameState s ≠ GAME_OVER →
     step production s e = Some s' →
     gameState s' = GAME_OVER →
     ∃ row col cellValue val1 val2,
       e = ECellClick row col
       ∧ boardLayout s !! row ≫= (λ line, line !! col) = Some cellValue
       ∧ endsWithANSWER (gameState s) = true
       ∧ spinner1Value s = Some val1
       ∧ spinner2Value s = Some val2
       ∧ getCorrectAnswer (operation (gameSettings s)) val1 val2 = Some cellValue
       ∧ setCell row col (currentPlayer s) (boardState s) = Some (boardState s')
       ∧ winner s' = Some (currentPlayer s)
       ∧ satisfiesWinCondition (winCondition (gameSettings s)) (currentPlayer s)
           (boardState s'))
  ∧ (∀ (s s' : State) (row col : nat) (cellValue val1 val2 : Z),
       winCondition (gameSettings s) = first_to_5
       ∨ winCondition (gameSettings s) = connect_3 →
       endsWithANSWER (gameState s) = true →
       spinner1Value s = Some val1 →
       spinner2Value s = Some val2 →
       boardLayout s !! row ≫= (λ line, line !! col) = Some cellValue →
       step production s (ECellClick row col) = Some s' →
       (gameState s' = GAME_OVER
        ∧ winner s' = Some (currentPlayer s)
        ∧ getCorrectAnswer (operation (gameSettings s)) val1 val2 = Some cellValue)
       ∨ (gameState s' = gameState s
          ∧ (∃ pending,
               timers s' = pending ++ [TChangeTurn (currentPlayer s) (gameSettings s)])
          ∧ ∀ d acc,
              gameState (runTimer (TChangeTurn (currentPlayer s) (gameSettings s)) d acc)
              = SPIN_1 (otherPlayer (currentPlayer s)))).
Proof.
  assert (Hnm : ∀ s, winCondition (gameSettings s) = first_to_5
                     ∨ winCondition (gameSettings s) = connect_3 →
                     winCondition (gameSettings s) ≠ most_on_full).
  { intros s [H|H]; by rewrite H. }
  split.
  - intros s s' e Hreach Hw Hnot Hstep Hover.
    destruct e; cbn [step] in Hstep.
    + destruct (_ && _); injection Hstep as <-; [|done].
      unfold handleGameStart in Hover. simpl in Hover. done.
    + destruct (bool_decide _); injection Hstep as <-; [|done].
      unfold handleCoinFlipComplete in Hover. simpl in Hover.
      by rewrite prepareTurn_gameState in Hover.
    + destruct (_ && _); [|by injection Hstep as <-].
      apply handleSpin1Start_gameState in Hstep. congruence.
    + destruct (spinnerSettles _ _ _); injection Hstep as <-; [|done].
      simpl in Hover. by apply SPIN_2_not_over in Hover.
    + destruct (_ && _); injection Hstep as <-; [|done].
      unfold handleSpin2Start in Hover. by destruct (isSpinning2 s).
    + destruct (spinnerSettles _ _ _); injection Hstep as <-; [|done].
      simpl in Hover. by apply ANSWER_not_over in Hover.
    + destruct (boardLayout s !! row ≫= _) as [cellValue|] eqn:Hl;
        [|by injection Hstep as <-].
      destruct (endsWithANSWER (gameState s)) eqn:Hans;
        [|rewrite handleCellClick_ignored in Hstep by auto; congruence].
      destruct (spinner1Value s) as [val1|] eqn:H1;
        [|rewrite handleCellClick_ignored in Hstep by auto; congruence].
      destruct (spinner2Value s) as [val2|] eqn:H2;
        [|rewrite handleCellClick_ignored in Hstep by auto; congruence].
      destruct (handleCellClick_outcome s cellValue row col val1 val2 s'
                  (Hnm s Hw) Hans H1 H2 Hstep)
        as [(Hok & _ & Hwin & Hcheck)|(Hsame & _)]; [|congruence].
      pose proof (handleCellClick_correct_board _ _ _ _ _ _ _ Hans H1 H2 Hok Hstep)
        as Hset.
      exists row, col, cellValue, val1, val2. repeat (split; [done|]).
      eapply checkWinCondition_satisfied; [|by apply Hnm|exact Hcheck].
      eapply setCell_rectangular; [exact Hset|]. by apply reachable_wfBoard in Hreach as [_ ?].
    + destruct (timers s !! i) as [t|]; injection Hstep as <-; [|done].
      destruct t; cbn [runTimer] in Hover.
      * simpl in Hover. by apply SPIN_1_not_over in Hover.
      * done.
      * destruct (changeTurn_result cur settings d (setTimers (delete i (timers s)) s))
          as (Hg & _). rewrite Hg in Hover. by apply SPIN_1_not_over in Hover.
    + destruct (_ && _); by injection Hstep as <-.
    + simpl in Hstep. by injection Hstep as <-.
  - intros s s' row col cellValue val1 val2 Hw Hans H1 H2 Hl Hstep.
    rewrite (step_cell_click _ _ _ _ _ Hl) in Hstep.
    destruct (handleCellClick_outcome s cellValue row col val1 val2 s'
                (Hnm s Hw) Hans H1 H2 Hstep)
      as [(Hok & Hover & Hwin & _)|(Hsame & _ & Hpending)]; [by left|].
    right. split; [done|]. split; [done|].
    intros d acc. apply (changeTurn_result (currentPlayer s) (gameSettings s) d acc).
Qed.

(** C10 at the end of [patternGame]: the correct answer 4 × 7 of [player2]
    on the cell 28 ends the game with [player2] as winner, three in the top
    row. *)
Lemma game_over_only_by_winning_claim_witness :
  ∃ s',
    step production (afterGame (patternGame ++ spinBoth 4 7)) (ECellClick 0 4) = Some s'
    ∧ gameState s' = GAME_OVER
    ∧ winner s' = Some player2
    ∧ threeInLine player2 (boardState s').
Proof.
  set (s := afterGame (patternGame ++ spinBoth 4 7)).
  set (s' := afterGame ((patternGame ++ spinBoth 4 7) ++ [ECellClick 0 4])).
  assert (Hrun : run production initialState (patternGame ++ spinBoth 4 7) = Some s)
    by by_run.
  assert (Hstep : step production s (ECellClick 0 4) = Some s') by by_run.
  assert (Hover : gameState s' = GAME_OVER) by by_run.
  assert (Hw : winCondition (gameSettings s) = connect_3) by by_run.
  assert (Hc : currentPlayer s = player2) by by_run.
  assert (Hnot : gameState s ≠ GAME_OVER) by by_run_ne.
  destruct game_over_only_by_winning_claim as [Honly _].
  destruct (Honly s s' _ (reachable_run _ _ _ Hrun) (or_intror Hw) Hnot Hstep Hover)
    as (row & col & cv & v1 & v2 & _ & _ & _ & _ & _ & _ & _ & Hwin & Hsat).
  rewrite Hw in Hsat. rewrite Hc in Hwin, Hsat.
  exists s'. split; [exact Hstep|]. split; [exact Hover|]. split; [exact Hwin|exact Hsat].
Defined.

(** ** C4: rounds of the division *)

(** States are compared field by field. *)
Lemma State_ext (s s' : State) :
  gameState s = gameState s' →
  currentPlayer s = currentPlayer s' →
  gameSettings s = gameSettings s' →
  message s = message s' →
  isSpinning1 s = isSpinning1 s' →
  isSpinning2 s = isSpinning2 s' →
  spinner1Value s = spinner1Value s' →
  spinner2Value s = spinner2Value s' →
  winner s = winner s' →
  spinner1Target s = spinner1Target s' →
  spinner2Target s = spinner2Target s' →
  boardLayout s = boardLayout s' →
  spinner1Segments s = spinner1Segments s' →
  divisionTableNumber s = divisionTableNumber s' →
  boardState s = boardState s' →
  flashingCell s = flashingCell s' →
  timers s = timers s' →
  s = s'.
Proof. destruct s, s'. simpl. by intros -> -> -> -> -> -> -> -> -> -> -> -> -> -> -> -> ->. Qed.

Lemma run_step mode s e s' es :
  step mode s e = Some s' → run mode s (e :: es) = run mode s' es.
Proof. intros H. simpl. by rewrite H. Qed.

Lemma handleSpin2Start_idle s :
  isSpinning2 s = false →
  handleSpin2Start s = s |> setMessage MsgSpinning |> setIsSpinning2 true.
Proof. intros H. unfold handleSpin2Start. by rewrite H. Qed.

(** Once the left wheel's click has chosen targets that are on the wheels,
    the four events lead to the Answer phase with these operands. *)
Lemma wheels_settle mode s0 p d1 d2 a b :
  currentPlayer s0 = p →
  gameState s0 = SPIN_1 p →
  isSpinning2 s0 = false →
  handleSpin1Start d1 d2 s0
  = Some (s0 |> setSpinner1Target (Some a) |> setSpinner2Target (Some b)
             |> setMessage MsgSpinning |> setIsSpinning1 true) →
  memZ a (v <$> spinner1Segments s0) = true →
  memZ b (v <$> DEFAULT_SPINNER_SEGMENTS) = true →
  run mode s0 (spinEvents d1 d2)
  = Some (s0 |> setSpinner1Target (Some a) |> setSpinner2Target (Some b)
             |> setIsSpinning1 false |> setSpinner1Value (Some a)
             |> setIsSpinning2 false |> setSpinner2Value (Some b)
             |> setGameState (ANSWER p)
             |> setMessage (MsgQuestion (Some a) (operation (gameSettings s0)) b)).
Proof.
  intros Hc Hg Hsp2 Hstart Ha Hb. unfold spinEvents.
  rewrite <- (step_spin1_click mode s0 d1 d2 p Hc Hg) in Hstart.
  rewrite (run_step _ _ _ _ _ Hstart). clear Hstart.
  destruct s0 as [gs cp st ms sp1 sp2 v1 v2 w t1 t2 bl sg dt bs fc tm].
  simpl in Hc, Hg, Hsp2, Ha. subst cp gs sp2.
  match goal with |- run _ ?s1 _ = _ =>
    rewrite (run_step _ _ _ _ _ (step_spin1_settled mode s1 a eq_refl eq_refl Ha))
  end.
  match goal with |- run _ ?s2 _ = _ =>
    rewrite (run_step _ _ _ _ _ (step_spin2_click mode s2 p eq_refl eq_refl));
    rewrite (handleSpin2Start_idle s2 eq_refl)
  end.
  match goal with |- run _ ?s3 _ = _ =>
    rewrite (run_step _ _ _ _ _ (step_spin2_settled mode s3 b eq_refl eq_refl Hb))
  end.
  cbn [run]. apply (f_equal Some). apply State_ext; simpl; reflexivity.
Qed.

(** The left wheel goes with the table number in every state of a game. *)
Lemma wheelOfTable_frame s s' :
  wheelOfTable s →
  divisionTableNumber s' = divisionTableNumber s →
  spinner1Segments s' = spinner1Segments s →
  wheelOfTable s'.
Proof. unfold wheelOfTable. by intros ? -> ->. Qed.

Lemma prepareTurn_wheelOfTable settings d acc : wheelOfTable (prepareTurn settings d acc).
Proof.
  unfold prepareTurn, wheelOfTable. pose proof (rand10_range d).
  case_decide; simpl; [split; [lia|reflexivity]|reflexivity].
Qed.

Lemma checkWinCondition_wheel settings b player acc r acc' :
  checkWinCondition settings b player acc = Some (r, acc') →
  divisionTableNumber acc' = divisionTableNumber acc
  ∧ spinner1Segments acc' = spinner1Segments acc.
Proof.
  intros H. apply checkWinCondition_cases in H
    as [(_ & ->)|[(_ & _ & _ & ->)|[(_ & _ & _ & ->)|(_ & _ & _ & ->)]]]; done.
Qed.

Lemma handleSpin1Start_wheel d1 d2 s s' :
  handleSpin1Start d1 d2 s = Some s' →
  divisionTableNumber s' = divisionTableNumber s
  ∧ spinner1Segments s' = spinner1Segments s.
Proof.
  unfold handleSpin1Start. destruct (isSpinning1 s); [by intros [= <-]|].
  destruct (_ && _).
  - destruct (spinner1Segments s !! _); [|done]. by intros [= <-].
  - case_decide; by intros [= <-].
Qed.

Lemma handleCellClick_wheel s cellValue row col s' :
  handleCellClick cellValue row col s = Some s' →
  divisionTableNumber s' = divisionTableNumber s
  ∧ spinner1Segments s' = spinner1Segments s.
Proof.
  intros Hclick.
  destruct (endsWithANSWER (gameState s)) eqn:Hans;
    [|rewrite handleCellClick_ignored in Hclick by auto; by injection Hclick as <-].
  destruct (spinner1Value s) as [val1|] eqn:H1;
    [|rewrite handleCellClick_ignored in Hclick by auto; by injection Hclick as <-].
  destruct (spinner2Value s) as [val2|] eqn:H2;
    [|rewrite handleCellClick_ignored in Hclick by auto; by injection Hclick as <-].
  destruct (decide (getCorrectAnswer (operation (gameSettings s)) val1 val2
                    = Some cellValue)) as [Heq|Hne].
  - rewrite (handleCellClick_correct s cellValue row col val1 val2) in Hclick by done.
    destruct (setCell row col (currentPlayer s) (boardState s)) as [nb|]; [|done].
    simpl in Hclick.
    destruct (checkWinCondition _ nb _ _) as [[over acc]|] eqn:Hcheck; [|done].
    apply checkWinCondition_wheel in Hcheck as [Ht Hs]. simpl in Ht, Hs, Hclick.
    destruct over; [by injection Hclick as <-|].
    destruct (_ && _).
    + destruct (checkWinCondition _ (boardState s) _ acc) as [[over2 acc2]|] eqn:Hc2;
        [|done].
      apply checkWinCondition_wheel in Hc2 as [Ht2 Hs2]. injection Hclick as <-.
      simpl. by rewrite Ht2, Hs2.
    + by injection Hclick as <-.
  - rewrite (handleCellClick_incorrect s cellValue row col val1 val2) in Hclick by done.
    cbv zeta in Hclick. destruct (_ && _).
    + destruct (checkWinCondition _ _ _ _) as [[over acc]|] eqn:Hcheck; [|done].
      apply checkWinCondition_wheel in Hcheck as [Ht Hs]. injection Hclick as <-.
      simpl. by rewrite Ht, Hs.
    + by injection Hclick as <-.
Qed.

Lemma runTimer_wheelOfTable t d acc :
  wheelOfTable acc → wheelOfTable (runTimer t d acc).
Proof.
  intros Hinv. destruct t; simpl.
  - by apply (wheelOfTable_frame acc).
  - by apply (wheelOfTable_frame acc).
  - unfold changeTurn.
    match goal with |- context [prepareTurn ?g ?e ?a] =>
      apply (wheelOfTable_frame (prepareTurn g e a));
        [apply prepareTurn_wheelOfTable|done|done]
    end.
Qed.

Lemma step_wheelOfTable mode s e s' :
  wheelOfTable s → step mode s e = Some s' → wheelOfTable s'.
Proof.
  intros Hinv. destruct e; cbn [step].
  - destruct (_ && _); intros [= <-]; [|done]. unfold handleGameStart.
    match goal with |- context [prepareTurn ?g ?e ?a] =>
      apply (wheelOfTable_frame (prepareTurn g e a));
        [apply prepareTurn_wheelOfTable|done|done]
    end.
  - destruct (bool_decide _); intros [= <-]; [|done]. unfold handleCoinFlipComplete.
    match goal with |- context [prepareTurn ?g ?e ?a] =>
      apply (wheelOfTable_frame (prepareTurn g e a));
        [apply prepareTurn_wheelOfTable|done|done]
    end.
  - destruct (_ && _); [|by intros [= <-]].
    intros [Ht Hs]%handleSpin1Start_wheel. by apply (wheelOfTable_frame s).
  - destruct (spinnerSettles _ _ _); intros [= <-]; [|done].
    by apply (wheelOfTable_frame s).
  - destruct (_ && _); intros [= <-]; [|done].
    unfold handleSpin2Start. destruct (isSpinning2 s); [done|].
    by apply (wheelOfTable_frame s).
  - destruct (spinnerSettles _ _ _); intros [= <-]; [|done].
    by apply (wheelOfTable_frame s).
  - destruct (boardLayout s !! row ≫= _) as [cellValue|]; [|by intros [= <-]].
    intros [Ht Hs]%handleCellClick_wheel. by apply (wheelOfTable_frame s).
  - destruct (timers s !! i); intros [= <-]; [|done].
    apply runTimer_wheelOfTable. by apply (wheelOfTable_frame s).
  - destruct (_ && _); intros [= <-]; [|done]. reflexivity.
  - destruct (_ && _); intros [= <-]; [|done]. by apply (wheelOfTable_frame s).
Qed.

Lemma reachable_wheelOfTable mode s : reachable mode s → wheelOfTable s.
Proof.
  intros [es Hrun].
  assert (H : ∀ s0, wheelOfTable s0 → run mode s0 es = Some s → wheelOfTable s).
  { clear Hrun. induction es as [|e es IH]; intros s0 Hinv; simpl; [by intros [= <-]|].
    destruct (step mode s0 e) as [s1|] eqn:Hstep; [|done]. simpl.
    apply IH. by eapply step_wheelOfTable. }
  apply (H initialState); [reflexivity|exact Hrun].
Qed.

(** The left wheel's click in a game of divisions without table number:
    the guard [divisionTableNumber] fails and two numbers are drawn. *)
Lemma handleSpin1Start_no_table s d1 d2 :
  isSpinning1 s = false →
  operation (gameSettings s) = OpDivide →
  divisionTableNumber s = None →
  handleSpin1Start d1 d2 s
  = Some (s |> setSpinner1Target (Some (rand10 d1 + 1))
            |> setSpinner2Target (Some (rand10 d2 + 1))
            |> setMessage MsgSpinning
            |> setIsSpinning1 true).
Proof. intros Hs Hop Ht. unfold handleSpin1Start. by rewrite Hs, Hop, Ht. Qed.

(** C4, counterexample: [staleHandOverGame] ends in an Answer phase of a
    game of divisions with 7 ÷ 2 on the wheels and no table number: timers
    are never cancelled, and the hand-over scheduled in the game of
    multiplications before prepared the turn for the multiplication. *)
Lemma stale_handover_breaks_division : ¬ division_rounds_exact.
Proof.
  intros Hclaim.
  set (s := afterGame staleHandOverGame).
  assert (Hrun : run production initialState staleHandOverGame = Some s) by by_run.
  assert (Hop : operation (gameSettings s) = OpDivide) by by_run.
  assert (Hans : endsWithANSWER (gameState s) = true) by by_run.
  assert (H1 : spinner1Value s = Some 7) by by_run.
  assert (H2 : spinner2Value s = Some 2) by by_run.
  destruct (Hclaim s 7 2 (reachable_run _ _ _ Hrun) Hop Hans H1 H2) as (_ & Hrem & _).
  vm_compute in Hrem. discriminate Hrem.
Qed.

(** C4, amended: in a game of divisions, a turn that has a table number [t]
    runs as specified.  [t] lies in 1..10; the click on the left wheel
    chooses the dividend [t * m] with [m] drawn in 1..10 and the divisor
    [t]; both wheels settle on these; the table number and the right
    wheel's target stay [t] through the four events; the Answer phase holds
    [operand1 = t * m], [operand2 = t], [operand1 % operand2 = 0], and the
    expected result is [m].  The table number is drawn anew by every turn
    start that runs under the division: the coin flip in a game of
    divisions, and a [changeTurn] scheduled under division settings.  A
    [changeTurn] scheduled under another operation leaves no table number;
    in such a turn of a game of divisions the guard of [handleSpin1Start]
    fails, and the wheels settle on two independent draws from 1..10. *)
Theorem division_round (mode : Mode) (s0 : State) (p : Player) (d1 d2 : Draw) :
  reachable mode s0 →
  operation (gameSettings s0) = OpDivide →
  gameState s0 = SPIN_1 p →
  currentPlayer s0 = p →
  isSpinning1 s0 = false →
  isSpinning2 s0 = false →
  let m := rand10 d1 + 1 in
  (∀ t, divisionTableNumber s0 = Some t →
     1 ≤ t ≤ 10 ∧ 1 ≤ m ≤ 10
     ∧ ∃ s1 s2 s3 s4,
         step mode s0 (ESpin1Click d1 d2) = Some s1
         ∧ step mode s1 ESpin1Settled = Some s2
         ∧ step mode s2 ESpin2Click = Some s3
         ∧ step mode s3 ESpin2Settled = Some s4
         ∧ spinner1Target s1 = Some (t * m)
         ∧ Forall (λ s, divisionTableNumber s = Some t ∧ spinner2Target s = Some t)
             [s1; s2; s3; s4]
         ∧ gameState s4 = ANSWER p
         ∧ spinner1Value s4 = Some (t * m)
         ∧ spinner2Value s4 = Some t
         ∧ js_rem (t * m) t = Some 0
         ∧ getCorrectAnswer (operation (gameSettings s4)) (t * m) t = Some m)
  ∧ (divisionTableNumber s0 = None →
     ∃ s4,
       run mode s0 (spinEvents d1 d2) = Some s4
       ∧ gameState s4 = ANSWER p
       ∧ spinner1Value s4 = Some (rand10 d1 + 1)
       ∧ spinner2Value s4 = Some (rand10 d2 + 1)
       ∧ divisionTableNumber s4 = None)
  ∧ (∀ (result : CoinFace) (d0 : Draw) (acc : State),
       operation (gameSettings acc) = OpDivide →
       divisionTableNumber (handleCoinFlipComplete result d0 acc)
       = Some (rand10 d0 + 1))
  ∧ (∀ (settings : GameSettings) (cur : Player) (d0 : Draw) (acc : State),
       gameState (changeTurn cur settings d0 acc) = SPIN_1 (otherPlayer cur)
       ∧ (operation settings = OpDivide →
          divisionTableNumber (changeTurn cur settings d0 acc) = Some (rand10 d0 + 1))
       ∧ (operation settings ≠ OpDivide →
          divisionTableNumber (changeTurn cur settings d0 acc) = None)).
Proof.
  intros Hreach Hop Hgs Hcur Hsp1 Hsp2 m.
  pose proof (reachable_wheelOfTable mode s0 Hreach) as Hinv.
  pose proof (rand10_range d1). pose proof (rand10_range d2).
  assert (Hm : 1 ≤ m ≤ 10) by (subst m; lia).
  split; [|split; [|split]].
  - intros t Htab. unfold wheelOfTable in Hinv. rewrite Htab in Hinv.
    destruct Hinv as [Ht Hseg].
    split; [done|]. split; [done|].
    set (s1 := s0 |> setSpinner1Target (Some (t * m))
                  |> setSpinner2Target (Some t)
                  |> setMessage MsgSpinning
                  |> setIsSpinning1 true).
    set (s2 := handleSpin1End (t * m) s1).
    set (s3 := handleSpin2Start s2).
    set (s4 := handleSpin2End t s3).
    exists s1, s2, s3, s4.
    split.
    { rewrite (step_spin1_click mode s0 d1 d2 p) by done.
      apply (handleSpin1Start_divide s0 d1 d2 t); try done. lia. }
    split.
    { apply step_spin1_settled; try done. simpl. rewrite Hseg.
      by apply table_multiple_on_wheel. }
    split.
    { apply (step_spin2_click mode s2 p); simpl; by rewrite ?Hcur. }
    assert (Hs3 : s3 = s2 |> setMessage MsgSpinning |> setIsSpinning2 true).
    { subst s3. unfold handleSpin2Start. simpl. by rewrite Hsp2. }
    split.
    { apply step_spin2_settled; [by rewrite Hs3|by rewrite Hs3|].
      by apply table_on_right_wheel. }
    split; [done|].
    split.
    { subst s4. rewrite Hs3. subst s2 s1.
      repeat (constructor; [split; simpl; [exact Htab|reflexivity]|]). constructor. }
    subst s4. rewrite Hs3. subst s2 s1. simpl. rewrite Hcur, Hop.
    split; [done|]. split; [done|]. split; [done|].
    assert (Hrem : js_rem (t * m) t = Some 0).
    { unfold js_rem. rewrite decide_False by lia.
      by rewrite (Z.mul_comm t m), Z.rem_mul by lia. }
    split; [done|]. unfold getCorrectAnswer.
    rewrite Hrem, (Z.mul_comm t m), Z.quot_mul by lia. done.
  - intros Htab. unfold wheelOfTable in Hinv. rewrite Htab in Hinv.
    eexists. split.
    { apply (wheels_settle mode s0 p d1 d2); try done.
      - by apply handleSpin1Start_no_table.
      - rewrite Hinv. apply table_on_right_wheel. lia.
      - apply table_on_right_wheel. lia. }
    simpl. by rewrite Htab.
  - intros result d0 acc Hacc. unfold handleCoinFlipComplete.
    by rewrite prepareTurn_divide.
  - intros settings cur d0 acc. split; [apply changeTurn_result|]. split.
    + intros Hs. unfold changeTurn. by rewrite prepareTurn_divide.
    + intros Hs. unfold changeTurn. by rewrite prepareTurn_other.
Qed.

(** C4 on two turns of [player2] in games of divisions.  After
    [divisionOpening] the table number is 7, and the draw 3 on the left
    wheel gives 28 ÷ 7, whose answer is 4.  After the stale hand-over of
    [staleHandOverGame] there is no table number, and the draws 6 and 1
    give 7 ÷ 2. *)
Lemma division_round_witness :
  (reachable production (afterGame divisionOpening)
   ∧ divisionTableNumber (afterGame divisionOpening) = Some 7
   ∧ ∃ s1 s2 s3 s4,
       step production (afterGame divisionOpening) (ESpin1Click (drawOf 3) (drawOf 0))
       = Some s1
       ∧ step production s1 ESpin1Settled = Some s2
       ∧ step production s2 ESpin2Click = Some s3
       ∧ step production s3 ESpin2Settled = Some s4
       ∧ gameState s4 = PLAYER_2_ANSWER
       ∧ spinner1Value s4 = Some 28
       ∧ spinner2Value s4 = Some 7
       ∧ divisionTableNumber s4 = Some 7
       ∧ getCorrectAnswer (operation (gameSettings s4)) 28 7 = Some 4)
  ∧ (reachable production
       (afterGame (hastyWinGame
                   ++ [ERestart; EGameStart divisionSettings 0%fin; ETimer 1 0%fin]))
     ∧ ∃ s4,
         run production
           (afterGame (hastyWinGame
                       ++ [ERestart; EGameStart divisionSettings 0%fin; ETimer 1 0%fin]))
           (spinEvents (drawOf 6) (drawOf 1)) = Some s4
         ∧ gameState s4 = PLAYER_2_ANSWER
         ∧ spinner1Value s4 = Some 7
         ∧ spinner2Value s4 = Some 2
         ∧ divisionTableNumber s4 = None).
Proof.
  split.
  - set (s0 := afterGame divisionOpening).
    assert (Hrun : run production initialState divisionOpening = Some s0) by by_run.
    assert (Hop : operation (gameSettings s0) = OpDivide) by by_run.
    assert (Hg : gameState s0 = SPIN_1 player2) by by_run.
    assert (Hc : currentPlayer s0 = player2) by by_run.
    assert (Hs1 : isSpinning1 s0 = false) by by_run.
    assert (Hs2 : isSpinning2 s0 = false) by by_run.
    assert (Htab : divisionTableNumber s0 = Some 7) by by_run.
    destruct (division_round production s0 player2 (drawOf 3) (drawOf 0)
                (reachable_run _ _ _ Hrun) Hop Hg Hc Hs1 Hs2) as [Hround _].
    destruct (Hround 7 Htab)
      as (_ & _ & s1 & s2 & s3 & s4 & St1 & St2 & St3 & St4 & _ & Hall & Hg4 & H1 & H2
          & _ & Hans).
    split; [exact (reachable_run _ _ _ Hrun)|]. split; [exact Htab|].
    exists s1, s2, s3, s4. split; [exact St1|]. split; [exact St2|].
    split; [exact St3|]. split; [exact St4|]. split; [exact Hg4|].
    split; [exact H1|]. split; [exact H2|]. split; [|exact Hans].
    inversion Hall as [|? ? _ Hall1]. inversion Hall1 as [|? ? _ Hall2].
    inversion Hall2 as [|? ? _ Hall3]. inversion Hall3 as [|? ? [Ht _] _]. exact Ht.
  - set (es := hastyWinGame
               ++ [ERestart; EGameStart divisionSettings 0%fin; ETimer 1 0%fin]).
    set (s0 := afterGame es).
    assert (Hrun : run production initialState es = Some s0) by by_run.
    assert (Hop : operation (gameSettings s0) = OpDivide) by by_run.
    assert (Hg : gameState s0 = SPIN_1 player2) by by_run.
    assert (Hc : currentPlayer s0 = player2) by by_run.
    assert (Hs1 : isSpinning1 s0 = false) by by_run.
    assert (Hs2 : isSpinning2 s0 = false) by by_run.
    assert (Htab : divisionTableNumber s0 = None) by by_run.
    destruct (division_round production s0 player2 (drawOf 6) (drawOf 1)
                (reachable_run _ _ _ Hrun) Hop Hg Hc Hs1 Hs2) as (_ & Hfree & _).
    destruct (Hfree Htab) as (s4 & Hrun4 & Hg4 & H1 & H2 & Ht4).
    split; [exact (reachable_run _ _ _ Hrun)|].
    exists s4. split; [exact Hrun4|]. split; [exact Hg4|]. split; [exact H1|].
    split; [exact H2|exact Ht4].
Defined.

(** * Further properties of the code *)

(** ** The handlers never throw *)

Lemma checkWinCondition_frame settings b player acc r acc' :
  checkWinCondition settings b player acc = Some (r, acc') →
  boardLayout acc' = boardLayout acc
  ∧ spinner1Segments acc' = spinner1Segments acc
  ∧ timers acc' = timers acc
  ∧ flashingCell acc' = flashingCell acc.
Proof.
  intros H. apply checkWinCondition_cases in H
    as [(_ & ->)|[(_ & _ & _ & ->)|[(_ & _ & _ & ->)|(_ & _ & _ & ->)]]]; done.
Qed.

Lemma checkWinCondition_total settings (b : Board) player acc :
  b ≠ [] → ∃ r acc', checkWinCondition settings b player acc = Some (r, acc').
Proof.
  intros Hb. unfold checkWinCondition. destruct b as [|row0 rest]; [done|].
  destruct (winCondition settings).
  - case_decide; eauto.
  - destruct (connect3 _ _ _ _); eauto.
  - destruct (boardIsFull _); eauto.
Qed.

Lemma wfBoard_nonempty (b : Board) : wfBoard b → b ≠ [].
Proof. intros [Hlen _] ->. done. Qed.

Lemma layout_lookup_bounds op row col x :
  PREDEFINED_BOARDS op !! row ≫= (λ line, line !! col) = Some x →
  (row < 6)%nat ∧ (col < 7)%nat.
Proof.
  destruct (layout_shape op) as [Hlen Hrows].
  destruct (PREDEFINED_BOARDS op !! row) as [line|] eqn:Hl; [|done]. simpl.
  intros Hc. split.
  - apply lookup_lt_Some in Hl. lia.
  - apply lookup_lt_Some in Hc. rewrite Forall_lookup in Hrows.
    by rewrite <- (Hrows row line Hl).
Qed.

Lemma setCell_total (b : Board) row col p :
  wfBoard b → (row < 6)%nat → (col < 7)%nat → ∃ b', setCell row col p b = Some b'.
Proof.
  intros [Hlen Hrect] Hr Hc. unfold setCell.
  destruct (lookup_lt_is_Some_2 b row) as [line Hl]; [lia|]. rewrite Hl. simpl.
  unfold rectangular in Hrect. rewrite Forall_lookup in Hrect.
  rewrite (Hrect row line Hl). rewrite decide_True by done. eauto.
Qed.

Lemma setCell_wfBoard (b b' : Board) row col p :
  setCell row col p b = Some b' → wfBoard b → wfBoard b'.
Proof.
  intros Hset [Hlen Hrect]. split.
  - by rewrite (setCell_length _ _ _ _ _ Hset).
  - by eapply setCell_rectangular.
Qed.

(** A selection of a cell of the board returns, and keeps layout and left
    wheel. *)
Lemma handleCellClick_total s cellValue row col :
  wfBoard (boardState s) → (row < 6)%nat → (col < 7)%nat →
  ∃ s', handleCellClick cellValue row col s = Some s'
        ∧ boardLayout s' = boardLayout s
        ∧ spinner1Segments s' = spinner1Segments s.
Proof.
  intros Hwf Hr Hc.
  destruct (endsWithANSWER (gameState s)) eqn:Hans;
    [|rewrite handleCellClick_ignored by auto; eauto].
  destruct (spinner1Value s) as [val1|] eqn:H1;
    [|rewrite handleCellClick_ignored by auto; eauto].
  destruct (spinner2Value s) as [val2|] eqn:H2;
    [|rewrite handleCellClick_ignored by auto; eauto].
  pose proof (wfBoard_nonempty _ Hwf) as Hne.
  destruct (decide (getCorrectAnswer (operation (gameSettings s)) val1 val2
                    = Some cellValue)) as [Heq|Hneq].
  - rewrite (handleCellClick_correct s cellValue row col val1 val2) by done.
    destruct (setCell_total (boardState s) row col (currentPlayer s) Hwf Hr Hc)
      as [nb Hset].
    rewrite Hset. cbn [mbind option_bind].
    assert (nb ≠ []) as Hnb
      by (apply wfBoard_nonempty; by eapply setCell_wfBoard).
    match goal with |- context [checkWinCondition ?g nb ?p ?a] =>
      destruct (checkWinCondition_total g nb p a Hnb) as (over & acc & Hcheck)
    end.
    rewrite Hcheck. cbn [mbind option_bind].
    destruct (checkWinCondition_frame _ _ _ _ _ _ Hcheck) as (Hl & Hs & _).
    destruct over; [by exists acc|].
    destruct (_ && _).
    + destruct (checkWinCondition_total (gameSettings s) (boardState s)
                  (currentPlayer s) acc Hne) as (over2 & acc2 & Hc2).
      rewrite Hc2. destruct (checkWinCondition_frame _ _ _ _ _ _ Hc2) as (Hl2 & Hs2 & _).
      exists acc2. simpl. split; [done|]. by rewrite Hl2, Hs2, Hl, Hs.
    + eexists. split; [done|]. simpl. by rewrite Hl, Hs.
  - rewrite (handleCellClick_incorrect s cellValue row col val1 val2) by done.
    cbv zeta. destruct (_ && _).
    + match goal with |- context [checkWinCondition ?g ?b ?p ?a] =>
        destruct (checkWinCondition_total g b p a Hne) as (over & acc & Hcheck)
      end.
      rewrite Hcheck. destruct (checkWinCondition_frame _ _ _ _ _ _ Hcheck) as (Hl & Hs & _).
      exists acc. simpl. split; [done|]. by rewrite Hl, Hs.
    + eexists. split; [done|]. done.
Qed.

(** A state that differs from a well-formed one in neither board nor
    layout nor left wheel is well-formed. *)
Lemma wfState_frame s s' :
  wfState s →
  boardState s' = boardState s →
  boardLayout s' = boardLayout s →
  spinner1Segments s' = spinner1Segments s →
  wfState s'.
Proof. unfold wfState. by intros ? -> -> ->. Qed.

Lemma prepareTurn_wfState settings d acc :
  wfState acc → wfState (prepareTurn settings d acc).
Proof.
  intros (Hb & Hl & Hs). unfold prepareTurn.
  case_decide; (split; [exact Hb|]); (split; [exact Hl|]); reflexivity.
Qed.

Lemma handleSpin1Start_total d1 d2 s :
  wfState s → ∃ s', handleSpin1Start d1 d2 s = Some s' ∧ wfState s'.
Proof.
  intros Hwf. pose proof Hwf as (Hb & Hl & Hs). unfold handleSpin1Start.
  destruct (isSpinning1 s); [by eauto|].
  destruct (_ && _).
  - destruct (lookup_lt_is_Some_2 (spinner1Segments s) (fin_to_nat d1)) as [seg Hseg].
    { rewrite Hs. apply fin_to_nat_lt. }
    rewrite Hseg. simpl. eexists. split; [done|]. by apply (wfState_frame s).
  - case_decide; simpl; eexists; (split; [done|]); by apply (wfState_frame s).
Qed.

Lemma runTimer_wfState t d acc : wfState acc → wfState (runTimer t d acc).
Proof.
  intros Hwf. destruct t; simpl.
  - by apply (wfState_frame acc).
  - by apply (wfState_frame acc).
  - unfold changeTurn.
    match goal with |- context [prepareTurn ?g ?e ?a] =>
      assert (wfState (prepareTurn g e a)) as Hp
        by (apply prepareTurn_wfState; by apply (wfState_frame acc));
      by apply (wfState_frame (prepareTurn g e a))
    end.
Qed.

Lemma initialState_wfState : wfState initialState.
Proof. split; [apply initialBoardState_wf|]. split; [by exists OpTimes|done]. Qed.

(** Every event is handled in a well-formed state, and leaves one. *)
Lemma step_total mode s e :
  wfState s → ∃ s', step mode s e = Some s' ∧ wfState s'.
Proof.
  intros Hwf. pose proof Hwf as (Hb & [op Hl] & Hs). destruct e; cbn [step].
  - destruct (_ && _); [|by eauto]. eexists. split; [done|].
    unfold handleGameStart.
    match goal with |- context [prepareTurn ?g ?e ?a] =>
      assert (wfState (prepareTurn g e a)) as Hp;
        [|by apply (wfState_frame (prepareTurn g e a))]
    end.
    apply prepareTurn_wfState. split; [exact Hb|]. split; [simpl; eauto|exact Hs].
  - destruct (bool_decide _); [|by eauto]. eexists. split; [done|].
    unfold handleCoinFlipComplete.
    match goal with |- context [prepareTurn ?g ?e ?a] =>
      assert (wfState (prepareTurn g e a)) as Hp
        by (apply prepareTurn_wfState; by apply (wfState_frame s));
      by apply (wfState_frame (prepareTurn g e a))
    end.
  - destruct (_ && _); [|by eauto]. by apply handleSpin1Start_total.
  - destruct (spinnerSettles _ _ _); [|by eauto]. eexists. split; [done|].
    by apply (wfState_frame s).
  - destruct (_ && _); [|by eauto]. eexists. split; [done|].
    unfold handleSpin2Start. destruct (isSpinning2 s); [done|].
    by apply (wfState_frame s).
  - destruct (spinnerSettles _ _ _); [|by eauto]. eexists. split; [done|].
    by apply (wfState_frame s).
  - destruct (boardLayout s !! row ≫= _) as [cellValue|] eqn:Hcell; [|by eauto].
    rewrite Hl in Hcell. apply layout_lookup_bounds in Hcell as [Hr Hc].
    destruct (handleCellClick_total s cellValue row col Hb Hr Hc) as (s' & Hs' & Hl' & Hseg').
    exists s'. split; [done|]. split; [|split].
    + apply handleCellClick_board in Hs' as [->|(v1 & v2 & _ & _ & _ & _ & Hset)]; [done|].
      by eapply setCell_wfBoard.
    + rewrite Hl'. eauto.
    + by rewrite Hseg'.
  - destruct (timers s !! i) as [t|]; [|by eauto]. eexists. split; [done|].
    apply runTimer_wfState. by apply (wfState_frame s).
  - destruct (_ && _); [|by eauto]. eexists. split; [done|].
    split; [apply initialBoardState_wf|]. split; [simpl; eauto|reflexivity].
  - destruct (_ && _); [|by eauto]. eexists. split; [done|].
    by apply (wfState_frame s).
Qed.

(** X1: no sequence of events makes a handler throw: every game, whatever
    the clicks, draws and timer expiries, ends in a state, with a board of 6
    rows of 7 cells, one of the four predefined layouts and ten segments on
    the left wheel. *)
Theorem handlers_never_throw (mode : Mode) (es : list Event) :
  ∃ s, run mode initialState es = Some s ∧ wfState s.
Proof.
  assert (H : ∀ s, wfState s → ∃ s', run mode s es = Some s' ∧ wfState s').
  { induction es as [|e es IH]; intros s Hwf; simpl; [by eauto|].
    destruct (step_total mode s e Hwf) as (s1 & Hstep & Hwf1).
    rewrite Hstep. simpl. by apply IH. }
  apply H, initialState_wfState.
Qed.

(** ** [first_to_5] *)

(** X2: under [first_to_5] the win evaluation declares [player] the winner
    exactly when [player] owns five cells or more, wherever they lie and
    whatever the other player owns; with four or fewer it returns [false]
    and writes nothing. *)
Theorem first_to_5_evaluation (settings : GameSettings) (b : Board)
    (player : Player) (acc : State) :
  winCondition settings = first_to_5 →
  b ≠ [] →
  ((5 ≤ countCells player b)%nat ↔
     checkWinCondition settings b player acc = Some (true, declareWinner player acc))
  ∧ ((countCells player b < 5)%nat ↔
       checkWinCondition settings b player acc = Some (false, acc)).
Proof.
  intros Hw Hb. unfold checkWinCondition. destruct b as [|row0 rest] eqn:Eb; [done|].
  rewrite Hw, <- Eb. case_decide; split; split; intros; try done; lia.
Qed.

Lemma first_to_5_evaluation_witness :
  checkWinCondition (exampleSettings first_to_5) fiveCellsBoard player1 initialState
  = Some (true, declareWinner player1 initialState)
  ∧ checkWinCondition (exampleSettings first_to_5) fiveCellsBoard player2 initialState
    = Some (false, initialState).
Proof.
  assert (Hne : fiveCellsBoard ≠ []) by discriminate.
  split.
  - apply (first_to_5_evaluation (exampleSettings first_to_5) fiveCellsBoard player1
             initialState eq_refl Hne).
    vm_compute. lia.
  - apply (first_to_5_evaluation (exampleSettings first_to_5) fiveCellsBoard player2
             initialState eq_refl Hne).
    vm_compute. lia.
Defined.

(** ** Rounds and the layout *)

Lemma concat_lookup_inj {A} (ll : list (list A)) i j i' j' l l' x :
  NoDup (concat ll) →
  ll !! i = Some l → l !! j = Some x →
  ll !! i' = Some l' → l' !! j' = Some x →
  i = i' ∧ j = j'.
Proof.
  revert i i'. induction ll as [|l0 ll IH]; intros i i' Hnd Hi Hj Hi' Hj'; [done|].
  simpl in Hnd. apply NoDup_app in Hnd as (Hnd0 & Hdisj & Hndr).
  assert (Hin : ∀ k m y, ll !! k = Some m → y ∈ m → y ∈ concat ll).
  { intros k m y Hk Hy. apply list_elem_of_In, in_concat. exists m.
    split; apply list_elem_of_In; [by eapply list_elem_of_lookup_2|done]. }
  destruct i as [|i], i' as [|i']; simpl in Hi, Hi'.
  - injection Hi as <-. injection Hi' as <-. split; [done|].
    exact (NoDup_lookup _ _ _ _ Hnd0 Hj Hj').
  - injection Hi as <-. exfalso. apply (Hdisj x).
    + by eapply list_elem_of_lookup_2.
    + eapply Hin; [done|]. by eapply list_elem_of_lookup_2.
  - injection Hi' as <-. exfalso. apply (Hdisj x).
    + by eapply list_elem_of_lookup_2.
    + eapply Hin; [done|]. by eapply list_elem_of_lookup_2.
  - destruct (IH i i' Hndr Hi Hj Hi' Hj') as [-> ->]. done.
Qed.

Lemma concat_elem_lookup {A} (ll : list (list A)) x :
  x ∈ concat ll → ∃ i j, ll !! i ≫= (λ l, l !! j) = Some x.
Proof.
  intros (l & Hl & Hx)%list_elem_of_In%in_concat.
  apply list_elem_of_In, list_elem_of_lookup in Hl as [i Hi].
  apply list_elem_of_In, list_elem_of_lookup in Hx as [j Hj].
  exists i, j. by rewrite Hi.
Qed.

Lemma generated_result op a b :
  generated op a b →
  ∃ r, getCorrectAnswer op a b = Some r ∧ r ∈ generatorResults op.
Proof.
  intros Hin%generated_pairs.
  pose proof Hin as (x & y & Hx & Hy & Heq)%generatorPairs_spec.
  destruct (generatorPair_answer op x y Hx Hy) as (r & Hr & _).
  rewrite <- Heq in Hr. exists r. split; [done|].
  unfold generatorResults. apply list_elem_of_omap. by exists (a, b).
Qed.

(** X3: every round the generator produces can be answered, and by one cell
    only: the expected result is defined, some cell of the operation's layout
    holds it, and no other cell does. *)
Theorem round_has_one_correct_cell (op : Operation) (a b : Z) :
  generated op a b →
  ∃ r row col,
    getCorrectAnswer op a b = Some r
    ∧ layoutAt (PREDEFINED_BOARDS op) row col = Some r
    ∧ ∀ row' col',
        layoutAt (PREDEFINED_BOARDS op) row' col' = Some r →
        row' = row ∧ col' = col.
Proof.
  intros (r & Hr & Hin)%generated_result.
  assert (Hon : r ∈ concat (PREDEFINED_BOARDS op)).
  { assert (Hcov : Forall (λ x, x ∈ concat (PREDEFINED_BOARDS op)) (generatorResults op)).
    { apply (forallb_Forall (λ x, memZ x (concat (PREDEFINED_BOARDS op)))).
      - intros x. apply memZ_spec.
      - destruct op; by_run. }
    rewrite Forall_forall in Hcov. by apply Hcov. }
  destruct (concat_elem_lookup _ _ Hon) as (row & col & Hcell).
  exists r, row, col. split; [done|]. split; [done|].
  intros row' col' Hcell'. unfold layoutAt in *.
  destruct (PREDEFINED_BOARDS op !! row) as [l|] eqn:Hl; [|done].
  destruct (PREDEFINED_BOARDS op !! row') as [l'|] eqn:Hl'; [|done].
  simpl in Hcell, Hcell'.
  by destruct (concat_lookup_inj _ _ _ _ _ _ _ _ (layout_distinct op) Hl' Hcell' Hl Hcell).
Qed.

Lemma generated_example : generated OpTimes 7 8.
Proof. apply generated_pairs, generatorPairs_spec. exists 7, 8. by repeat split. Qed.

Lemma round_has_one_correct_cell_witness :
  ∃ row col,
    layoutAt (PREDEFINED_BOARDS OpTimes) row col = Some 56
    ∧ ∀ row' col',
        layoutAt (PREDEFINED_BOARDS OpTimes) row' col' = Some 56 →
        row' = row ∧ col' = col.
Proof.
  destruct (round_has_one_correct_cell OpTimes 7 8 generated_example)
    as (r & row & col & Hr & Hcell & Honly).
  injection Hr as <-. by exists row, col.
Defined.



(** ** A turn's wheels *)

Lemma generatorPair_range op x y :
  op ≠ OpDivide → 1 ≤ x ≤ 10 → 1 ≤ y ≤ 10 →
  1 ≤ (generatorPair op x y).1 ≤ 10 ∧ 1 ≤ (generatorPair op x y).2 ≤ 10.
Proof. intros Hop Hx Hy. destruct op; simpl; try done; lia. Qed.

(** X5: a turn whose table number goes with the operation in force (one is
    set in a game of divisions, none otherwise: so [handleCoinFlipComplete]
    leaves it, and so does a [changeTurn] that runs with the settings of the
    state it runs on) reaches its Answer phase.  From the Spin1 phase of [p] with no wheel spinning, when
    the four events of the wheels follow one another, the click on the left
    wheel, its settling, the click on the right wheel and its settling are
    all accepted, and they end in the Answer phase of [p] with a pair of
    operands of the operation's generator on display and the board
    untouched.  Where the table number [t] is one left behind in a game of
    another operation and the drawn left operand is not among the ten
    multiples of [t], the turn does not get there: the left wheel has no
    segment for its target, so it never settles, its click is latched, and
    the four events leave the machine in the Spin1 phase of [p]. *)
Theorem round_runs_to_answer (mode : Mode) (s0 : State) (p : Player) (d1 d2 : Draw) :
  reachable mode s0 →
  gameState s0 = SPIN_1 p →
  currentPlayer s0 = p →
  isSpinning1 s0 = false →
  isSpinning2 s0 = false →
  ((divisionTableNumber s0 ≠ None ↔ operation (gameSettings s0) = OpDivide) →
   ∃ s4 a b,
     run mode s0 (spinEvents d1 d2) = Some s4
     ∧ gameState s4 = ANSWER p
     ∧ currentPlayer s4 = p
     ∧ spinner1Value s4 = Some a
     ∧ spinner2Value s4 = Some b
     ∧ generated (operation (gameSettings s0)) a b
     ∧ message s4 = MsgQuestion (Some a) (operation (gameSettings s0)) b
     ∧ boardState s4 = boardState s0)
  ∧ (∀ t a b,
       operation (gameSettings s0) ≠ OpDivide →
       divisionTableNumber s0 = Some t →
       (a, b) = generatorPair (operation (gameSettings s0))
                  (rand10 d1 + 1) (rand10 d2 + 1) →
       a ∉ (λ k, t * k) <$> oneToTen →
       ∃ s1,
         run mode s0 (spinEvents d1 d2) = Some s1
         ∧ s1 = s0 |> setSpinner1Target (Some a) |> setSpinner2Target (Some b)
                    |> setMessage MsgSpinning |> setIsSpinning1 true
         ∧ gameState s1 = SPIN_1 p
         ∧ (∀ d1' d2', step mode s1 (ESpin1Click d1' d2') = Some s1)
         ∧ step mode s1 ESpin1Settled = Some s1)
  ∧ (∀ (acc : State) (result : CoinFace) (cur : Player) (d : Draw),
       let first := handleCoinFlipComplete result d acc in
       let next := changeTurn cur (gameSettings acc) d acc in
       (divisionTableNumber first ≠ None ↔ operation (gameSettings first) = OpDivide)
       ∧ (divisionTableNumber next ≠ None ↔ operation (gameSettings next) = OpDivide)).
Proof.
  intros Hreach Hg Hc Hsp1 Hsp2.
  pose proof (reachable_wheelOfTable mode s0 Hreach) as Hinv.
  pose proof (rand10_range d1). pose proof (rand10_range d2).
  split; [|split]; [| |intros acc result cur d; cbv zeta;
    unfold handleCoinFlipComplete, changeTurn, prepareTurn;
    case_decide; simpl; by split].
  - intros Hmatch. destruct (decide (operation (gameSettings s0) = OpDivide)) as [Hop|Hop].
    + destruct (divisionTableNumber s0) as [t|] eqn:Htab; [|by apply Hmatch in Hop].
      unfold wheelOfTable in Hinv. rewrite Htab in Hinv. destruct Hinv as [Ht Hseg].
      eexists _, _, _. split.
      { apply (wheels_settle mode s0 p d1 d2); try done.
        - apply (handleSpin1Start_divide s0 d1 d2 t); try done. lia.
        - rewrite Hseg. apply table_multiple_on_wheel. lia.
        - by apply table_on_right_wheel. }
      simpl. rewrite Hop. repeat (split; [done|]). split; [|done].
      apply generated_pairs, generatorPairs_spec.
      exists (rand10 d1 + 1), t. simpl. split; [lia|]. by split.
    + destruct (divisionTableNumber s0) as [t|] eqn:Htab;
        [by destruct Hop; apply Hmatch|].
      unfold wheelOfTable in Hinv. rewrite Htab in Hinv.
      destruct (generatorPair_range (operation (gameSettings s0)) (rand10 d1 + 1)
                  (rand10 d2 + 1) Hop) as [Ha Hb]; [lia|lia|].
      eexists _, _, _. split.
      { apply (wheels_settle mode s0 p d1 d2); try done.
        - by apply handleSpin1Start_other.
        - rewrite Hinv. by apply table_on_right_wheel.
        - by apply table_on_right_wheel. }
      simpl. repeat (split; [done|]). split; [|done].
      apply generated_pairs, generatorPairs_spec.
      exists (rand10 d1 + 1), (rand10 d2 + 1). split; [lia|]. split; [lia|].
      by destruct (generatorPair _ _ _).
  - intros t a b Hop Htab Hab Hoff.
    unfold wheelOfTable in Hinv. rewrite Htab in Hinv. destruct Hinv as [Ht Hseg].
    pose proof (handleSpin1Start_other s0 d1 d2 Hsp1 Hop) as Hstart.
    rewrite <- Hab in Hstart. cbn [fst snd] in Hstart.
    set (s1 := s0 |> setSpinner1Target (Some a) |> setSpinner2Target (Some b)
                  |> setMessage MsgSpinning |> setIsSpinning1 true) in *.
    assert (Hmem : memZ a (v <$> spinner1Segments s1) = false).
    { apply not_true_iff_false. intros Hin%memZ_spec. apply Hoff.
      subst s1. simpl in Hin. by rewrite Hseg, tableSegments_values in Hin. }
    assert (Hlatch : ∀ d1' d2', step mode s1 (ESpin1Click d1' d2') = Some s1).
    { intros d1' d2'. cbn [step].
      destruct (_ && _); [|done]. unfold handleSpin1Start. by subst s1. }
    assert (Hstay : step mode s1 ESpin1Settled = Some s1).
    { cbn [step]. unfold spinnerSettles.
      assert (isSpinning1 s1 = true) as -> by by subst s1.
      assert (spinner1Target s1 = Some a) as -> by by subst s1.
      cbn [mbind option_bind]. by rewrite Hmem. }
    assert (Hg1 : gameState s1 = SPIN_1 p) by by subst s1.
    assert (Hc1 : currentPlayer s1 = p) by by subst s1.
    exists s1. split; [|by repeat split].
    unfold spinEvents.
    rewrite <- (step_spin1_click mode s0 d1 d2 p Hc Hg) in Hstart.
    rewrite (run_step _ _ _ _ _ Hstart), (run_step _ _ _ _ _ Hstay).
    assert (Hno2 : step mode s1 ESpin2Click = Some s1).
    { cbn [step]. unfold canSpin2. rewrite Hg1.
      assert (endsWithSPIN_2 (SPIN_1 p) = false) as -> by by destruct p.
      by rewrite !andb_false_r. }
    rewrite (run_step _ _ _ _ _ Hno2).
    cbn [run step]. unfold spinnerSettles.
    assert (isSpinning2 s1 = false) as -> by (subst s1; exact Hsp2).
    done.
Qed.

(** X5 on two turns of [player2].  In a game of subtractions, after the
    coin flip, the draws 2 and 8 put 9 - 3 on display.  After
    [staleTableGame], in a game of multiplications on a wheel of the table
    of 7, the draws 2 and 4 choose 3 × 5, and the turn stays in Spin1. *)
Lemma round_runs_to_answer_witness :
  (∃ s4,
     run production
       (afterGame [EGameStart subtractionSettings 0%fin; ECoinFlipComplete coroa 0%fin;
                   ETimer 0 0%fin])
       (spinEvents (drawOf 2) (drawOf 8)) = Some s4
     ∧ gameState s4 = PLAYER_2_ANSWER
     ∧ spinner1Value s4 = Some 9
     ∧ spinner2Value s4 = Some 3)
  ∧ (operation (gameSettings (afterGame staleTableGame)) = OpTimes
     ∧ divisionTableNumber (afterGame staleTableGame) = Some 7
     ∧ ∃ s1,
         run production (afterGame staleTableGame) (spinEvents (drawOf 2) (drawOf 4))
         = Some s1
         ∧ gameState s1 = PLAYER_2_SPIN_1
         ∧ isSpinning1 s1 = true
         ∧ spinner1Target s1 = Some 3
         ∧ step production s1 ESpin1Settled = Some s1).
Proof.
  split.
  - set (es := [EGameStart subtractionSettings 0%fin; ECoinFlipComplete coroa 0%fin;
                ETimer 0 0%fin]).
    set (s0 := afterGame es).
    assert (Hrun : run production initialState es = Some s0) by by_run.
    assert (Hg : gameState s0 = SPIN_1 player2) by by_run.
    assert (Hc : currentPlayer s0 = player2) by by_run.
    assert (Hs1 : isSpinning1 s0 = false) by by_run.
    assert (Hs2 : isSpinning2 s0 = false) by by_run.
    assert (Hop : operation (gameSettings s0) = OpMinus) by by_run.
    assert (Htab : divisionTableNumber s0 = None) by by_run.
    assert (Hmatch : divisionTableNumber s0 ≠ None
                     ↔ operation (gameSettings s0) = OpDivide).
    { rewrite Hop, Htab. split; [done|discriminate]. }
    destruct (round_runs_to_answer production s0 player2 (drawOf 2) (drawOf 8)
                (reachable_run _ _ _ Hrun) Hg Hc Hs1 Hs2) as [Hgo _].
    destruct (Hgo Hmatch) as (s4 & a & b & Hrun4 & Hg4 & _).
    exists s4. split; [exact Hrun4|]. split; [exact Hg4|].
    assert (Hv : ∃ s, run production s0 (spinEvents (drawOf 2) (drawOf 8)) = Some s
                      ∧ spinner1Value s = Some 9 ∧ spinner2Value s = Some 3).
    { eexists. split; [vm_compute; reflexivity|]. split; reflexivity. }
    destruct Hv as (s & Hs & Hv1 & Hv2). rewrite Hrun4 in Hs. injection Hs as <-.
    split; [exact Hv1|exact Hv2].
  - set (s0 := afterGame staleTableGame).
    assert (Hrun : run production initialState staleTableGame = Some s0) by by_run.
    assert (Hg : gameState s0 = SPIN_1 player2) by by_run.
    assert (Hc : currentPlayer s0 = player2) by by_run.
    assert (Hs1 : isSpinning1 s0 = false) by by_run.
    assert (Hs2 : isSpinning2 s0 = false) by by_run.
    assert (Hop : operation (gameSettings s0) = OpTimes) by by_run.
    assert (Hop' : operation (gameSettings s0) ≠ OpDivide) by (rewrite Hop; discriminate).
    assert (Htab : divisionTableNumber s0 = Some 7) by by_run.
    assert (Hab : (3, 5) = generatorPair (operation (gameSettings s0))
                             (rand10 (drawOf 2) + 1) (rand10 (drawOf 4) + 1))
      by (rewrite Hop; reflexivity).
    assert (Hoff : 3 ∉ (λ k, 7 * k) <$> oneToTen).
    { intros Hin%memZ_spec. vm_compute in Hin. discriminate Hin. }
    destruct (round_runs_to_answer production s0 player2 (drawOf 2) (drawOf 4)
                (reachable_run _ _ _ Hrun) Hg Hc Hs1 Hs2) as (_ & Hstall & _).
    destruct (Hstall 7 3 5 Hop' Htab Hab Hoff) as (s1 & Hrun1 & Hs1eq & Hg1 & _ & Hstay).
    split; [exact Hop|]. split; [exact Htab|].
    exists s1. split; [exact Hrun1|]. split; [exact Hg1|].
    split; [by rewrite Hs1eq|]. split; [by rewrite Hs1eq|exact Hstay].
Defined.

(** ** Where a wheel comes to rest *)

Lemma tableSegments_find t (d : Draw) :
  1 ≤ t →
  targetSegmentIndex (tableSegments t) (t * (rand10 d + 1)) = Some (fin_to_nat d).
Proof.
  intros Ht. unfold targetSegmentIndex.
  pose proof (fin_to_nat_lt d) as Hd.
  assert (Hl : tableSegments t !! fin_to_nat d
               = Some {| v := t * (rand10 d + 1);
                         c := default EmptyString
                                (c <$> DEFAULT_SPINNER_SEGMENTS !! (fin_to_nat d `mod` 10)%nat) |}).
  { unfold tableSegments. rewrite list_lookup_fmap, lookup_seq_lt by done. done. }
  assert (Hfind : list_find (λ seg, v seg = t * (rand10 d + 1)) (tableSegments t)
                  = Some (fin_to_nat d,
                          {| v := t * (rand10 d + 1);
                             c := default EmptyString
                                    (c <$> DEFAULT_SPINNER_SEGMENTS
                                             !! (fin_to_nat d `mod` 10)%nat) |})).
  { apply list_find_Some. split; [exact Hl|]. split; [done|].
    intros j y Hj Hlt. unfold tableSegments in Hj.
    rewrite list_lookup_fmap, lookup_seq_lt in Hj by lia.
    injection Hj as <-. simpl. unfold rand10. intros Heq.
    apply Z.mul_reg_l in Heq; lia. }
  by rewrite Hfind.
Qed.

Lemma tableSegments_NoDup t : 1 ≤ t → NoDup (v <$> tableSegments t).
Proof.
  intros Ht. rewrite tableSegments_values.
  apply NoDup_fmap_2_strong; [|by apply distinctZ_spec].
  intros x y _ _ Heq. apply Z.mul_reg_l in Heq; lia.
Qed.

(** X6: in a turn of a game of divisions the left wheel, relabelled by
    [prepareTurn] with the first ten multiples of the table number, has ten
    pairwise different faces, and the target chosen by the click is found on
    it at exactly the drawn index: the wheel comes to rest on the drawn
    segment, and the lookup of the target never fails. *)
Theorem division_wheel_rests_on_drawn_segment (settings : GameSettings)
    (d0 d1 d2 : Draw) (acc s' : State) :
  operation settings = OpDivide →
  gameSettings acc = settings →
  isSpinning1 acc = false →
  handleSpin1Start d1 d2 (prepareTurn settings d0 acc) = Some s' →
  ∃ tv,
    spinner1Target s' = Some tv
    ∧ targetSegmentIndex (spinner1Segments s') tv = Some (fin_to_nat d1)
    ∧ NoDup (v <$> spinner1Segments s')
    ∧ length (spinner1Segments s') = 10%nat.
Proof.
  intros Hop Hset Hsp Hstart. pose proof (rand10_range d0) as Hr.
  rewrite prepareTurn_divide in Hstart by done.
  rewrite (handleSpin1Start_divide _ d1 d2 (rand10 d0 + 1)) in Hstart;
    [|exact Hsp|by simpl; rewrite Hset|reflexivity|lia|reflexivity].
  injection Hstart as <-. exists ((rand10 d0 + 1) * (rand10 d1 + 1)).
  split; [reflexivity|]. simpl.
  split; [apply tableSegments_find; lia|].
  split; [apply tableSegments_NoDup; lia|reflexivity].
Qed.

(** X6 with the table of 7 and the draw 3: the wheel rests on 28, its
    fourth face. *)
Lemma division_wheel_rests_on_drawn_segment_witness :
  ∃ s',
    handleSpin1Start (drawOf 3) (drawOf 0)
      (prepareTurn divisionSettings (drawOf 6)
         (setGameSettings divisionSettings initialState)) = Some s'
    ∧ spinner1Target s' = Some 28
    ∧ targetSegmentIndex (spinner1Segments s') 28 = Some 3%nat.
Proof.
  assert (Hs : ∃ s', handleSpin1Start (drawOf 3) (drawOf 0)
                       (prepareTurn divisionSettings (drawOf 6)
                          (setGameSettings divisionSettings initialState)) = Some s'
                     ∧ spinner1Target s' = Some 28).
  { eexists. split; [vm_compute; reflexivity|reflexivity]. }
  destruct Hs as (s' & Hs' & Ht). exists s'. split; [exact Hs'|]. split; [exact Ht|].
  destruct (division_wheel_rests_on_drawn_segment divisionSettings (drawOf 6) (drawOf 3)
              (drawOf 0) (setGameSettings divisionSettings initialState) s'
              eq_refl eq_refl eq_refl Hs') as (tv & Htv & Hidx & _).
  rewrite Ht in Htv. injection Htv as <-. exact Hidx.
Defined.

(** ** The end of a game *)

Lemma step_stuck s e :
  gameState s = GAME_OVER →
  winner s = None →
  timers s = [] →
  isSpinning1 s = false →
  isSpinning2 s = false →
  step production s e = Some s.
Proof.
  intros Hg Hw Ht H1 H2. destruct e; cbn [step].
  - by rewrite Hg.
  - by rewrite Hg.
  - by rewrite Hg.
  - by rewrite H1.
  - by rewrite Hg.
  - by rewrite H2.
  - destruct (boardLayout s !! row ≫= _); [|done].
    apply handleCellClick_ignored. left. by rewrite Hg.
  - by rewrite Ht.
  - rewrite Hw. rewrite (bool_decide_eq_false_2 (None ≠ None)) by (intros H; by apply H).
    by rewrite andb_false_r.
  - done.
Qed.

(** X7: a game that ended without a winner is stuck.  The restart button is
    only offered together with a winner, so once a drawn [most_on_full] game
    is over (no timer pending, no wheel spinning), no event of the scene
    changes the state any more. *)
Theorem drawn_game_is_stuck (s : State) (es : list Event) :
  gameState s = GAME_OVER →
  winner s = None →
  timers s = [] →
  isSpinning1 s = false →
  isSpinning2 s = false →
  run production s es = Some s.
Proof.
  intros Hg Hw Ht H1 H2. induction es as [|e es IH]; [done|].
  by rewrite (run_step _ _ _ _ _ (step_stuck s e Hg Hw Ht H1 H2)).
Qed.

(** X7 at the end of [drawnGame], a reachable state: restart and setup are
    without effect. *)
Lemma drawn_game_is_stuck_witness :
  run production initialState drawnGame = Some (afterGame drawnGame)
  ∧ countCells player1 (boardState (afterGame drawnGame)) = 21%nat
  ∧ countCells player2 (boardState (afterGame drawnGame)) = 21%nat
  ∧ run production (afterGame drawnGame)
      [ERestart; EGameStart (exampleSettings first_to_5) 0%fin; ECellClick 0 0]
    = Some (afterGame drawnGame).
Proof.
  split; [by_run|]. split; [by_run|]. split; [by_run|].
  apply drawn_game_is_stuck; by_run.
Defined.

(** X8: [changeTurn] does not look at the phase.  A hand-over that is still
    pending when the game ends reopens the game when it fires: the other
    player is in the Spin1 phase and may spin, while the recorded winner and
    the board stay. *)
Theorem pending_handover_reopens_game (mode : Mode) (s : State) (i : nat)
    (cur : Player) (settings : GameSettings) (d : Draw) :
  gameState s = GAME_OVER →
  timers s !! i = Some (TChangeTurn cur settings) →
  ∃ s',
    step mode s (ETimer i d) = Some s'
    ∧ gameState s' = SPIN_1 (otherPlayer cur)
    ∧ currentPlayer s' = otherPlayer cur
    ∧ canSpin1 s' = true
    ∧ winner s' = winner s
    ∧ boardState s' = boardState s.
Proof.
  intros Hg Ht. cbn [step]. rewrite Ht. eexists. split; [reflexivity|].
  cbn [runTimer].
  destruct (changeTurn_result cur settings d (setTimers (delete i (timers s)) s))
    as (Hgs & Hcp & _ & _ & _ & _ & Hb & Hw).
  split; [exact Hgs|]. split; [exact Hcp|].
  split; [by apply (canSpin1_SPIN_1 _ (otherPlayer cur))|].
  split; [exact Hw|exact Hb].
Qed.

(** X8 at the end of [hastyWinGame], a reachable state: [player1] has won
    with five cells, and the pending hand-over puts [player2] in Spin1. *)
Lemma pending_handover_reopens_game_witness :
  run production initialState hastyWinGame = Some (afterGame hastyWinGame)
  ∧ gameState (afterGame hastyWinGame) = GAME_OVER
  ∧ winner (afterGame hastyWinGame) = Some player1
  ∧ ∃ s',
      step production (afterGame hastyWinGame) (ETimer 1 0%fin) = Some s'
      ∧ gameState s' = PLAYER_2_SPIN_1
      ∧ winner s' = Some player1.
Proof.
  split; [by_run|]. split; [by_run|]. split; [by_run|].
  assert (Hg : gameState (afterGame hastyWinGame) = GAME_OVER) by by_run.
  assert (Ht : timers (afterGame hastyWinGame) !! 1%nat
               = Some (TChangeTurn player1 (exampleSettings first_to_5))) by by_run.
  assert (Hw : winner (afterGame hastyWinGame) = Some player1) by by_run.
  destruct (pending_handover_reopens_game production (afterGame hastyWinGame) 1
              player1 (exampleSettings first_to_5) 0%fin Hg Ht)
    as (s' & Hstep & Hgs & _ & _ & Hws & _).
  exists s'. split; [exact Hstep|]. split; [exact Hgs|]. by rewrite Hws.
Defined.

(** ** Restart *)

(** X9: a restarted game starts like the first one.  From a won game, the
    restart followed by the submission of the setup dialog leaves the state
    that the same submission produces from the initial state, up to the two
    things the restart does not reset: the highlighted cell and the pending
    timers. *)
Theorem restart_then_start (mode : Mode) (s : State) (settings : GameSettings)
    (d : Draw) :
  gameState s = GAME_OVER →
  winner s ≠ None →
  String.eqb (value (settings1 settings)) (value (settings2 settings)) = false →
  run mode s [ERestart; EGameStart settings d]
  = Some (handleGameStart settings d initialState
            |> setFlashingCell (flashingCell s)
            |> setTimers (timers s)).
Proof.
  intros Hg Hw Hc.
  destruct s as [gs cp st ms sp1 sp2 v1 v2 w t1 t2 bl sg dt bs fc tm].
  simpl in Hg, Hw. subst gs.
  assert (E1 : step mode
                 {| gameState := GAME_OVER; currentPlayer := cp; gameSettings := st;
                    message := ms; isSpinning1 := sp1; isSpinning2 := sp2;
                    spinner1Value := v1; spinner2Value := v2; winner := w;
                    spinner1Target := t1; spinner2Target := t2; boardLayout := bl;
                    spinner1Segments := sg; divisionTableNumber := dt;
                    boardState := bs; flashingCell := fc; timers := tm |} ERestart
               = Some (initialState |> setBoardLayout bl |> setFlashingCell fc
                                    |> setTimers tm)).
  { cbn [step gameState winner]. rewrite (bool_decide_eq_true_2 _ Hw).
    rewrite (bool_decide_eq_true_2 (GAME_OVER = GAME_OVER)) by done.
    cbn [andb]. apply (f_equal Some). apply State_ext; reflexivity. }
  rewrite (run_step _ _ _ _ _ E1). clear E1.
  assert (E2 : step mode (initialState |> setBoardLayout bl |> setFlashingCell fc
                                       |> setTimers tm) (EGameStart settings d)
               = Some (handleGameStart settings d
                         (initialState |> setBoardLayout bl |> setFlashingCell fc
                                       |> setTimers tm))).
  { cbn [step]. rewrite Hc. reflexivity. }
  rewrite (run_step _ _ _ _ _ E2). clear E2. cbn [run].
  apply (f_equal Some). unfold handleGameStart, prepareTurn.
  case_decide; apply State_ext; reflexivity.
Qed.

(** X9 after [hastyWinGame] (the highlight's timer has fired, the hand-over
    is still pending): restart and a new game of [connect_3]. *)
Lemma restart_then_start_witness :
  ∃ s',
    run production (afterGame (hastyWinGame ++ [ETimer 0 0%fin]))
      [ERestart; EGameStart (exampleSettings connect_3) 0%fin] = Some s'
    ∧ gameState s' = COIN_FLIP
    ∧ boardState s' = initialBoardState
    ∧ timers s' = [TChangeTurn player1 (exampleSettings first_to_5)].
Proof.
  assert (Hg : gameState (afterGame (hastyWinGame ++ [ETimer 0 0%fin])) = GAME_OVER)
    by by_run.
  assert (Hw : winner (afterGame (hastyWinGame ++ [ETimer 0 0%fin])) ≠ None)
    by by_run_ne.
  eexists. split.
  - exact (restart_then_start production _ (exampleSettings connect_3) 0%fin Hg Hw
             eq_refl).
  - split; [reflexivity|]. split; [reflexivity|]. by_run.
Defined.

(** ** Correct answers *)

Lemma concat_lookup_elem {A} (ll : list (list A)) i j l x :
  ll !! i = Some l → l !! j = Some x → x ∈ concat ll.
Proof.
  intros Hi Hj. apply list_elem_of_In, in_concat. exists l.
  split; apply list_elem_of_In; by eapply list_elem_of_lookup_2.
Qed.

Lemma setCell_boardIsFull (b b' : Board) row col p :
  setCell row col p b = Some b' → boardIsFull b = true → boardIsFull b' = true.
Proof.
  unfold setCell. destruct (b !! row) as [line|] eqn:Hl; [|done]. simpl.
  case_decide as Hcol; [|done]. intros [= <-] Hfull.
  apply boardIsFull_spec. apply boardIsFull_spec in Hfull.
  intros (i & j & Hij)%concat_elem_lookup. apply Hfull.
  destruct (decide (i = row)) as [->|Hi].
  - rewrite list_lookup_insert_eq in Hij by by eapply lookup_lt_Some.
    simpl in Hij. destruct (decide (j = col)) as [->|Hj].
    + by rewrite list_lookup_insert_eq in Hij.
    + rewrite list_lookup_insert_ne in Hij by done.
      by eapply concat_lookup_elem.
  - rewrite list_lookup_insert_ne in Hij by done.
    destruct (b !! i) as [l|] eqn:Hbi; [|done]. simpl in Hij.
    by eapply concat_lookup_elem.
Qed.

(** X10: after a correct answer the outcome is decided by the win evaluation
    on the new board alone.  If it returns [true], the state it leaves is the
    result; if it returns [false], the state is the old one with the cell
    written and the message set, and [changeTurn] is scheduled.  The second
    evaluation, on the board of before the answer ([most_on_full] with
    [boardIsNowFull]), is never reached on this path. *)
Theorem correct_answer_effect (s : State) (cellValue : Z) (row col : nat)
    (val1 val2 : Z) (newBoardState : Board) (over : bool) (acc : State) :
  endsWithANSWER (gameState s) = true →
  spinner1Value s = Some val1 →
  spinner2Value s = Some val2 →
  getCorrectAnswer (operation (gameSettings s)) val1 val2 = Some cellValue →
  setCell row col (currentPlayer s) (boardState s) = Some newBoardState →
  checkWinCondition (gameSettings s) newBoardState (currentPlayer s)
    (s |> setBoardState newBoardState
       |> setMessage (MsgCorrect val1 val2 (operation (gameSettings s)) cellValue))
  = Some (over, acc) →
  if over
  then handleCellClick cellValue row col s = Some acc
       ∧ gameState acc = GAME_OVER
  else handleCellClick cellValue row col s
       = Some (s |> setBoardState newBoardState
                 |> setMessage (MsgCorrect val1 val2 (operation (gameSettings s)) cellValue)
                 |> setTimeout (TChangeTurn (currentPlayer s) (gameSettings s))).
Proof.
  intros Hans H1 H2 Hok Hset Hcheck.
  rewrite (handleCellClick_correct s cellValue row col val1 val2) by done.
  rewrite Hset. cbn [mbind option_bind]. rewrite Hcheck. cbn [mbind option_bind].
  pose proof Hcheck as Hcases. apply checkWinCondition_cases in Hcases
    as [(-> & ->)|[(-> & _ & _ & ->)|[(-> & _ & _ & ->)|(-> & _ & _ & ->)]]];
    try (split; reflexivity).
  destruct (bool_decide (winCondition (gameSettings s) = most_on_full)
            && boardIsFull (boardState s)) eqn:Hold; [|reflexivity].
  exfalso. apply andb_prop in Hold as [Hw%bool_decide_eq_true Hfull].
  pose proof (setCell_boardIsFull _ _ _ _ _ Hset Hfull) as Hnew.
  unfold checkWinCondition in Hcheck. destruct newBoardState; [done|].
  rewrite Hw, Hnew in Hcheck. done.
Qed.

(** X10 in [twelveTwiceGame]: [player2] answers 2 × 6 with the cell 12. *)
Lemma correct_answer_effect_witness :
  ∃ s',
    handleCellClick 12 3 6 (afterGame twelveTwiceGame) = Some s'
    ∧ gameState s' = PLAYER_2_ANSWER
    ∧ cellAt (boardState s') 3 6 = Some player2
    ∧ timers s' = [TChangeTurn player2 (exampleSettings first_to_5)].
Proof.
  set (s := afterGame twelveTwiceGame).
  assert (Hans : endsWithANSWER (gameState s) = true) by by_run.
  assert (H1 : spinner1Value s = Some 2) by by_run.
  assert (H2 : spinner2Value s = Some 6) by by_run.
  assert (Hok : getCorrectAnswer (operation (gameSettings s)) 2 6 = Some 12) by by_run.
  assert (Hset : setCell 3 6 (currentPlayer s) (boardState s)
                 = Some (boardState (afterGame (twelveTwiceGame ++ [ECellClick 3 6]))))
    by by_run.
  assert (Hcheck :
    checkWinCondition (gameSettings s)
      (boardState (afterGame (twelveTwiceGame ++ [ECellClick 3 6]))) (currentPlayer s)
      (s |> setBoardState (boardState (afterGame (twelveTwiceGame ++ [ECellClick 3 6])))
         |> setMessage (MsgCorrect 2 6 (operation (gameSettings s)) 12))
    = Some (false,
            s |> setBoardState (boardState (afterGame (twelveTwiceGame ++ [ECellClick 3 6])))
              |> setMessage (MsgCorrect 2 6 (operation (gameSettings s)) 12)))
    by by_run.
  pose proof (correct_answer_effect s 12 3 6 2 6 _ false _ Hans H1 H2 Hok Hset Hcheck)
    as Hclick.
  cbv iota in Hclick. eexists. split; [exact Hclick|].
  split; [by_run|]. split; by_run.
Defined.

(** ** Counting cells *)

Lemma count_insert {A} (P : A → Prop) `{∀ x, Decision (P x)} (l : list A) j x y :
  l !! j = Some y →
  (length (filter P (<[j:=x]> l)) + (if decide (P y) then 1 else 0)
   = length (filter P l) + (if decide (P x) then 1 else 0))%nat.
Proof.
  revert j. induction l as [|z l IH]; intros j Hj; [done|].
  destruct j as [|j]; simpl in Hj.
  - injection Hj as ->. simpl. rewrite !filter_cons.
    destruct (decide (P x)), (decide (P y)); simpl; lia.
  - simpl. rewrite !filter_cons. specialize (IH j Hj).
    destruct (decide (P z)); simpl; lia.
Qed.

Lemma count_concat_insert {A} (P : A → Prop) `{∀ x, Decision (P x)}
    (ll : list (list A)) i l l' :
  ll !! i = Some l →
  (length (filter P (concat (<[i:=l']> ll))) + length (filter P l)
   = length (filter P (concat ll)) + length (filter P l'))%nat.
Proof.
  revert i. induction ll as [|l0 ll IH]; intros i Hi; [done|].
  destruct i as [|i]; simpl in Hi.
  - injection Hi as ->. simpl. rewrite !filter_app, !length_app. lia.
  - simpl. rewrite !filter_app, !length_app. specialize (IH i Hi). lia.
Qed.

(** X11: what a claim does to the score.  Writing a cell for [p] raises the
    count of [p] by one unless [p] held the cell already, lowers the count of
    the player who held it before by one, and leaves every other count: for
    every player [q], the new count plus 1 if [q] held the cell equals the
    old count plus 1 if [q] is [p]. *)
Theorem claim_changes_counts (b b' : Board) (row col : nat) (p q : Player) :
  setCell row col p b = Some b' →
  (countCells q b' + (if owns q (cellAt b row col) then 1 else 0)
   = countCells q b + (if decide (q = p) then 1 else 0))%nat.
Proof.
  unfold setCell. destruct (b !! row) as [line|] eqn:Hl; [|done]. simpl.
  case_decide as Hcol; [|done]. intros [= <-].
  destruct (lookup_lt_is_Some_2 line col Hcol) as [y Hy].
  unfold countCells, cellAt, readCell, owns. rewrite Hl. simpl. rewrite Hy. simpl.
  pose proof (count_concat_insert (λ cell, cell = Some q) b row line
                (<[col:=Some p]> line) Hl) as Hrows.
  pose proof (count_insert (λ cell, cell = Some q) line col (Some p) y Hy) as Hcells.
  destruct (decide (y = Some q)) as [Hyq|Hyq].
  - rewrite (bool_decide_eq_true_2 _ Hyq).
    destruct (decide (Some p = Some q)) as [Hpq|Hpq].
    + rewrite decide_True by congruence. lia.
    + rewrite decide_False by congruence. lia.
  - rewrite (bool_decide_eq_false_2 _ Hyq).
    destruct (decide (Some p = Some q)) as [Hpq|Hpq].
    + rewrite decide_True by congruence. lia.
    + rewrite decide_False by congruence. lia.
Qed.

(** X11 on [fiveCellsBoard]: [player2] takes the cell at row 0, column 0
    from [player1]; the counts go from 5 and 4 to 4 and 5. *)
Lemma claim_changes_counts_witness :
  ∃ b',
    setCell 0 0 player2 fiveCellsBoard = Some b'
    ∧ countCells player1 fiveCellsBoard = 5%nat
    ∧ countCells player2 fiveCellsBoard = 4%nat
    ∧ countCells player1 b' = 4%nat
    ∧ countCells player2 b' = 5%nat.
Proof.
  assert (Hs : ∃ b', setCell 0 0 player2 fiveCellsBoard = Some b')
    by (eexists; vm_compute; reflexivity).
  destruct Hs as [b' Hset]. exists b'.
  pose proof (claim_changes_counts _ _ _ _ _ player1 Hset) as H1.
  pose proof (claim_changes_counts _ _ _ _ _ player2 Hset) as H2.
  assert (C1 : countCells player1 fiveCellsBoard = 5%nat) by by_run.
  assert (C2 : countCells player2 fiveCellsBoard = 4%nat) by by_run.
  rewrite C1 in H1. rewrite C2 in H2.
  change (owns player1 (cellAt fiveCellsBoard 0 0)) with true in H1.
  change (owns player2 (cellAt fiveCellsBoard 0 0)) with false in H2.
  rewrite decide_False in H1 by discriminate. rewrite decide_True in H2 by reflexivity.
  repeat split; try done; lia.
Defined.

(** ** From the setup dialog to the first turn *)

Lemma prepareTurn_eq settings d acc :
  prepareTurn settings d acc
  = acc |> setSpinner1Segments (preparedSegments settings d)
        |> setDivisionTableNumber (preparedTable settings d).
Proof.
  unfold prepareTurn, preparedSegments, preparedTable.
  destruct acc. case_decide; apply State_ext; reflexivity.
Qed.

(** The timer scheduled last fires. *)
Lemma step_timer_last mode s t d l :
  timers s = l ++ [t] →
  step mode s (ETimer (length l) d) = Some (runTimer t d (setTimers l s)).
Proof.
  intros H. cbn [step]. rewrite H. rewrite lookup_app_r by lia.
  rewrite Nat.sub_diag. simpl. by rewrite delete_last_appended.
Qed.

(** X12: the opening of a game.  In the Setup phase, the submission of
    settings with two different colours, the end of the coin flip and the
    expiry of its timer lead to the Spin1 phase of the player the coin
    chose ([cara] is [player1], [coroa] is [player2]): that player may spin
    the left wheel and only it, the layout is the one of the chosen
    operation, the settings are the submitted ones, and left wheel and table
    number are those [prepareTurn] makes for the draw taken at the coin
    flip.  The board is the one of before: the start of a game does not
    clear it. *)
Theorem opening_starts_first_turn (mode : Mode) (s : State)
    (settings : GameSettings) (result : CoinFace) (d d' d'' : Draw) :
  gameState s = SETUP →
  String.eqb (value (settings1 settings)) (value (settings2 settings)) = false →
  ∃ s',
    run mode s [EGameStart settings d; ECoinFlipComplete result d';
                ETimer (length (timers s)) d''] = Some s'
    ∧ gameState s' = SPIN_1 (startingPlayer result)
    ∧ currentPlayer s' = startingPlayer result
    ∧ canSpin1 s' = true
    ∧ canSpin2 s' = false
    ∧ gameSettings s' = settings
    ∧ boardLayout s' = PREDEFINED_BOARDS (operation settings)
    ∧ spinner1Segments s' = preparedSegments settings d'
    ∧ divisionTableNumber s' = preparedTable settings d'
    ∧ boardState s' = boardState s
    ∧ timers s' = timers s.
Proof.
  intros Hg Hc.
  destruct s as [gs cp st ms sp1 sp2 v1 v2 w t1 t2 bl sg dt bs fc tm].
  simpl in Hg. subst gs. cbn [timers].
  match goal with |- context [run mode ?s0 _] =>
    assert (E1 : step mode s0 (EGameStart settings d)
                 = Some (handleGameStart settings d s0))
      by (cbn [step gameState]; rewrite Hc; reflexivity);
    rewrite (run_step _ _ _ _ _ E1); clear E1
  end.
  unfold handleGameStart. rewrite prepareTurn_eq.
  match goal with |- context [run mode ?s1 _] =>
    assert (E2 : step mode s1 (ECoinFlipComplete result d')
                 = Some (handleCoinFlipComplete result d' s1))
      by reflexivity;
    rewrite (run_step _ _ _ _ _ E2); clear E2
  end.
  unfold handleCoinFlipComplete. rewrite prepareTurn_eq.
  match goal with |- context [run mode ?s2 _] =>
    assert (E3 : step mode s2 (ETimer (length tm) d'')
                 = Some (runTimer (TFirstTurn (startingPlayer result)) d''
                           (setTimers tm s2)))
      by (apply step_timer_last; reflexivity)
  end.
  rewrite (run_step _ _ _ _ _ E3). clear E3.
  eexists. split; [reflexivity|].
  destruct result; repeat split; reflexivity.
Qed.

(** X12 for a game of divisions from the initial state, with [coroa]. *)
Lemma opening_starts_first_turn_witness :
  ∃ s',
    run production initialState
      [EGameStart divisionSettings 0%fin; ECoinFlipComplete coroa (drawOf 6);
       ETimer 0 0%fin] = Some s'
    ∧ gameState s' = PLAYER_2_SPIN_1
    ∧ boardLayout s' = PREDEFINED_BOARDS OpDivide
    ∧ divisionTableNumber s' = Some 7.
Proof.
  destruct (opening_starts_first_turn production initialState divisionSettings coroa
              0%fin (drawOf 6) 0%fin eq_refl eq_refl)
    as (s' & Hrun & Hg & _ & _ & _ & _ & Hl & _ & Hd & _).
  exists s'. split; [exact Hrun|]. split; [exact Hg|]. split; [exact Hl|].
  rewrite Hd. reflexivity.
Defined.

(** ** The setup dialog *)

Lemma find_color_Some (color : string) :
  In color (List.map value PREDEFINED_COLORS) →
  ∃ c, List.find (λ c, String.eqb (value c) color) PREDEFINED_COLORS = Some c
       ∧ value c = color
       ∧ In c PREDEFINED_COLORS.
Proof.
  intros Hin.
  destruct (List.find (λ c, String.eqb (value c) color) PREDEFINED_COLORS) as [c|] eqn:Hf.
  - apply find_some in Hf as [Hc Hv]. apply String.eqb_eq in Hv. eauto.
  - exfalso. apply in_map_iff in Hin as (c & Hv & Hc).
    pose proof (find_none _ _ Hf c Hc) as Hn. simpl in Hn.
    rewrite Hv, String.eqb_refl in Hn. discriminate Hn.
Qed.

Lemma modal_invariant (es : list ModalEvent) :
  In (player1Color (modalAfter es)) (List.map value PREDEFINED_COLORS)
  ∧ In (player2Color (modalAfter es)) (List.map value PREDEFINED_COLORS)
  ∧ isButtonDisabled (modalAfter es) = false.
Proof.
  unfold modalAfter.
  assert (H0 : In (player1Color (modalInitial DEFAULT_GAME_SETTINGS))
                 (List.map value PREDEFINED_COLORS)
               ∧ In (player2Color (modalInitial DEFAULT_GAME_SETTINGS))
                   (List.map value PREDEFINED_COLORS)
               ∧ isButtonDisabled (modalInitial DEFAULT_GAME_SETTINGS) = false).
  { split; [simpl; tauto|]. split; [simpl; tauto|reflexivity]. }
  revert H0. generalize (modalInitial DEFAULT_GAME_SETTINGS) as m.
  induction es as [|e es IH]; intros m Hm; [exact Hm|].
  cbn [fold_left]. apply IH. destruct Hm as (H1 & H2 & Hd). unfold isButtonDisabled in *.
  destruct e as [i|i|op|w]; cbn [modalStep].
  - destruct (PREDEFINED_COLORS !! i) as [color|] eqn:Hi; [|done].
    destruct (String.eqb (value color) (player2Color m)) eqn:He; [done|].
    cbn [player1Color player2Color]. split; [|done].
    apply in_map. by eapply list_elem_of_In, list_elem_of_lookup_2.
  - destruct (PREDEFINED_COLORS !! i) as [color|] eqn:Hi; [|done].
    destruct (String.eqb (value color) (player1Color m)) eqn:He; [done|].
    cbn [player1Color player2Color]. split; [done|]. split.
    + apply in_map. by eapply list_elem_of_In, list_elem_of_lookup_2.
    + by rewrite String.eqb_sym.
  - done.
  - done.
Qed.

(** X13: whatever is selected in the setup dialog, the two colours stay
    different colours of the palette, so the start button is never disabled
    and a click on it hands [onGameStart] complete settings: both player
    entries are palette entries with the selected colours, win condition and
    operation are the selected ones, and [App] in its Setup phase accepts
    them and starts the game. *)
Theorem modal_submits_valid_settings (es : list ModalEvent) :
  isButtonDisabled (modalAfter es) = false
  ∧ ∃ settings,
      handleStartClick (modalAfter es) = Some settings
      ∧ In (settings1 settings) PREDEFINED_COLORS
      ∧ In (settings2 settings) PREDEFINED_COLORS
      ∧ value (settings1 settings) = player1Color (modalAfter es)
      ∧ value (settings2 settings) = player2Color (modalAfter es)
      ∧ value (settings1 settings) ≠ value (settings2 settings)
      ∧ winCondition settings = chosenWinCondition (modalAfter es)
      ∧ operation settings = chosenOperation (modalAfter es)
      ∧ ∀ mode s d,
          gameState s = SETUP →
          step mode s (EGameStart settings d) = Some (handleGameStart settings d s).
Proof.
  destruct (modal_invariant es) as (H1 & H2 & Hd). split; [exact Hd|].
  destruct (find_color_Some _ H1) as (c1 & Hf1 & Hv1 & Hc1).
  destruct (find_color_Some _ H2) as (c2 & Hf2 & Hv2 & Hc2).
  unfold handleStartClick. rewrite Hf1, Hf2. cbn [mbind option_bind].
  eexists. split; [reflexivity|]. cbn [settings1 settings2 winCondition operation].
  unfold isButtonDisabled in Hd.
  split; [exact Hc1|]. split; [exact Hc2|]. split; [exact Hv1|]. split; [exact Hv2|].
  split.
  { rewrite Hv1, Hv2. intros Heq. rewrite Heq, String.eqb_refl in Hd. discriminate Hd. }
  split; [reflexivity|]. split; [reflexivity|].
  intros mode s d Hg. cbn [step settings1 settings2 value].
  rewrite Hg, Hv1, Hv2, Hd. reflexivity.
Qed.

(** ** Inputs out of phase *)

(** X14: at most one kind of input is live in a state: a click on the left
    wheel, a click on the right wheel, or the selection of a cell; and a
    click or selection that is not live leaves the state as it is. *)
Theorem inputs_out_of_phase_ignored (mode : Mode) (s : State) (d1 d2 : Draw)
    (row col : nat) :
  canSpin1 s && canSpin2 s = false
  ∧ canSpin1 s && endsWithANSWER (gameState s) = false
  ∧ canSpin2 s && endsWithANSWER (gameState s) = false
  ∧ (canSpin1 s = false → step mode s (ESpin1Click d1 d2) = Some s)
  ∧ (canSpin2 s = false → step mode s ESpin2Click = Some s)
  ∧ (endsWithANSWER (gameState s) = false → step mode s (ECellClick row col) = Some s).
Proof.
  unfold canSpin1, canSpin2, isPlayerTurn.
  split; [by destruct (currentPlayer s), (gameState s)|].
  split; [by destruct (currentPlayer s), (gameState s)|].
  split; [by destruct (currentPlayer s), (gameState s)|].
  split; [|split].
  - intros H. cbn [step]. unfold canSpin1, isPlayerTurn. rewrite H.
    by rewrite andb_false_r.
  - intros H. cbn [step]. unfold canSpin2, isPlayerTurn. rewrite H.
    by rewrite andb_false_r.
  - intros H. cbn [step]. destruct (boardLayout s !! row ≫= _); [|done].
    apply handleCellClick_ignored. by left.
Qed.

(** ** A turn that claims a cell *)

(** X15: a correct answer that does not end the game, followed by the
    expiry of the hand-over it scheduled: the selected cell belongs to the
    player who answered, every other cell is as before, the other player is
    in the Spin1 phase, both operands and both wheel targets are [null], and
    the pending timers are those of before. *)
Theorem correct_answer_hands_turn (mode : Mode) (s : State) (p : Player)
    (cellValue : Z) (row col : nat) (val1 val2 : Z) (newBoardState : Board)
    (d : Draw) :
  gameState s = ANSWER p →
  currentPlayer s = p →
  spinner1Value s = Some val1 →
  spinner2Value s = Some val2 →
  layoutAt (boardLayout s) row col = Some cellValue →
  getCorrectAnswer (operation (gameSettings s)) val1 val2 = Some cellValue →
  setCell row col p (boardState s) = Some newBoardState →
  checkWinCondition (gameSettings s) newBoardState p
    (s |> setBoardState newBoardState
       |> setMessage (MsgCorrect val1 val2 (operation (gameSettings s)) cellValue))
  = Some (false,
          s |> setBoardState newBoardState
            |> setMessage (MsgCorrect val1 val2 (operation (gameSettings s)) cellValue)) →
  ∃ s',
    run mode s [ECellClick row col; ETimer (length (timers s)) d] = Some s'
    ∧ gameState s' = SPIN_1 (otherPlayer p)
    ∧ currentPlayer s' = otherPlayer p
    ∧ boardState s' = newBoardState
    ∧ cellAt (boardState s') row col = Some p
    ∧ (∀ r c, (r, c) ≠ (row, col) →
              cellAt (boardState s') r c = cellAt (boardState s) r c)
    ∧ spinner1Value s' = None ∧ spinner2Value s' = None
    ∧ spinner1Target s' = None ∧ spinner2Target s' = None
    ∧ timers s' = timers s.
Proof.
  intros Hg Hc H1 H2 Hl Hok Hset Hcheck. subst p.
  assert (Hans : endsWithANSWER (gameState s) = true) by (rewrite Hg; apply ANSWER_endsWith).
  assert (Hclick : handleCellClick cellValue row col s
                   = Some (s |> setBoardState newBoardState
                             |> setMessage (MsgCorrect val1 val2
                                              (operation (gameSettings s)) cellValue)
                             |> setTimeout (TChangeTurn (currentPlayer s) (gameSettings s)))).
  { rewrite (handleCellClick_correct s cellValue row col val1 val2) by done.
    rewrite Hset. cbn [mbind option_bind]. rewrite Hcheck. cbn [mbind option_bind].
    destruct (bool_decide (winCondition (gameSettings s) = most_on_full)
              && boardIsFull (boardState s)) eqn:Hold; [|reflexivity].
    exfalso. apply andb_prop in Hold as [Hw%bool_decide_eq_true Hfull].
    pose proof (setCell_boardIsFull _ _ _ _ _ Hset Hfull) as Hnew.
    unfold checkWinCondition in Hcheck. destruct newBoardState; [done|].
    rewrite Hw, Hnew in Hcheck. done. }
  unfold layoutAt in Hl. rewrite <- (step_cell_click mode s row col cellValue Hl) in Hclick.
  rewrite (run_step _ _ _ _ _ Hclick).
  match goal with |- context [run mode ?s1 [ETimer _ _]] =>
    assert (Etimer : step mode s1 (ETimer (length (timers s)) d)
                     = Some (runTimer (TChangeTurn (currentPlayer s) (gameSettings s)) d
                               (setTimers (timers s) s1)))
      by (apply step_timer_last; reflexivity)
  end.
  rewrite (run_step _ _ _ _ _ Etimer). clear Etimer.
  eexists. split; [reflexivity|]. cbn [runTimer].
  match goal with |- context [changeTurn ?c ?g d ?a] =>
    destruct (changeTurn_result c g d a) as (R1 & R2 & R3 & R4 & R5 & R6 & R7 & _);
    assert (R8 : timers (changeTurn c g d a) = timers s)
      by (unfold changeTurn; rewrite prepareTurn_eq; reflexivity)
  end.
  rewrite R1, R2, R3, R4, R5, R6, R7, R8. cbn [boardState setTimers setTimeout setMessage setBoardState].
  repeat (split; [reflexivity|]).
  split; [by rewrite (cellAt_setCell _ _ _ _ _ row col Hset), decide_True|].
  split; [|done].
  intros r c Hne. rewrite (cellAt_setCell _ _ _ _ _ r c Hset).
  rewrite decide_False; [done|]. intros [-> ->]. by apply Hne.
Qed.

(** X15 in [twelveTwiceGame]: [player2] answers 2 × 6 with the cell 12, and
    [player1] is to spin. *)
Lemma correct_answer_hands_turn_witness :
  ∃ s',
    run production (afterGame twelveTwiceGame) [ECellClick 3 6; ETimer 0 0%fin] = Some s'
    ∧ gameState s' = PLAYER_1_SPIN_1
    ∧ cellAt (boardState s') 3 6 = Some player2.
Proof.
  set (s := afterGame twelveTwiceGame).
  assert (Hg : gameState s = ANSWER player2) by by_run.
  assert (Hc : currentPlayer s = player2) by by_run.
  assert (H1 : spinner1Value s = Some 2) by by_run.
  assert (H2 : spinner2Value s = Some 6) by by_run.
  assert (Hl : layoutAt (boardLayout s) 3 6 = Some 12) by by_run.
  assert (Hok : getCorrectAnswer (operation (gameSettings s)) 2 6 = Some 12) by by_run.
  assert (Hset : setCell 3 6 player2 (boardState s)
                 = Some (boardState (afterGame (twelveTwiceGame ++ [ECellClick 3 6]))))
    by by_run.
  assert (Hcheck :
    checkWinCondition (gameSettings s)
      (boardState (afterGame (twelveTwiceGame ++ [ECellClick 3 6]))) player2
      (s |> setBoardState (boardState (afterGame (twelveTwiceGame ++ [ECellClick 3 6])))
         |> setMessage (MsgCorrect 2 6 (operation (gameSettings s)) 12))
    = Some (false,
            s |> setBoardState (boardState (afterGame (twelveTwiceGame ++ [ECellClick 3 6])))
              |> setMessage (MsgCorrect 2 6 (operation (gameSettings s)) 12)))
    by by_run.
  assert (Hlen : length (timers s) = 0%nat) by by_run.
  destruct (correct_answer_hands_turn production s player2 12 3 6 2 6 _ 0%fin
              Hg Hc H1 H2 Hl Hok Hset Hcheck)
    as (s' & Hrun & Hgs & _ & _ & Hcell & _).
  rewrite Hlen in Hrun. exists s'. split; [exact Hrun|]. split; [exact Hgs|exact Hcell].
Defined.

(** ** Answers of inverse operations *)

(** X16: [getCorrectAnswer] on inverse operations, on safe integers, where
    the source's arithmetic on doubles is the integer arithmetic.  A
    division that has an answer is undone by the multiplication with the
    divisor, and its answer is a safe integer; the division of a safe
    product by a non-zero factor gives the other factor (and is never
    [null]); a subtraction is undone by the addition and the other way
    round. *)
Theorem answers_round_trip :
  (∀ a b q, safeInteger a → safeInteger b →
            getCorrectAnswer OpDivide a b = Some q →
            safeInteger q ∧ getCorrectAnswer OpTimes q b = Some a)
  ∧ (∀ q b, safeInteger q → safeInteger b → safeInteger (q * b) → b ≠ 0 →
            getCorrectAnswer OpDivide (q * b) b = Some q)
  ∧ (∀ a b r, safeInteger a → safeInteger b → safeInteger r →
              (getCorrectAnswer OpMinus a b = Some r ↔
               getCorrectAnswer OpPlus r b = Some a)).
Proof.
  unfold safeInteger. split; [|split].
  - intros a b q Ha Hb. unfold getCorrectAnswer, js_rem.
    case_decide as Hb0; [done|].
    destruct (Z.rem a b) as [| |] eqn:Hr; try done.
    intros [= <-]. pose proof (Z.quot_rem' a b) as Hqr.
    rewrite Hr in Hqr. split; [|f_equal; lia]. nia.
  - intros q b _ _ _ Hb. unfold getCorrectAnswer, js_rem.
    rewrite decide_False by done. rewrite Z.rem_mul by done.
    by rewrite Z.quot_mul.
  - intros a b r _ _ _. simpl. split; intros [= H]; f_equal; lia.
Qed.
